(** * mbf-agent-wrapper: the agent session loop, response handling and logging

    A shallow embedding of [mbf-agent-wrapper.py]: the read loop of
    [Wrapper.send_payload], the handler [Wrapper.parse_response] with its
    helpers [color_bool], [log_mod] and [log], and the log level computed
    in [Wrapper.__init__].

    Python values coming out of [json.loads] are the inductive [json];
    [bytes] and [str] are byte strings ([str] holds the UTF-8 encoding of
    the text); exceptions are explicit results; what [print] writes is
    recorded in the wrapper state, in order. *)

From Stdlib Require Import String Ascii List ZArith NArith Bool Lia.
Import ListNotations.

Open Scope string_scope.
Open Scope Z_scope.

(** ** Byte strings *)

(** Python [bytes]: one [ascii] per byte. *)
Definition bytes := string.

(** Python [str], kept as the UTF-8 encoding of its code points. *)
Definition str := string.

Definition LF : ascii := "010"%char.
Definition CR : ascii := "013"%char.
Definition ESC : string := String "027"%char "".
Definition DQ : string := String "034"%char "".

(** [quoted s] is [s] between two double quotes. *)
Definition quoted (s : string) : string := DQ ++ s ++ DQ.

Definition snoc (s : string) (c : ascii) : string := s ++ String c "".

Definition is_empty (s : string) : bool :=
  match s with EmptyString => true | String _ _ => false end.

(** [bytes.splitlines()]: lines are ended by LF, CR or CR LF; the line
    ends are dropped; no empty last line after a final line end. *)
Fixpoint splitlines_from (line : bytes) (s : bytes) {struct s} : list bytes :=
  match s with
  | EmptyString => if is_empty line then [] else [line]
  | String c rest =>
      if Ascii.eqb c LF then line :: splitlines_from "" rest
      else if Ascii.eqb c CR then
        match rest with
        | String c2 rest2 =>
            if Ascii.eqb c2 LF then line :: splitlines_from "" rest2
            else line :: splitlines_from "" rest
        | EmptyString => [line]
        end
      else splitlines_from (snoc line c) rest
  end.

Definition splitlines (s : bytes) : list bytes := splitlines_from "" s.

(** No byte of [s] is a line end. *)
Fixpoint no_linebreak (s : bytes) : bool :=
  match s with
  | EmptyString => true
  | String c rest => negb (Ascii.eqb c LF) && negb (Ascii.eqb c CR) && no_linebreak rest
  end.

(** ** UTF-8 *)

Module Utf8.

Definition byte_in (lo hi : N) (c : ascii) : bool :=
  let n := N_of_ascii c in (lo <=? n)%N && (n <=? hi)%N.

Definition cont (c : ascii) : bool := byte_in 128 191 c.

(** The range allowed for the second byte after the lead byte [c] of a
    three or four byte sequence (no overlong forms, no surrogates, nothing
    above U+10FFFF). *)
Definition second_ok (lead c : ascii) : bool :=
  let l := N_of_ascii lead in
  if (l =? 224)%N then byte_in 160 191 c
  else if (l =? 237)%N then byte_in 128 159 c
  else if (l =? 240)%N then byte_in 144 191 c
  else if (l =? 244)%N then byte_in 128 143 c
  else cont c.

(** The code points of a byte string, each as its own byte sequence;
    [None] where the bytes are not well-formed UTF-8. *)
Fixpoint chars (s : bytes) {struct s} : option (list str) :=
  match s with
  | EmptyString => Some []
  | String a r1 =>
      if byte_in 0 127 a then
        option_map (cons (String a "")) (chars r1)
      else if byte_in 194 223 a then
        match r1 with
        | String b r2 =>
            if cont b then option_map (cons (String a (String b ""))) (chars r2)
            else None
        | _ => None
        end
      else if byte_in 224 239 a then
        match r1 with
        | String b (String c r3) =>
            if second_ok a b && cont c
            then option_map (cons (String a (String b (String c "")))) (chars r3)
            else None
        | _ => None
        end
      else if byte_in 240 244 a then
        match r1 with
        | String b (String c (String d r4)) =>
            if second_ok a b && cont c && cont d
            then option_map (cons (String a (String b (String c (String d ""))))) (chars r4)
            else None
        | _ => None
        end
      else None
  end.

(** [b.decode('utf8')]: the text, or [None] for [UnicodeDecodeError]. *)
Definition decode (b : bytes) : option str :=
  match chars b with Some _ => Some b | None => None end.

(** The UTF-8 encoding of a code point below 0x110000 (a lone surrogate of
    a JSON escape is given the three byte form). *)
Definition encode (cp : N) : str :=
  let b (n : N) := ascii_of_N n in
  (if cp <? 128 then String (b cp) ""
   else if cp <? 2048 then
     String (b (192 + cp / 64)) (String (b (128 + cp mod 64)) "")
   else if cp <? 65536 then
     String (b (224 + cp / 4096))
       (String (b (128 + (cp / 64) mod 64)) (String (b (128 + cp mod 64)) ""))
   else
     String (b (240 + cp / 262144))
       (String (b (128 + (cp / 4096) mod 64))
          (String (b (128 + (cp / 64) mod 64)) (String (b (128 + cp mod 64)) ""))))%N.

End Utf8.

(** ** Python values *)

(** A float, as the decimal number [m * 10^e] its literal denotes (the
    rounding of [float()] to binary64 is not modelled), or one of the three
    values the JSON decoder makes from [Infinity], [-Infinity] and [NaN]. *)
Inductive pyfloat : Type :=
  | Finite (m e : Z)
  | PosInf
  | NegInf
  | NaN.

(** The objects [json.loads] builds: [None], [bool], [int], [float], [str],
    [list] and [dict] (keys in insertion order, no key twice). *)
#[warnings="-register-all"] Inductive json : Type :=
  | JNull
  | JBool (b : bool)
  | JInt (z : Z)
  | JFloat (f : pyfloat)
  | JStr (s : str)
  | JList (l : list json)
  | JDict (d : list (str * json)).

Definition pydict := list (str * json).

(** The exceptions that leave [parse_response] and [send_payload]:
    [KeyError(key)], [TypeError] and [UnicodeDecodeError]. *)
Inductive exn : Type :=
  | KeyError (key : str)
  | TypeError
  | UnicodeDecodeError.

Module Py.

Fixpoint dict_get (k : str) (d : pydict) : option json :=
  match d with
  | [] => None
  | (k', v) :: d' => if String.eqb k k' then Some v else dict_get k d'
  end.

(** [k in d] *)
Definition dict_mem (k : str) (d : pydict) : bool :=
  match dict_get k d with Some _ => true | None => false end.

(** [d[k] = v]: a present key keeps its place, a new one goes last. *)
Fixpoint dict_set (k : str) (v : json) (d : pydict) : pydict :=
  match d with
  | [] => [(k, v)]
  | (k', v') :: d' =>
      if String.eqb k k' then (k, v) :: d' else (k', v') :: dict_set k v d'
  end.

(** [del d[k]] for a key that is present. *)
Fixpoint dict_del (k : str) (d : pydict) : pydict :=
  match d with
  | [] => []
  | (k', v') :: d' => if String.eqb k k' then d' else (k', v') :: dict_del k d'
  end.

(** [dict(pairs)] *)
Definition dict_of_pairs (pairs : list (str * json)) : pydict :=
  fold_left (fun d kv => dict_set (fst kv) (snd kv) d) pairs [].

(** [a | b] on dicts. *)
Definition dict_merge (a b : pydict) : pydict :=
  fold_left (fun d kv => dict_set (fst kv) (snd kv) d) b a.

(** [v[k]] for a [str] key [k]: only a dict can be indexed by a string. *)
Definition getitem (v : json) (k : str) : exn + json :=
  match v with
  | JDict d => match dict_get k d with Some x => inr x | None => inl (KeyError k) end
  | _ => inl TypeError
  end.

(** [v == s] for a [str] literal [s]. *)
Definition eq_str (v : json) (s : str) : bool :=
  match v with JStr t => String.eqb t s | _ => false end.

Definition float_truthy (f : pyfloat) : bool :=
  match f with Finite m _ => negb (m =? 0) | _ => true end.

(** [bool(v)] *)
Definition truthy (v : json) : bool :=
  match v with
  | JNull => false
  | JBool b => b
  | JInt z => negb (z =? 0)
  | JFloat f => float_truthy f
  | JStr s => negb (is_empty s)
  | JList l => match l with [] => false | _ => true end
  | JDict d => match d with [] => false | _ => true end
  end.

(** The code points of a [str], each as a one character [str]. *)
Fixpoint str_chars_from (cur : str) (s : str) {struct s} : list json :=
  match s with
  | EmptyString => if is_empty cur then [] else [JStr cur]
  | String c r =>
      if Utf8.cont c then str_chars_from (snoc cur c) r
      else if is_empty cur then str_chars_from (String c "") r
      else JStr cur :: str_chars_from (String c "") r
  end.

(** What [for x in v] goes through: the items of a list, the keys of a
    dict, the characters of a str; the other values are not iterable. *)
Definition iter (v : json) : exn + list json :=
  match v with
  | JList l => inr l
  | JDict d => inr (map (fun kv => JStr (fst kv)) d)
  | JStr s => inr (str_chars_from "" s)
  | _ => inl TypeError
  end.

(** The truth value of [v ^ flipped] for a bool [flipped]: defined for
    [bool] and [int] only. *)
Definition xor_truthy (v : json) (flipped : bool) : exn + bool :=
  match v with
  | JBool b => inr (xorb b flipped)
  | JInt z => inr (negb (Z.lxor z (if flipped then 1 else 0) =? 0))
  | _ => inl TypeError
  end.

(** [f ? z] for a float and an int; [None] when [f] is NaN. *)
Definition float_compare (f : pyfloat) (z : Z) : option comparison :=
  match f with
  | Finite m e =>
      Some (if 0 <=? e then m * 10 ^ e ?= z else m ?= z * 10 ^ (- e))
  | PosInf => Some Gt
  | NegInf => Some Lt
  | NaN => None
  end.

(** [v ? z] for a number [v] ([bool] counts as 0 or 1) and an int [z];
    [inl TypeError] where Python has no order between the two. *)
Definition num_compare (v : json) (z : Z) : exn + option comparison :=
  match v with
  | JBool b => inr (Some ((if b then 1 else 0) ?= z))
  | JInt n => inr (Some (n ?= z))
  | JFloat f => inr (float_compare f z)
  | _ => inl TypeError
  end.

Definition lower_ascii (c : ascii) : ascii :=
  let n := N_of_ascii c in
  if ((65 <=? n) && (n <=? 90))%N then ascii_of_N (n + 32) else c.

(** [s.lower()] on the ASCII letters; the level names are ASCII and no
    other character lowers to a letter they contain.  For a [str] with a
    cased character outside ASCII the result is not the text Python
    gives: what is stated of the lowered text itself asks for an ASCII
    [str]. *)
Fixpoint lower (s : str) : str :=
  match s with
  | EmptyString => EmptyString
  | String c r => String (lower_ascii c) (lower r)
  end.

End Py.

(** ** The JSON decoder

    A model of [json.loads] on a [str]: the grammar of the decoder with its
    extensions ([NaN], [Infinity], [-Infinity]), strict strings (no raw
    control character), and [dict(pairs)] for objects.  [None] stands for
    [json.JSONDecodeError].

    The decoder is modelled where it gives a value or raises
    [JSONDecodeError].  The two other ways it can end, [RecursionError]
    for arrays and objects nested beyond the recursion limit of the
    interpreter and [ValueError] for an integer literal with more digits
    than [int()] takes, are outside the model: the read loop catches
    neither, and what is stated of a parser that rejects a text means
    [JSONDecodeError]. *)

Module Json.

Definition is_ws (c : ascii) : bool :=
  ((c =? " ") || (c =? "009") || (c =? "010") || (c =? "013"))%char.

Fixpoint skip_ws (s : str) : str :=
  match s with
  | String c r => if is_ws c then skip_ws r else s
  | EmptyString => s
  end.

Definition is_digit (c : ascii) : bool := Utf8.byte_in 48 57 c.

Definition digit_val (c : ascii) : Z := Z.of_N (N_of_ascii c) - 48.

(** The longest run of digits at the head of [s], and what follows it. *)
Fixpoint span_digits (s : str) : str * str :=
  match s with
  | String c r =>
      if is_digit c then let (ds, rest) := span_digits r in (String c ds, rest)
      else (EmptyString, s)
  | EmptyString => (EmptyString, EmptyString)
  end.

Fixpoint Z_of_digits_from (acc : Z) (ds : str) : Z :=
  match ds with
  | String c r => Z_of_digits_from (10 * acc + digit_val c) r
  | EmptyString => acc
  end.

Definition Z_of_digits (ds : str) : Z := Z_of_digits_from 0 ds.

(** [s] without the prefix [p], when it starts with it. *)
Fixpoint strip_prefix (p s : str) : option str :=
  match p, s with
  | EmptyString, _ => Some s
  | String a p', String b s' => if (a =? b)%char then strip_prefix p' s' else None
  | String _ _, EmptyString => None
  end.

(** The integer part of a number: an optional minus sign, then a single
    zero or a digit from 1 to 9 followed by any digits. *)
Definition int_part (s : str) : option (bool * str * str) :=
  let (neg, s1) :=
    match s with
    | String c r => if (c =? "-")%char then (true, r) else (false, s)
    | EmptyString => (false, s)
    end in
  match s1 with
  | String c r =>
      if (c =? "0")%char then Some (neg, String c "", r)
      else if is_digit c then
        let (ds, rest) := span_digits r in Some (neg, String c ds, rest)
      else None
  | EmptyString => None
  end.

(** The fraction, when there is one: a dot and at least one digit. *)
Definition frac_part (s : str) : option (str * str) :=
  match s with
  | String c r =>
      if (c =? ".")%char then
        let (ds, rest) := span_digits r in
        if is_empty ds then None else Some (ds, rest)
      else None
  | EmptyString => None
  end.

(** The exponent, when there is one: e or E, an optional sign and at
    least one digit. *)
Definition exp_part (s : str) : option (Z * str) :=
  match s with
  | String c r =>
      if ((c =? "e") || (c =? "E"))%char then
        let (neg, r1) :=
          match r with
          | String sg r' =>
              if (sg =? "-")%char then (true, r')
              else if (sg =? "+")%char then (false, r')
              else (false, r)
          | EmptyString => (false, r)
          end in
        let (ds, rest) := span_digits r1 in
        if is_empty ds then None
        else Some (if neg then - Z_of_digits ds else Z_of_digits ds, rest)
      else None
  | EmptyString => None
  end.

(** A number at the head of [s]: an [int] when it has neither fraction
    nor exponent, a [float] otherwise. *)
Definition parse_number (s : str) : option (json * str) :=
  match int_part s with
  | None => None
  | Some (neg, ds, r0) =>
      let sign (z : Z) := if neg then - z else z in
      let (frac, r1) :=
        match frac_part r0 with Some (fd, r) => (Some fd, r) | None => (None, r0) end in
      let (ex, r2) :=
        match exp_part r1 with Some (e, r) => (Some e, r) | None => (None, r1) end in
      match frac, ex with
      | None, None => Some (JInt (sign (Z_of_digits ds)), r2)
      | _, _ =>
          let fd := match frac with Some fd => fd | None => EmptyString end in
          let e := match ex with Some e => e | None => 0 end in
          Some (JFloat (Finite (sign (Z_of_digits (ds ++ fd)))
                               (e - Z.of_nat (String.length fd))), r2)
      end
  end.

Definition hex_val (c : ascii) : option N :=
  let n := N_of_ascii c in
  (if (48 <=? n) && (n <=? 57) then Some (n - 48)
   else if (65 <=? n) && (n <=? 70) then Some (n - 55)
   else if (97 <=? n) && (n <=? 102) then Some (n - 87)
   else None)%N.

Definition hex4 (a b c d : ascii) : option N :=
  match hex_val a, hex_val b, hex_val c, hex_val d with
  | Some x, Some y, Some z, Some w => Some (((x * 16 + y) * 16 + z) * 16 + w)%N
  | _, _, _, _ => None
  end.

(** The character a one letter escape stands for. *)
Definition simple_escape (c : ascii) : option ascii :=
  (if (c =? "034") || (c =? "\") || (c =? "/") then Some c
   else if c =? "b" then Some "008"
   else if c =? "f" then Some "012"
   else if c =? "n" then Some "010"
   else if c =? "r" then Some "013"
   else if c =? "t" then Some "009"
   else None)%char.

Definition is_high (u : N) : bool := ((55296 <=? u) && (u <=? 56319))%N.
Definition is_low (u : N) : bool := ((56320 <=? u) && (u <=? 57343))%N.

Definition join_surrogates (hi lo : N) : N :=
  (65536 + ((hi - 55296) * 1024 + (lo - 56320)))%N.

(** The contents of a string after its opening quote, up to the closing
    one, with the escapes replaced; a surrogate pair written as two
    [\u] escapes is one character. *)
Fixpoint scanstring (acc : str) (s : str) {struct s} : option (str * str) :=
  match s with
  | EmptyString => None
  | String c r =>
      if (c =? "034")%char then Some (acc, r)
      else if (c =? "\")%char then
        match r with
        | EmptyString => None
        | String e r2 =>
            if (e =? "u")%char then
              match r2 with
              | String h1 (String h2 (String h3 (String h4 r6))) =>
                  match hex4 h1 h2 h3 h4 with
                  | None => None
                  | Some uni =>
                      match r6 with
                      | String b1 (String u1 (String g1 (String g2 (String g3 (String g4 r12))))) =>
                          if is_high uni && (b1 =? "\")%char && (u1 =? "u")%char then
                            match hex4 g1 g2 g3 g4 with
                            | None => None
                            | Some uni2 =>
                                if is_low uni2
                                then scanstring (acc ++ Utf8.encode (join_surrogates uni uni2)) r12
                                else scanstring (acc ++ Utf8.encode uni) r6
                            end
                          else scanstring (acc ++ Utf8.encode uni) r6
                      | _ => scanstring (acc ++ Utf8.encode uni) r6
                      end
                  end
              | _ => None
              end
            else
              match simple_escape e with
              | Some x => scanstring (snoc acc x) r2
              | None => None
              end
        end
      else if (N_of_ascii c <? 32)%N then None
      else scanstring (snoc acc c) r
  end.

(** What follows a value in an array or an object. *)
Inductive after_value : Type :=
  | Closing (rest : str)
  | Comma (rest : str)
  | Neither.

Definition delimiter (close : ascii) (s : str) : after_value :=
  match skip_ws s with
  | String c r =>
      if (c =? close)%char then Closing r
      else if (c =? ",")%char then Comma (skip_ws r)
      else Neither
  | EmptyString => Neither
  end.

(** A key of an object with its colon: [s] starts at the opening quote. *)
Definition object_key (s : str) : option (str * str) :=
  match s with
  | String q r =>
      if (q =? "034")%char then
        match scanstring "" r with
        | Some (key, r1) =>
            match skip_ws r1 with
            | String c r2 => if (c =? ":")%char then Some (key, skip_ws r2) else None
            | EmptyString => None
            end
        | None => None
        end
      else None
  | EmptyString => None
  end.

(** One value at the head of [s] (the scanner's [scan_once]), the items of
    an array after its bracket and the pairs of an object after its brace.
    [fuel] bounds the depth of the calls. *)
Fixpoint scan_once (fuel : nat) (s : str) {struct fuel} : option (json * str) :=
  match fuel with
  | O => None
  | S fuel' =>
      match s with
      | EmptyString => None
      | String c r =>
          if (c =? "034")%char then
            match scanstring "" r with
            | Some (x, rest) => Some (JStr x, rest)
            | None => None
            end
          else if (c =? "{")%char then
            match skip_ws r with
            | String c1 r1 =>
                if (c1 =? "}")%char then Some (JDict [], r1)
                else object_pairs fuel' [] (skip_ws r)
            | EmptyString => None
            end
          else if (c =? "[")%char then
            match skip_ws r with
            | String c1 r1 =>
                if (c1 =? "]")%char then Some (JList [], r1)
                else array_items fuel' [] (skip_ws r)
            | EmptyString => None
            end
          else
            match strip_prefix "null" s, strip_prefix "true" s, strip_prefix "false" s with
            | Some rest, _, _ => Some (JNull, rest)
            | _, Some rest, _ => Some (JBool true, rest)
            | _, _, Some rest => Some (JBool false, rest)
            | None, None, None =>
                match parse_number s with
                | Some res => Some res
                | None =>
                    match strip_prefix "NaN" s, strip_prefix "Infinity" s,
                          strip_prefix "-Infinity" s with
                    | Some rest, _, _ => Some (JFloat NaN, rest)
                    | _, Some rest, _ => Some (JFloat PosInf, rest)
                    | _, _, Some rest => Some (JFloat NegInf, rest)
                    | None, None, None => None
                    end
                end
            end
      end
  end

with array_items (fuel : nat) (values : list json) (s : str) {struct fuel}
  : option (json * str) :=
  match fuel with
  | O => None
  | S fuel' =>
      match scan_once fuel' s with
      | None => None
      | Some (v, r) =>
          match delimiter "]" r with
          | Closing rest => Some (JList (values ++ [v])%list, rest)
          | Comma rest => array_items fuel' (values ++ [v])%list rest
          | Neither => None
          end
      end
  end

with object_pairs (fuel : nat) (pairs : list (str * json)) (s : str) {struct fuel}
  : option (json * str) :=
  match fuel with
  | O => None
  | S fuel' =>
      match object_key s with
      | None => None
      | Some (key, r0) =>
          match scan_once fuel' r0 with
          | None => None
          | Some (v, r) =>
              match delimiter "}" r with
              | Closing rest =>
                  Some (JDict (Py.dict_of_pairs (pairs ++ [(key, v)])%list), rest)
              | Comma rest => object_pairs fuel' (pairs ++ [(key, v)])%list rest
              | Neither => None
              end
          end
      end
  end.

(** [json.loads(s)]: one value, white space allowed around it and nothing
    else after it. *)
Definition loads (s : str) : option json :=
  match scan_once (S (String.length s)) (skip_ws s) with
  | Some (v, rest) => if is_empty (skip_ws rest) then Some v else None
  | None => None
  end.

End Json.

(** ** The wrapper object and what it prints *)

Definition TRACE : Z := 4.
Definition DEBUG : Z := 3.
Definition INFO : Z := 2.
Definition WARN : Z := 1.
Definition ERROR : Z := 0.

Definition LEVEL_CONVERTER : list (str * Z) :=
  [("trace", TRACE); ("debug", DEBUG); ("info", INFO); ("warn", WARN);
   ("error", ERROR)].

Fixpoint level_of_name (name : str) (table : list (str * Z)) : option Z :=
  match table with
  | [] => None
  | (k, v) :: table' => if String.eqb name k then Some v else level_of_name name table'
  end.

(** The two files [print] writes to. *)
Inductive file : Type := sys_stdout | sys_stderr.

(** A piece of text: a literal, [str(v)] of a value put in by an f-string
    or passed to [print], or [json.dumps(v)]. *)
Inductive piece : Type :=
  | Lit (s : str)
  | Str (v : json)
  | Dumps (v : json).

Definition text := list piece.

Definition NL : str := String LF "".

(** The wrapper: its log level, the attributes [parse_response] sets
    ([mod_status], [mods], ... : absent until set) and, in order, what has
    been written to [sys.stdout] and [sys.stderr]. *)
Record Wrapper : Type := mkWrapper {
  log_level : Z;
  attrs : pydict;
  printed : list (file * text)
}.

(** [Wrapper.__init__]: [self.log_level = INFO + verbosity - quiteness],
    the two counts of [-v] and [-q] on the command line.  (The argument
    parser and [verify_agent], which pushes the agent to the headset, are
    outside this model.) *)
Definition init_log_level (verbosity quiteness : nat) : Z :=
  INFO + Z.of_nat verbosity - Z.of_nat quiteness.

Definition init (verbosity quiteness : nat) : Wrapper :=
  {| log_level := init_log_level verbosity quiteness; attrs := []; printed := [] |}.

(** Computations on the wrapper that may raise. *)
Definition M (A : Type) : Type := Wrapper -> Wrapper * (exn + A).

Definition ret {A} (a : A) : M A := fun w => (w, inr a).

Definition raise {A} (e : exn) : M A := fun w => (w, inl e).

Definition bind {A B} (c : M A) (k : A -> M B) : M B :=
  fun w =>
    match c w with
    | (w', inr a) => k a w'
    | (w', inl e) => (w', inl e)
    end.

Definition lift {A} (r : exn + A) : M A :=
  match r with inl e => raise e | inr a => ret a end.

Notation "x <- c ;; k" := (bind c (fun x => k))
  (at level 61, c at next level, right associativity).
Notation "c ;; k" := (bind c (fun _ => k))
  (at level 61, right associativity).

(** [print(t, end='', file=f)].  The write is taken to succeed; in Python
    it raises when the file cannot encode the text ([UnicodeEncodeError]
    for a lone surrogate on a strict [sys.stdout]; [sys.stderr] replaces
    what it cannot encode). *)
Definition print_noend (f : file) (t : text) : M unit :=
  fun w => ({| log_level := log_level w; attrs := attrs w;
               printed := (printed w ++ [(f, t)])%list |}, inr tt).

(** [print(t, file=f)] *)
Definition print (f : file) (t : text) : M unit :=
  print_noend f (t ++ [Lit NL])%list.

(** [self.name = v] *)
Definition setattr (name : str) (v : json) : M unit :=
  fun w => ({| log_level := log_level w; attrs := Py.dict_set name v (attrs w);
               printed := printed w |}, inr tt).

Definition get_log_level : M Z := fun w => (w, inr (log_level w)).

(** [for x in l: body(x)] *)
Fixpoint for_each (body : json -> M unit) (l : list json) : M unit :=
  match l with
  | [] => ret tt
  | x :: l' => body x ;; for_each body l'
  end.

(** [for x in v: body(x)] for any value [v]. *)
Definition for_in (v : json) (body : json -> M unit) : M unit :=
  l <- lift (Py.iter v) ;; for_each body l.

(** *** [Wrapper.log] *)

Definition TRACE_PREFIX : str := ESC ++ "[90m[TRACE]" ++ ESC ++ "[0m ".
Definition DEBUG_PREFIX : str :=
  ESC ++ "[90m[" ++ ESC ++ "[90mDEBUG" ++ ESC ++ "[90m]" ++ ESC ++ "[0m ".
Definition INFO_PREFIX : str :=
  ESC ++ "[90m[" ++ ESC ++ "[37mINFO" ++ ESC ++ "[90m]" ++ ESC ++ "[0m  ".
Definition WARN_PREFIX : str :=
  ESC ++ "[90m[" ++ ESC ++ "[33mWARN" ++ ESC ++ "[90m]" ++ ESC ++ "[0m  ".
Definition ERROR_PREFIX : str :=
  ESC ++ "[90m[" ++ ESC ++ "[31mERROR" ++ ESC ++ "[90m]" ++ ESC ++ "[0m ".

(** [if type(level) == str: level = LEVEL_CONVERTER[level.lower()]] *)
Definition convert_level (level : json) : exn + json :=
  match level with
  | JStr s =>
      match level_of_name (Py.lower s) LEVEL_CONVERTER with
      | Some z => inr (JInt z)
      | None => inl (KeyError (Py.lower s))
      end
  | _ => inr level
  end.

(** [level == z] for a level that has been compared with an int. *)
Definition level_is (cmp : option comparison) : bool :=
  match cmp with Some Eq => true | _ => false end.

Definition log (t : text) (level : json) : M unit :=
  level <- lift (convert_level level) ;;
  ll <- get_log_level ;;
  above <- lift (Py.num_compare level ll) ;;
  match above with
  | Some Gt => ret tt
  | _ =>
      let level_eq z := match Py.num_compare level z with
                  | inr c => level_is c
                  | inl _ => false
                  end in
      if level_eq TRACE then print_noend sys_stdout [Lit TRACE_PREFIX] ;; print sys_stdout t
      else if level_eq DEBUG then print_noend sys_stdout [Lit DEBUG_PREFIX] ;; print sys_stdout t
      else if level_eq INFO then print_noend sys_stdout [Lit INFO_PREFIX] ;; print sys_stdout t
      else if level_eq WARN then print_noend sys_stdout [Lit WARN_PREFIX] ;; print sys_stdout t
      else if level_eq ERROR then print_noend sys_stderr [Lit ERROR_PREFIX] ;; print sys_stderr t
      else print sys_stdout t
  end.

(** [self.log(t)] with the default [level=INFO]. *)
Definition log_info (t : text) : M unit := log t (JInt INFO).

(** *** [Wrapper.color_bool] and [Wrapper.log_mod] *)

Definition color_bool (boolean : json) (flipped : bool) : exn + text :=
  match Py.xor_truthy boolean flipped with
  | inl e => inl e
  | inr b =>
      inr [Lit (if b then ESC ++ "[32m" else ESC ++ "[31m"); Str boolean;
           Lit (ESC ++ "[0m")]
  end.

Definition log_mod (mod_ : json) : M unit :=
  let indent := "    " in
  name <- lift (Py.getitem mod_ "name") ;;
  log_info [Lit indent; Lit (ESC ++ "[1m"); Str name; Lit (ESC ++ "[0m")] ;;
  enabled <- lift (Py.getitem mod_ "is_enabled") ;;
  let enabled :=
    if Py.truthy enabled then ESC ++ "[32mTrue" ++ ESC ++ "[0m"
    else ESC ++ "[31mFalse" ++ ESC ++ "[0m" in
  log_info [Lit indent; Lit "  Enabled: "; Lit enabled] ;;
  is_core <- lift (Py.getitem mod_ "is_core") ;;
  log [Lit indent; Lit "  Core Mod: "; Str is_core] (JInt DEBUG) ;;
  version <- lift (Py.getitem mod_ "version") ;;
  log_info [Lit indent; Lit "  Version: "; Str version] ;;
  id <- lift (Py.getitem mod_ "id") ;;
  log_info [Lit indent; Lit "  ID: "; Str id] ;;
  game_version <- lift (Py.getitem mod_ "game_version") ;;
  log [Lit indent; Lit "  Game Version: "; Str game_version] (JInt DEBUG) ;;
  description <- lift (Py.getitem mod_ "description") ;;
  log_info [Lit indent; Lit "  Description: "; Str description; Lit NL].

(** [self.log('  Installed Mods')] and the loop over
    [response['installed_mods']], shared by four kinds of response. *)
Definition log_installed_mods (response : json) : M unit :=
  log_info [Lit ("  " ++ ESC ++ "[1;32mInstalled Mods" ++ ESC ++ "[0m")] ;;
  installed_mods <- lift (Py.getitem response "installed_mods") ;;
  for_in installed_mods log_mod.

(** *** [Wrapper.parse_response] *)

(** The [App Info] lines of a [ModStatus], under [if 'app_info' in response]. *)
Definition mod_status_app_info (response : pydict) : M unit :=
  if Py.dict_mem "app_info" response then
    log_info [Lit ("  " ++ ESC ++ "[1;90mApp Info" ++ ESC ++ "[0m")] ;;
    app_info <- lift (Py.getitem (JDict response) "app_info") ;;
    loader_installed <- lift (Py.getitem app_info "loader_installed") ;;
    log_info [Lit "    Loader Installed: "; Str loader_installed] ;;
    obb_present <- lift (Py.getitem app_info "obb_present") ;;
    colored <- lift (color_bool obb_present false) ;;
    log_info (Lit "    OBB Present: " :: colored) ;;
    version <- lift (Py.getitem app_info "version") ;;
    log_info [Lit "    Version: "; Str version; Lit NL] ;;
    manifest_xml <- lift (Py.getitem app_info "manifest_xml") ;;
    log [Lit "    Manifest XML: "; Str manifest_xml; Lit NL] (JInt TRACE)
  else ret tt.

(** The [Core Mods] lines of a [ModStatus], under [if 'core_mods' in response]. *)
Definition mod_status_core_mods (response : pydict) : M unit :=
  if Py.dict_mem "core_mods" response then
    log [Lit ("  " ++ ESC ++ "[1;92mCore Mods" ++ ESC ++ "[0m")] (JInt DEBUG) ;;
    core_mods <- lift (Py.getitem (JDict response) "core_mods") ;;
    core_status <- lift (Py.getitem core_mods "core_mod_install_status") ;;
    let core_status_code :=
      if Py.eq_str core_status "Ready" then ESC ++ "[32m"
      else if Py.eq_str core_status "NeedUpdate" then ESC ++ "[33m"
      else ESC ++ "[31m" in
    log [Lit "    Core Mod Install Status: "; Lit core_status_code; Str core_status]
        (JInt DEBUG) ;;
    log [Lit "    Supported Versions"] (JInt DEBUG) ;;
    supported_versions <- lift (Py.getitem core_mods "supported_versions") ;;
    for_in supported_versions
      (fun supported_version => log [Lit "      "; Str supported_version] (JInt DEBUG)) ;;
    log [Lit "    Downgrade Versions"] (JInt DEBUG) ;;
    downgrade_versions <- lift (Py.getitem core_mods "downgrade_versions") ;;
    for_in downgrade_versions
      (fun downgrade_version => log [Lit "      "; Str downgrade_version] (JInt DEBUG))
  else ret tt.

(** The statements of the [ModStatus] branch up to the end of the
    [if 'core_mods' in response] block. *)
Definition mod_status_head (response : pydict) : M unit :=
  setattr "mod_status" (JDict response) ;;
  log_info [Lit (ESC ++ "[1mMod Status" ++ ESC ++ "[0m")] ;;
  mod_status_app_info response ;;
  log_installed_mods (JDict response) ;;
  mod_status_core_mods response.

(** The two statements after that block: the [Is Awaiting Diff?] line,
    which reads [response["core_mods"]["is_awaiting_diff"]], and the OBB
    warning. *)
Definition mod_status_tail (response : pydict) : M unit :=
  core_mods <- lift (Py.getitem (JDict response) "core_mods") ;;
  is_awaiting_diff <- lift (Py.getitem core_mods "is_awaiting_diff") ;;
  colored <- lift (color_bool is_awaiting_diff true) ;;
  log (Lit "    Is Awaiting Diff? " :: colored) (JInt DEBUG) ;;
  app_info <- lift (Py.getitem (JDict response) "app_info") ;;
  obb_present <- lift (Py.getitem app_info "obb_present") ;;
  if negb (Py.truthy obb_present)
  then log [Lit "    OBB file not detected! BeatSaber may not start!"] (JInt WARN)
  else ret tt.

Definition handle_ModStatus (response : pydict) : M unit :=
  mod_status_head response ;; mod_status_tail response.

Definition handle_Mods (response : pydict) : M unit :=
  setattr "mods" (JDict response) ;;
  log_info [Lit (ESC ++ "[1mMods" ++ ESC ++ "[0m")] ;;
  log_installed_mods (JDict response).

Definition handle_ModSyncResult (response : pydict) : M unit :=
  setattr "mod_sync_result" (JDict response) ;;
  log_info [Lit (ESC ++ "[1mMod Sync Result" ++ ESC ++ "[0m")] ;;
  log_installed_mods (JDict response) ;;
  failures <- lift (Py.getitem (JDict response) "failures") ;;
  if negb (Py.truthy failures) then ret tt
  else log [Lit ("  " ++ ESC ++ "[1;31mFailures" ++ ESC ++ "[0m: "); Str failures]
           (JInt ERROR).

Definition handle_Patched (response : pydict) : M unit :=
  setattr "patched" (JDict response) ;;
  log_info [Lit (ESC ++ "[1mPatched" ++ ESC ++ "[0m")] ;;
  log_installed_mods (JDict response) ;;
  did_remove_dlc <- lift (Py.getitem (JDict response) "did_remove_dlc") ;;
  if Py.truthy did_remove_dlc
  then log [Lit "  MBF (temporarily) deleted installed DLC while downgrading your game. To get them back, FIRST restart your headset, THEN download the DLC in-game"]
           (JInt WARN)
  else ret tt.

(** The four locals of the [ImportResult] branch after its [if]/[elif]
    chain: [import_type], [installed_mods], [copied_to], [imported_id]
    ([JNull] for [None]). *)
Definition import_locals (result : json) : exn + (piece * json * json * json) :=
  match Py.getitem result "type" with
  | inl e => inl e
  | inr import_type =>
      if Py.eq_str import_type "ImportedMod" then
        match Py.getitem result "installed_mods" with
        | inl e => inl e
        | inr installed_mods =>
            match Py.getitem result "imported_id" with
            | inl e => inl e
            | inr imported_id =>
                inr (Lit (ESC ++ "[36mMod"), installed_mods, JNull, imported_id)
            end
        end
      else if Py.eq_str import_type "ImportedFileCopy" then
        match Py.getitem result "copied_to" with
        | inl e => inl e
        | inr copied_to =>
            match Py.getitem result "mod_id" with
            | inl e => inl e
            | inr imported_id =>
                inr (Lit (ESC ++ "[35mFile Copy"), JNull, copied_to, imported_id)
            end
        end
      else if Py.eq_str import_type "ImportedSong" then
        inr (Lit (ESC ++ "[93mSong"), JNull, JNull, JNull)
      else if Py.eq_str import_type "NonQuestModDetected" then
        inr (Lit (ESC ++ "[31mNON-QUEST MOD"), JNull, JNull, JNull)
      else inr (Str import_type, JNull, JNull, JNull)
  end.

Definition handle_ImportResult (response : pydict) : M unit :=
  setattr "import_result" (JDict response) ;;
  log_info [Lit (ESC ++ "[1mImport Result" ++ ESC ++ "[0m")] ;;
  result <- lift (Py.getitem (JDict response) "result") ;;
  locals <- lift (import_locals result) ;;
  let '(import_type, installed_mods, copied_to, imported_id) := locals in
  log_info [Lit ("  " ++ ESC ++ "[1;96mType" ++ ESC ++ "[0m: "); import_type;
            Lit (ESC ++ "[0m")] ;;
  (if Py.truthy installed_mods then
     log_info [Lit ("  " ++ ESC ++ "[1;32mInstalled Mods" ++ ESC ++ "[0m")] ;;
     for_in installed_mods log_mod
   else ret tt) ;;
  (if Py.truthy copied_to then
     log [Lit ("  " ++ ESC ++ "[90mCopied To" ++ ESC ++ "[0m: "); Str copied_to]
         (JInt DEBUG)
   else ret tt) ;;
  (if Py.truthy imported_id then
     log_info [Lit ("  " ++ ESC ++ "[1;34mID" ++ ESC ++ "[0m: "); Str imported_id]
   else ret tt).

Definition handle_FixedPlayerData (response : pydict) : M unit :=
  setattr "fixed_player_data" (JDict response) ;;
  log_info [Lit (ESC ++ "[1mFixed Player Data" ++ ESC ++ "[0m")] ;;
  existed <- lift (Py.getitem (JDict response) "existed") ;;
  colored <- lift (color_bool existed false) ;;
  log_info (Lit ("  " ++ ESC ++ "[1;95mExisted" ++ ESC ++ "[0m: ") :: colored).

Definition handle_DowngradedManifest (response : pydict) : M unit :=
  log_info [Lit (ESC ++ "[1mReceived Downgraded Manifest" ++ ESC ++ "[0m")] ;;
  manifest_xml <- lift (Py.getitem (JDict response) "manifest_xml") ;;
  setattr "downgraded_manifest" manifest_xml.

Definition handle_unknown (response_type : json) (response : pydict) : M unit :=
  log [Lit "Response type "; Str response_type; Lit " has not been implemented!"]
      (JInt ERROR) ;;
  log [Lit "Respone was "; Str (JDict response)] (JInt DEBUG).

(** [parse_response(response)]: [response['type']] is read and deleted,
    a [LogMsg] is logged at its own level, every other kind goes to its
    branch after a blank line. *)
Definition parse_response (response : json) : M unit :=
  response_type <- lift (Py.getitem response "type") ;;
  match response with
  | JDict d =>
      let response := Py.dict_del "type" d in
      if Py.eq_str response_type "LogMsg" then
        message <- lift (Py.getitem (JDict response) "message") ;;
        level <- lift (Py.getitem (JDict response) "level") ;;
        log [Str message] level
      else
        ll <- get_log_level ;;
        (if INFO <=? ll then print sys_stdout [] else ret tt) ;;
        if Py.eq_str response_type "ModStatus" then handle_ModStatus response
        else if Py.eq_str response_type "Mods" then handle_Mods response
        else if Py.eq_str response_type "ModSyncResult" then handle_ModSyncResult response
        else if Py.eq_str response_type "Patched" then handle_Patched response
        else if Py.eq_str response_type "ImportResult" then handle_ImportResult response
        else if Py.eq_str response_type "FixedPlayerData" then handle_FixedPlayerData response
        else if Py.eq_str response_type "DowngradedManifest"
        then handle_DowngradedManifest response
        else handle_unknown response_type response
  | _ => raise TypeError
  end.

(** ** [Wrapper.send_payload] *)

(** The two pipes the selector watches. *)
Inductive stream : Type := Stdout | Stderr.

(** A key [selector.select()] reports as ready, with the bytes
    [key.fileobj.read1()] then returns (none at end of file). *)
Definition ready : Type := stream * bytes.

(** The worker as the [Popen] object shows it: what was written to its
    stdin, which of the three pipes have been closed on the wrapper's
    side, and [returncode], [None] until the process has been waited for. *)
Record process : Type := mkProcess {
  stdin_written : text;
  stdin_closed : bool;
  stdout_closed : bool;
  stderr_closed : bool;
  returncode : option Z
}.

(** [subprocess.Popen([...], stdin=PIPE, stdout=PIPE, stderr=PIPE)] *)
Definition Popen : process :=
  {| stdin_written := []; stdin_closed := false; stdout_closed := false;
     stderr_closed := false; returncode := None |}.

(** [process.stdin.write(data)] *)
Definition stdin_write (p : process) (data : text) : process :=
  {| stdin_written := (stdin_written p ++ data)%list; stdin_closed := stdin_closed p;
     stdout_closed := stdout_closed p; stderr_closed := stderr_closed p;
     returncode := returncode p |}.

(** [process.stdin.close()] *)
Definition stdin_close (p : process) : process :=
  {| stdin_written := stdin_written p; stdin_closed := true;
     stdout_closed := stdout_closed p; stderr_closed := stderr_closed p;
     returncode := returncode p |}.

(** How a call of [send_payload] stands after the reads it was given:
    it has returned a value, an exception has left it, or it is inside
    [selector.select()] waiting for the next ready pipe, with its local
    [combined_stdout]. *)
Inductive outcome : Type :=
  | Returned (v : json)
  | Raised (e : exn)
  | Waiting (combined_stdout : bytes).

Section Session.

(** [bytes.decode('utf8')] ([None]: [UnicodeDecodeError]) and [json.loads]
    ([None]: [JSONDecodeError]). *)
Variable decode : bytes -> option str.
Variable loads : str -> option json.

(** The body of [for response in raw_output.splitlines()]: the line is
    added to [combined_stdout], which is decoded and parsed; a value goes
    to [parse_response] and the buffer is emptied; [JSONDecodeError] is
    passed over and the buffer kept. *)
Definition feed_line (combined_stdout response : bytes) : M bytes :=
  let combined_stdout := combined_stdout ++ response in
  match decode combined_stdout with
  | None => raise UnicodeDecodeError
  | Some s =>
      match loads s with
      | Some v => parse_response v ;; ret ""
      | None => ret combined_stdout
      end
  end.

Fixpoint feed_lines (combined_stdout : bytes) (lines : list bytes) : M bytes :=
  match lines with
  | [] => ret combined_stdout
  | response :: lines' =>
      combined_stdout <- feed_line combined_stdout response ;;
      feed_lines combined_stdout lines'
  end.

(** The body of [for key, _ in selector.select()]: [None] is the [return]
    on an empty read, [Some b] goes on with [combined_stdout = b]. *)
Definition on_ready (combined_stdout : bytes) (key : ready) : M (option bytes) :=
  let (fileobj, raw_output) := key in
  if is_empty raw_output then ret None
  else
    match fileobj with
    | Stdout =>
        combined_stdout <- feed_lines combined_stdout (splitlines raw_output) ;;
        ret (Some combined_stdout)
    | Stderr =>
        match decode raw_output with
        | None => raise UnicodeDecodeError
        | Some t => log [Lit t] (JInt ERROR) ;; ret (Some combined_stdout)
        end
    end.

Fixpoint for_keys (combined_stdout : bytes) (keys : list ready) : M (option bytes) :=
  match keys with
  | [] => ret (Some combined_stdout)
  | key :: keys' =>
      r <- on_ready combined_stdout key ;;
      match r with
      | None => ret None
      | Some combined_stdout => for_keys combined_stdout keys'
      end
  end.

(** [while True: for key, _ in selector.select(): ...] over the results of
    the successive calls of [select]. *)
Fixpoint read_loop (combined_stdout : bytes) (selects : list (list ready))
    (w : Wrapper) : Wrapper * outcome :=
  match selects with
  | [] => (w, Waiting combined_stdout)
  | keys :: selects' =>
      match for_keys combined_stdout keys w with
      | (w', inl e) => (w', Raised e)
      | (w', inr None) => (w', Returned JNull)
      | (w', inr (Some combined_stdout)) => read_loop combined_stdout selects' w'
      end
  end.

(** [send_payload(payload_type, **kwargs)]: the payload is logged at
    TRACE (the text of [json.dumps] is ASCII and the level an int: the
    call does not raise), the worker is
    started, the payload written to its stdin and stdin closed, then the
    read loop runs from an empty [combined_stdout].  Nothing follows the
    loop: no wait for the worker, no close of its two output pipes. *)
Definition send_payload (payload_type : str) (kwargs : pydict)
    (selects : list (list ready)) (w : Wrapper) : Wrapper * process * outcome :=
  let payload := JDict (Py.dict_merge [("type", JStr payload_type)] kwargs) in
  let w := fst (log [Dumps payload] (JInt TRACE) w) in
  let process := Popen in
  let process := stdin_write process [Dumps payload] in
  let process := stdin_close process in
  let (w, o) := read_loop "" selects w in
  (w, process, o).

End Session.

(** The session with the decoders of the Python library. *)
Definition run (payload_type : str) (kwargs : pydict) (selects : list (list ready))
    (w : Wrapper) : Wrapper * process * outcome :=
  send_payload Utf8.decode Json.loads payload_type kwargs selects w.

(** The bytes of a list of lines put end to end. *)
Fixpoint join (lines : list bytes) : bytes :=
  match lines with
  | [] => ""
  | l :: lines' => l ++ join lines'
  end.

(** The ready keys of successive [select] calls, in the order the loop
    reads them. *)
Definition keys_of (selects : list (list ready)) : list ready := List.concat selects.

(** A key whose read returns no byte. *)
Definition is_eof (key : ready) : bool := is_empty (snd key).

(** What [log(t, level=ERROR)] prints for each text of [texts] under the
    log level [ll]. *)
Definition error_lines (ll : Z) (texts : list str) : list (file * text) :=
  if ERROR <=? ll then
    flat_map (fun t => [(sys_stderr, [Lit ERROR_PREFIX]); (sys_stderr, [Lit t; Lit NL])])
             texts
  else [].

(** [w] after [events] have been printed. *)
Definition with_printed (w : Wrapper) (events : list (file * text)) : Wrapper :=
  {| log_level := log_level w; attrs := attrs w;
     printed := (printed w ++ events)%list |}.

(** Every chunk of the list is decoded to the text at the same place. *)
Fixpoint decoded_as (decode : bytes -> option str) (chunks : list bytes)
    (texts : list str) : bool :=
  match chunks, texts with
  | [], [] => true
  | c :: chunks', t :: texts' =>
      match decode c with
      | Some t' => String.eqb t' t && negb (is_empty c) && decoded_as decode chunks' texts'
      | None => false
      end
  | _, _ => false
  end.

(** [acc] and [acc] followed by each prefix of [lines] can be decoded. *)
Fixpoint decodable_along (decode : bytes -> option str) (acc : bytes)
    (lines : list bytes) : bool :=
  match decode acc with
  | None => false
  | Some _ =>
      match lines with
      | [] => true
      | l :: lines' => decodable_along decode (acc ++ l) lines'
      end
  end.

(** [acc] is content that no further bytes turn into a value: whatever
    bytes follow it, text they decode to is rejected by the parser with
    [JSONDecodeError]. *)
Definition never_valid (decode : bytes -> option str) (loads : str -> option json)
    (acc : bytes) : Prop :=
  forall suffix s, decode (acc ++ suffix) = Some s -> loads s = None.

(** The bytes are text that the parser rejects. *)
Definition rejected (decode : bytes -> option str) (loads : str -> option json)
    (b : bytes) : bool :=
  match decode b with
  | Some s => match loads s with None => true | Some _ => false end
  | None => false
  end.

(** The first [n] bytes of [s], and [s] without them. *)
Fixpoint take (n : nat) (s : bytes) : bytes :=
  match n, s with
  | S n', String c s' => String c (take n' s')
  | _, _ => ""
  end.

Fixpoint drop (n : nat) (s : bytes) : bytes :=
  match n, s with
  | S n', String _ s' => drop n' s'
  | _, _ => s
  end.

(** The stderr chunk is printed as an ERROR line and the loop goes on. *)
Definition surfaced (chunk : bytes) (w : Wrapper) : Prop :=
  exists w' acc,
    on_ready Utf8.decode Json.loads "" (Stderr, chunk) w = (w', inr (Some acc))
    /\ printed w' =
       (printed w ++ [(sys_stderr, [Lit ERROR_PREFIX]); (sys_stderr, [Lit chunk; Lit NL])])%list.

(** The attribute of the wrapper in which [parse_response] keeps a
    response of the given type. *)
Definition attribute_of (response_type : str) : option str :=
  if String.eqb response_type "ModStatus" then Some "mod_status"
  else if String.eqb response_type "Mods" then Some "mods"
  else if String.eqb response_type "ModSyncResult" then Some "mod_sync_result"
  else if String.eqb response_type "Patched" then Some "patched"
  else if String.eqb response_type "ImportResult" then Some "import_result"
  else if String.eqb response_type "FixedPlayerData" then Some "fixed_player_data"
  else None.

(** [c] changes neither the attributes nor the log level of the wrapper. *)
Definition keeps {A} (c : M A) : Prop :=
  forall w, attrs (fst (c w)) = attrs w /\ log_level (fst (c w)) = log_level w.

(** The call ended with an exception. *)
Definition failed (o : outcome) : Prop := exists e, o = Raised e.





(** ** Sample messages and sessions *)

Module Samples.

(** [{"k1":v1,...}] from the already serialized values. *)
Fixpoint fields (kvs : list (str * str)) : str :=
  match kvs with
  | [] => ""
  | [(k, v)] => quoted k ++ ":" ++ v
  | (k, v) :: kvs' => quoted k ++ ":" ++ v ++ "," ++ fields kvs'
  end.

Definition object (kvs : list (str * str)) : str := "{" ++ fields kvs ++ "}".

Definition log_hi : bytes :=
  object [("type", quoted "LogMsg"); ("level", quoted "info"); ("message", quoted "hi")].

Definition log_bye : bytes :=
  object [("type", quoted "LogMsg"); ("level", quoted "info"); ("message", quoted "bye")].

Definition fixed_player_data : bytes :=
  object [("type", quoted "FixedPlayerData"); ("existed", "true")].

(** The two messages of the scenario of the specification, as it writes them. *)
Definition spec_log : bytes :=
  object [("kind", quoted "Log"); ("level", quoted "info"); ("text", quoted "hi")].

Definition spec_pong : bytes := object [("kind", quoted "Pong"); ("ok", "true")].

Definition app_info : str :=
  object [("loader_installed", "true"); ("obb_present", "true");
          ("version", quoted "1.37.0"); ("manifest_xml", quoted "<manifest/>")].

Definition core_mods : str :=
  object [("core_mod_install_status", quoted "Ready"); ("supported_versions", "[]");
          ("downgrade_versions", "[]"); ("is_awaiting_diff", "false")].

(** A [ModStatus] without and with the key [core_mods]. *)
Definition mod_status_no_core : bytes :=
  object [("type", quoted "ModStatus"); ("app_info", app_info); ("installed_mods", "[]")].

Definition mod_status_full : bytes :=
  object [("type", quoted "ModStatus"); ("app_info", app_info); ("installed_mods", "[]");
          ("core_mods", core_mods)].

(** The dict a serialized object is decoded to. *)
Definition dict_of (b : bytes) : pydict :=
  match Json.loads b with Some (JDict d) => d | _ => [] end.

(** A log message whose text has a two byte character (e with an acute
    accent, bytes 195 and 169), cut between the two bytes. *)
Definition accent_head : bytes :=
  "{" ++ quoted "type" ++ ":" ++ quoted "LogMsg" ++ "," ++ quoted "level" ++ ":"
      ++ quoted "info" ++ "," ++ quoted "message" ++ ":" ++ DQ ++ "caf" ++ String "195" "".

Definition accent_tail : bytes := String "169" "" ++ DQ ++ "}".

(** The payload the scenario expects: the [Pong] message without its kind. *)
Definition pong_payload : json := JDict [("ok", JBool true)].

(** Every way of reading [b] in two chunks, the second followed by the end
    of stdout. *)
Definition two_reads (b : bytes) : list (list (list ready)) :=
  map (fun i => [[(Stdout, take i b)]; [(Stdout, drop i b)]; [(Stdout, "")]])
      (seq 1 (String.length b - 1)).

(** The wrapper after [-qqq]: log level -1. *)
Definition quiet : Wrapper := init 0 3.

(** The wrapper with neither [-v] nor [-q]: log level INFO. *)
Definition default : Wrapper := init 0 0.

End Samples.

From Stdlib Require Import Permutation Sorted.

(** ** What a call of [log] writes *)

(** The file a line at the int level [z] goes to: [sys.stderr] at ERROR,
    [sys.stdout] at every other level. *)
Definition level_file (z : Z) : file :=
  if z =? ERROR then sys_stderr else sys_stdout.

(** The prefix printed before a line at the int level [z]: the five
    levels have one, any other int has none. *)
Definition level_prefix (z : Z) : option str :=
  if z =? TRACE then Some TRACE_PREFIX
  else if z =? DEBUG then Some DEBUG_PREFIX
  else if z =? INFO then Some INFO_PREFIX
  else if z =? WARN then Some WARN_PREFIX
  else if z =? ERROR then Some ERROR_PREFIX
  else None.

(** The two [print] calls (one for a level without prefix) of a line that
    is not filtered out. *)
Definition log_events (t : text) (z : Z) : list (file * text) :=
  (match level_prefix z with
   | Some p => [(level_file z, [Lit p])]
   | None => []
   end ++ [(level_file z, t ++ [Lit NL])])%list.

(** A piece [print] can encode for a UTF-8 stream.  A [str] from the
    decoder may hold a lone surrogate (kept in its three byte form, which
    is not well-formed UTF-8), and a strict stream refuses it; [str()] of
    any other value and [json.dumps] give it escaped. *)
Definition piece_encodable (p : piece) : bool :=
  match p with
  | Lit s | Str (JStr s) =>
      match Utf8.decode s with Some _ => true | None => false end
  | _ => true
  end.

Definition encodable (t : text) : bool := forallb piece_encodable t.

(** What [log] writes at the int level [z] can be written: nothing is
    printed (the level is above the log level), or the line goes to
    [sys.stderr], which replaces what it cannot encode, or the text can be
    encoded for [sys.stdout]. *)
Definition writable (t : text) (z : Z) (w : Wrapper) : bool :=
  (log_level w <? z) || (z =? ERROR) || encodable t.

(** Every byte of the [str] is ASCII. *)
Fixpoint ascii_only (s : str) : bool :=
  match s with
  | EmptyString => true
  | String c r => Utf8.byte_in 0 127 c && ascii_only r
  end.

(** [c] does not change the log level of the wrapper. *)
Definition keeps_level {A} (c : M A) : Prop :=
  forall w, log_level (fst (c w)) = log_level w.

(** [c] changes no attribute of the wrapper but, at most, [name]. *)
Definition touches_only {A} (name : str) (c : M A) : Prop :=
  forall w k, k <> name ->
    Py.dict_get k (attrs (fst (c w))) = Py.dict_get k (attrs w).

(** The attribute [parse_response] writes for a response of the given
    type: the six kinds that are kept whole, and [downgraded_manifest]. *)
Definition written_attribute (response_type : json) : option str :=
  match response_type with
  | JStr ty =>
      if String.eqb ty "DowngradedManifest" then Some "downgraded_manifest"
      else attribute_of ty
  | _ => None
  end.

(** The response type is one [parse_response] has a branch for. *)
Definition known_type (response_type : json) : bool :=
  Py.eq_str response_type "LogMsg"
  || Py.eq_str response_type "ModStatus"
  || Py.eq_str response_type "Mods"
  || Py.eq_str response_type "ModSyncResult"
  || Py.eq_str response_type "Patched"
  || Py.eq_str response_type "ImportResult"
  || Py.eq_str response_type "FixedPlayerData"
  || Py.eq_str response_type "DowngradedManifest".

(** What [parse_response] prints for a response of a type it has no
    branch for, under the log level [ll]: the blank line, the ERROR line
    and the DEBUG line, each when the level lets it through. *)
Definition unknown_type_events (ll : Z) (response_type : json) (response : pydict)
  : list (file * text) :=
  ((if INFO <=? ll then [(sys_stdout, [Lit NL])] else [])
   ++ (if ERROR <=? ll
       then log_events [Lit "Response type "; Str response_type;
                        Lit " has not been implemented!"] ERROR
       else [])
   ++ (if DEBUG <=? ll
       then log_events [Lit "Respone was "; Str (JDict response)] DEBUG
       else []))%list.

(** Two wrappers with the same log level and the same attributes: they
    differ at most in what has been printed. *)
Definition same_object (w1 w2 : Wrapper) : Prop :=
  log_level w1 = log_level w2 /\ attrs w1 = attrs w2.

(** [c] does not look at what has been printed: from wrappers that are the
    same object it gives the same result and wrappers that are the same
    object. *)
Definition blind {A} (c : M A) : Prop :=
  forall w1 w2, same_object w1 w2 ->
    same_object (fst (c w1)) (fst (c w2)) /\ snd (c w1) = snd (c w2).

(** A ready key of stderr that holds bytes. *)
Definition is_diagnostic (key : ready) : bool :=
  match key with
  | (Stderr, chunk) => negb (is_empty chunk)
  | (Stdout, _) => false
  end.

(** The keys without the stderr chunks. *)
Definition without_diagnostics (keys : list ready) : list ready :=
  filter (fun key => negb (is_diagnostic key)) keys.

(** Every stderr chunk among the keys is text. *)
Definition diagnostics_decode (decode : bytes -> option str) (keys : list ready) : bool :=
  forallb (fun key => if is_diagnostic key
                      then match decode (snd key) with Some _ => true | None => false end
                      else true) keys.

(** Every byte of [s] is LF or CR. *)
Fixpoint only_linebreaks (s : bytes) : bool :=
  match s with
  | EmptyString => true
  | String c rest => (Ascii.eqb c LF || Ascii.eqb c CR) && only_linebreaks rest
  end.

Definition CRLF : str := String CR (String LF "").

(** Sample wrappers and responses for the statements about
    [parse_response]. *)
Module Cases.

(** The wrapper once a full [ModStatus] has been handled. *)
Definition with_mod_status : Wrapper :=
  fst (parse_response (JDict (Samples.dict_of Samples.mod_status_full)) Samples.default).

(** A response of a type the wrapper has no branch for. *)
Definition progress : pydict :=
  [("type", JStr "Progress"); ("percent", JInt 40)].

End Cases.

Definition CR_only : str := String CR "".

(** ** The commands

    The methods of [Wrapper] that the sub-commands call: each builds a
    payload from the parsed arguments and runs sessions with it. *)

(** The exceptions that leave a command: one that left a session or a
    subscript ([KeyError], [TypeError], [UnicodeDecodeError]),
    [AttributeError(name)] for an attribute that is not there, and
    [IndexError]. *)
Inductive error : Type :=
  | Propagated (e : exn)
  | AttributeError (name : str)
  | IndexError.

(** The [argparse.Namespace] a command gets: attribute names and values
    (the attribute [func], the method to call, is left out). *)
Definition namespace : Type := pydict.

(** The wrapper, what the worker of each session still to come will put
    on its pipes (one list of [select] results per [Popen], in order; a
    worker without an entry never writes), and the workers started so far. *)
Record world : Type := mkWorld {
  self : Wrapper;
  workers : list (list (list ready));
  spawned : list process
}.

(** How a command stands: done with a value, left by an exception, or
    inside a session that is waiting for its worker. *)
Inductive result (A : Type) : Type :=
  | Done (a : A)
  | Failed (e : error)
  | Blocked.

Arguments Done {A} a.
Arguments Failed {A} e.
Arguments Blocked {A}.

Definition Cmd (A : Type) : Type := world -> world * result A.

Definition cmd_ret {A} (a : A) : Cmd A := fun wd => (wd, Done a).

Definition cmd_fail {A} (e : error) : Cmd A := fun wd => (wd, Failed e).

Definition cmd_bind {A B} (c : Cmd A) (k : A -> Cmd B) : Cmd B :=
  fun wd =>
    match c wd with
    | (wd', Done a) => k a wd'
    | (wd', Failed e) => (wd', Failed e)
    | (wd', Blocked) => (wd', Blocked)
    end.

Notation "x <~ c ;; k" := (cmd_bind c (fun x => k))
  (at level 61, c at next level, right associativity).

(** A subscript or other step that raises one of the session's exceptions. *)
Definition cmd_lift {A} (r : exn + A) : Cmd A :=
  match r with inl e => cmd_fail (Propagated e) | inr a => cmd_ret a end.

(** [args.name] *)
Definition getattr (args : namespace) (name : str) : Cmd json :=
  match Py.dict_get name args with
  | Some v => cmd_ret v
  | None => cmd_fail (AttributeError name)
  end.

(** [hasattr(self, name)] *)
Definition self_hasattr (name : str) : Cmd bool :=
  fun wd => (wd, Done (Py.dict_mem name (attrs (self wd)))).

(** [self.name] *)
Definition self_getattr (name : str) : Cmd json :=
  fun wd =>
    match Py.dict_get name (attrs (self wd)) with
    | Some v => (wd, Done v)
    | None => (wd, Failed (AttributeError name))
    end.

(** [self.name = v] *)
Definition self_setattr (name : str) (v : json) : Cmd unit :=
  fun wd =>
    ({| self := fst (setattr name v (self wd)); workers := workers wd;
        spawned := spawned wd |}, Done tt).

(** *** Sorting the supported versions *)

(** [version.replace('_', '.')] *)
Fixpoint replace_underscores (s : str) : str :=
  match s with
  | EmptyString => EmptyString
  | String c r => String (if (c =? "_")%char then "."%char else c) (replace_underscores r)
  end.

(** [s.split('.')]: the pieces between the dots, empty ones included. *)
Fixpoint split_dots_from (piece : str) (s : str) : list str :=
  match s with
  | EmptyString => [piece]
  | String c r =>
      if (c =? ".")%char then piece :: split_dots_from "" r
      else split_dots_from (snoc piece c) r
  end.

Definition split_dots (s : str) : list str := split_dots_from "" s.

(** The sort key [lambda version: version.replace('_', '.').split('.')]. *)
Definition version_key (version : str) : list str :=
  split_dots (replace_underscores version).

(** The order of two lists: the first place where they differ decides, a
    proper prefix comes first. *)
Fixpoint list_compare {A} (cmp : A -> A -> comparison) (a b : list A) : comparison :=
  match a, b with
  | [], [] => Eq
  | [], _ :: _ => Lt
  | _ :: _, [] => Gt
  | x :: a', y :: b' =>
      match cmp x y with
      | Eq => list_compare cmp a' b'
      | c => c
      end
  end.

(** [key(u) < key(v)]: lists of [str] compared piece by piece, each piece
    as a string (character by character, not as a number). *)
Definition key_lt (u v : str) : bool :=
  match list_compare String.compare (version_key u) (version_key v) with
  | Lt => true
  | _ => false
  end.

(** [u] is not above [v] in the order of the keys. *)
Definition key_le (u v : str) : Prop := key_lt v u = false.

(** [x] put into a sorted list after the items that are not above it. *)
Fixpoint insert_version (x : str) (l : list str) : list str :=
  match l with
  | [] => [x]
  | y :: l' => if key_lt x y then x :: y :: l' else y :: insert_version x l'
  end.

(** [l.sort(key=...)]: the stable sort by the key. *)
Definition sort_versions (l : list str) : list str :=
  fold_left (fun sorted x => insert_version x sorted) l [].

(** The strings of a list of [str] values; [None] when an item is not a
    [str] (it has no [replace]). *)
Fixpoint strings_of (l : list json) : option (list str) :=
  match l with
  | [] => Some []
  | JStr s :: l' => option_map (cons s) (strings_of l')
  | _ :: _ => None
  end.

Section Commands.

Variable decode : bytes -> option str.
Variable loads : str -> option json.

(** [self.send_payload(payload_type, **kwargs)] with the next worker. *)
Definition session (payload_type : str) (kwargs : pydict) : Cmd unit :=
  fun wd =>
    let '(w, p, o) :=
      send_payload decode loads payload_type kwargs (hd [] (workers wd)) (self wd) in
    ({| self := w; workers := tl (workers wd); spawned := (spawned wd ++ [p])%list |},
     match o with
     | Returned _ => Done tt
     | Raised e => Failed (Propagated e)
     | Waiting _ => Blocked
     end).

Definition get_mod_status (args : namespace) : Cmd unit :=
  override_core_mod_url <~ getattr args "override_core_mod_url" ;;
  session "GetModStatus" [("override_core_mod_url", override_core_mod_url)].

Definition remove_mod (args : namespace) : Cmd unit :=
  mod_id <~ getattr args "mod_id" ;;
  session "RemoveMod" [("id", mod_id)].

Definition fix_player_data (args : namespace) : Cmd unit :=
  session "FixPlayerData" [].

Definition quick_fix (args : namespace) : Cmd unit :=
  override_core_mod_url <~ getattr args "override_core_mod_url" ;;
  wipe_existing_mods <~ getattr args "wipe_existing_mods" ;;
  session "QuickFix" [("override_core_mod_url", override_core_mod_url);
                      ("wipe_existing_mods", wipe_existing_mods)].

(** The [statuses] dict of [set_mod_statuses]: [True] for each mod of
    [enable], then [False] for each mod of [disable] ([None] when the
    option was not given). *)
Definition statuses_of (enable disable : option (list str)) : pydict :=
  let set (b : bool) (d : pydict) (mods : option (list str)) :=
    match mods with
    | Some l => fold_left (fun d m => Py.dict_set m (JBool b) d) l d
    | None => d
    end in
  set false (set true [] enable) disable.

(** [set_mod_statuses(args)] for the lists of ids the parser gives for
    [-e] and [-d]. *)
Definition set_mod_statuses (enable disable : option (list str)) : Cmd unit :=
  session "SetModsEnabled" [("statuses", JDict (statuses_of enable disable))].

(** [supported_versions.sort(key=...)] on the list inside
    [self.mod_status], in place, and [supported_versions[-1]]. *)
Definition sort_supported_versions : Cmd json :=
  mod_status <~ self_getattr "mod_status" ;;
  core_mods <~ cmd_lift (Py.getitem mod_status "core_mods") ;;
  supported_versions <~ cmd_lift (Py.getitem core_mods "supported_versions") ;;
  match supported_versions with
  | JList l =>
      match strings_of l with
      | None => cmd_fail (AttributeError "replace")
      | Some versions =>
          let sorted := sort_versions versions in
          match mod_status, core_mods with
          | JDict ms, JDict cm =>
              let cm' := Py.dict_set "supported_versions" (JList (map JStr sorted)) cm in
              _ <~ self_setattr "mod_status" (JDict (Py.dict_set "core_mods" (JDict cm') ms)) ;;
              match sorted with
              | [] => cmd_fail IndexError
              | v :: rest => cmd_ret (JStr (last rest v))
              end
          | _, _ => cmd_fail (Propagated TypeError)
          end
      end
  | _ => cmd_fail (AttributeError "sort")
  end.

(** [auto_game_version(args)]: the arguments afterwards. *)
Definition auto_game_version (args : namespace) : Cmd namespace :=
  has <~ self_hasattr "mod_status" ;;
  _ <~ (if has then cmd_ret tt else get_mod_status args) ;;
  game_version <~ getattr args "game_version" ;;
  if Py.eq_str game_version "auto" then
    latest <~ sort_supported_versions ;;
    cmd_ret (Py.dict_set "game_version" latest args)
  else cmd_ret args.

(** [get_downgraded_manifest(args)] *)
Definition get_downgraded_manifest (args : namespace) : Cmd namespace :=
  args <~ auto_game_version args ;;
  game_version <~ getattr args "game_version" ;;
  _ <~ session "GetDowngradedManifest" [("version", game_version)] ;;
  downgraded_manifest <~ self_getattr "downgraded_manifest" ;;
  _ <~ self_setattr "manifest_mod" downgraded_manifest ;;
  cmd_ret args.

End Commands.

(** The world once [supported_versions] inside [self.mod_status] has been
    replaced by [versions]. *)
Definition with_supported_versions (wd : world) (ms cm : pydict) (versions : list str)
  : world :=
  let cm' := Py.dict_set "supported_versions" (JList (map JStr versions)) cm in
  {| self := fst (setattr "mod_status" (JDict (Py.dict_set "core_mods" (JDict cm') ms))
                    (self wd));
     workers := workers wd; spawned := spawned wd |}.

(** *** The namespaces of the sub-commands

    What [parse_args] gives for a sub-command, from the [add_argument]
    calls of [initialize_parsers]: the two counters of the main parser,
    [command], and the options of the sub-parser with their defaults. *)

Definition common_namespace (verbosity quiteness : nat) (command : str) : namespace :=
  [("verbosity", JInt (Z.of_nat verbosity)); ("quiteness", JInt (Z.of_nat quiteness));
   ("command", JStr command)].

Definition optional_str (o : option str) : json :=
  match o with Some s => JStr s | None => JNull end.

(** [GetModStatus [-o URL]] *)
Definition GetModStatus_namespace (verbosity quiteness : nat) (o : option str) : namespace :=
  (common_namespace verbosity quiteness "GetModStatus"
   ++ [("override_core_mod_url", optional_str o)])%list.

(** [GetDowngradeManifest [-g VERSION]], [auto] by default. *)
Definition GetDowngradeManifest_namespace (verbosity quiteness : nat) (g : option str)
  : namespace :=
  (common_namespace verbosity quiteness "GetDowngradeManifest"
   ++ [("game_version", JStr (match g with Some v => v | None => "auto" end))])%list.

(** Sample worlds for the statements about the commands. *)
Module Worlds.

(** A [ModStatus] whose core mods support three versions. *)
Definition mod_status_three : bytes :=
  Samples.object
    [("type", quoted "ModStatus"); ("app_info", Samples.app_info); ("installed_mods", "[]");
     ("core_mods",
      Samples.object
        [("core_mod_install_status", quoted "Ready");
         ("supported_versions",
          "[" ++ quoted "1.37.0_9064817954" ++ "," ++ quoted "1.9.0" ++ ","
              ++ quoted "1.28.0_4124311467" ++ "]");
         ("downgrade_versions", "[]"); ("is_awaiting_diff", "false")])].

(** The wrapper once that [ModStatus] has been handled, with no worker
    to come. *)
Definition after_mod_status : world :=
  {| self := fst (parse_response (JDict (Samples.dict_of mod_status_three)) Samples.default);
     workers := []; spawned := [] |}.

(** The world [main] starts a command in: a new wrapper, and the workers
    to come. *)
Definition fresh (verbosity quiteness : nat) (workers : list (list (list ready))) : world :=
  {| self := init verbosity quiteness; workers := workers; spawned := [] |}.

(** A [DowngradedManifest] message. *)
Definition downgraded_manifest : bytes :=
  Samples.object [("type", quoted "DowngradedManifest"); ("manifest_xml", quoted "<manifest/>")].

(** [after_mod_status] with one worker to come, which sends the manifest
    and closes, and with one that closes at once. *)
Definition manifest_to_come : world :=
  {| self := self after_mod_status;
     workers := [[[(Stdout, downgraded_manifest ++ NL)]; [(Stdout, "")]]];
     spawned := [] |}.

Definition silent_worker_to_come : world :=
  {| self := self after_mod_status; workers := [[[(Stdout, "")]]]; spawned := [] |}.

End Worlds.

(** The ids of an option that may not have been given. *)
Definition given (mods : option (list str)) : list str :=
  match mods with Some l => l | None => [] end.

(** What [combined_stdout] holds between two reads: no line end, and
    either nothing or text that the parser has rejected. *)
Definition pending (decode : bytes -> option str) (loads : str -> option json)
    (acc : bytes) : Prop :=
  no_linebreak acc = true /\ (acc = "" \/ rejected decode loads acc = true).


(** * Properties *)

(** ** The decoders on a few inputs *)

Example splitlines_mixed_ends :
  splitlines ("a" ++ String CR (String LF (String LF ("b" ++ String CR "")))) = ["a"; ""; "b"].
Proof. reflexivity. Qed.

Example splitlines_lone_lf : splitlines NL = [""].
Proof. reflexivity. Qed.

Example loads_log_hi :
  Json.loads Samples.log_hi =
  Some (JDict [("type", JStr "LogMsg"); ("level", JStr "info"); ("message", JStr "hi")]).
Proof. reflexivity. Qed.

Example loads_duplicate_key :
  Json.loads (Samples.object [("a", "1"); ("b", "[2.5e3, -0, null]"); ("a", "true")]) =
  Some (JDict [("a", JBool true);
               ("b", JList [JFloat (Finite 25 2); JInt 0; JNull])]).
Proof. reflexivity. Qed.

Example loads_rejects :
  map Json.loads ["";  "}"; "{}{}"; "[1,]"; "01"; "nul"; "-"; Samples.object [("a", "1,")]]
  = [None; None; None; None; None; None; None; None].
Proof. reflexivity. Qed.

Example decode_cut_character :
  Utf8.decode (String "195" "") = None
  /\ Utf8.decode (String "195" (String "169" "")) = Some (String "195" (String "169" "")).
Proof. split; reflexivity. Qed.

(** Every proper prefix of the sample result message is rejected by the
    parser. *)
Example prefixes_of_message_rejected :
  forallb (fun i => rejected Utf8.decode Json.loads (take i Samples.fixed_player_data))
          (seq 1 (String.length Samples.fixed_player_data - 1)) = true.
Proof. vm_compute. reflexivity. Qed.

(** ** Byte strings and lines *)

Lemma str_app_nil_r (s : string) : s ++ "" = s.
Proof. induction s as [|c s IH]; simpl; [reflexivity | now rewrite IH]. Qed.

Lemma str_app_assoc (a b c : string) : (a ++ b) ++ c = a ++ (b ++ c).
Proof. induction a as [|x a IH]; simpl; [reflexivity | now rewrite IH]. Qed.

Lemma snoc_app (line : string) (c : ascii) (s : string) :
  snoc line c ++ s = line ++ String c s.
Proof. unfold snoc. now rewrite str_app_assoc. Qed.

Lemma no_linebreak_cons (c : ascii) (s : bytes) :
  no_linebreak (String c s) = true ->
  Ascii.eqb c LF = false /\ Ascii.eqb c CR = false /\ no_linebreak s = true.
Proof.
  simpl. intros H.
  apply andb_true_iff in H as [H Hs]. apply andb_true_iff in H as [Hlf Hcr].
  apply negb_true_iff in Hlf, Hcr. auto.
Qed.

(** A chunk without a line end is one line, the chunk itself. *)
Lemma splitlines_from_no_linebreak (s line : bytes) :
  no_linebreak s = true ->
  splitlines_from line s = if is_empty (line ++ s) then [] else [line ++ s].
Proof.
  revert line. induction s as [|c s IH]; intros line H.
  - simpl. now rewrite str_app_nil_r.
  - apply no_linebreak_cons in H as (Hlf & Hcr & Hs).
    simpl. rewrite Hlf, Hcr, (IH _ Hs), snoc_app. reflexivity.
Qed.

Lemma splitlines_single (chunk : bytes) :
  no_linebreak chunk = true -> is_empty chunk = false ->
  splitlines chunk = [chunk].
Proof.
  intros H Hne. unfold splitlines.
  rewrite (splitlines_from_no_linebreak _ _ H). simpl. now rewrite Hne.
Qed.

(** A line followed by LF, then the rest of the chunk. *)
Lemma splitlines_from_lf (m line rest : bytes) :
  no_linebreak m = true ->
  splitlines_from line (m ++ String LF rest) = (line ++ m) :: splitlines_from "" rest.
Proof.
  revert line. induction m as [|c m IH]; intros line H.
  - simpl. now rewrite str_app_nil_r.
  - apply no_linebreak_cons in H as (Hlf & Hcr & Hm).
    simpl. rewrite Hlf, Hcr, (IH _ Hm), snoc_app. reflexivity.
Qed.

Lemma splitlines_lf (m rest : bytes) :
  no_linebreak m = true ->
  splitlines (m ++ String LF rest) = m :: splitlines rest.
Proof. intros H. unfold splitlines. now rewrite splitlines_from_lf. Qed.

(** ** The monad *)

Lemma bind_ok {A B} (c : M A) (k : A -> M B) (w w' : Wrapper) (a : A) :
  c w = (w', inr a) -> bind c k w = k a w'.
Proof. intros H. unfold bind. now rewrite H. Qed.

Lemma bind_raise {A B} (c : M A) (k : A -> M B) (w w' : Wrapper) (e : exn) :
  c w = (w', inl e) -> bind c k w = (w', inl e).
Proof. intros H. unfold bind. now rewrite H. Qed.

Lemma bind_assoc {A B C} (c : M A) (k : A -> M B) (k' : B -> M C) (w : Wrapper) :
  bind (bind c k) k' w = bind c (fun a => bind (k a) k') w.
Proof. unfold bind. destruct (c w) as [w1 [e|a]]; reflexivity. Qed.

Lemma bind_ext {A B} (c : M A) (k k' : A -> M B) (w : Wrapper) :
  (forall a w', k a w' = k' a w') -> bind c k w = bind c k' w.
Proof. intros H. unfold bind. destruct (c w) as [w1 [e|a]]; [reflexivity | apply H]. Qed.

(** ** The read loop *)

Section Loop.

Variable decode : bytes -> option str.
Variable loads : str -> option json.

Lemma for_keys_app (k1 k2 : list ready) (acc : bytes) (w : Wrapper) :
  for_keys decode loads acc (k1 ++ k2)%list w =
  match for_keys decode loads acc k1 w with
  | (w', inr (Some acc')) => for_keys decode loads acc' k2 w'
  | r => r
  end.
Proof.
  revert acc w. induction k1 as [|k k1 IH]; intros acc w; simpl.
  - reflexivity.
  - unfold bind.
    destruct (on_ready decode loads acc k w) as [w1 [e|[acc1|]]]; try reflexivity.
    apply IH.
Qed.

Lemma read_loop_app (pre post : list (list ready)) (acc : bytes) (w : Wrapper) :
  read_loop decode loads acc (pre ++ post)%list w =
  match read_loop decode loads acc pre w with
  | (w', Waiting acc') => read_loop decode loads acc' post w'
  | r => r
  end.
Proof.
  revert acc w. induction pre as [|keys pre IH]; intros acc w; simpl.
  - reflexivity.
  - destruct (for_keys decode loads acc keys w) as [w1 [e|[acc1|]]]; try reflexivity.
    apply IH.
Qed.

(** The loop over the [select] results is the loop over their keys in
    order. *)
Lemma read_loop_flat (selects : list (list ready)) (acc : bytes) (w : Wrapper) :
  read_loop decode loads acc selects w = read_loop decode loads acc [keys_of selects] w.
Proof.
  revert acc w. induction selects as [|keys selects IH]; intros acc w.
  - reflexivity.
  - unfold keys_of. simpl List.concat. simpl read_loop at 2. rewrite for_keys_app.
    simpl read_loop at 1.
    destruct (for_keys decode loads acc keys w) as [w1 [e|[acc1|]]]; try reflexivity.
    rewrite IH. reflexivity.
Qed.

(** At the first empty read the call returns, whatever the pipe and
    whatever would have come after it. *)
Lemma read_loop_eof (pre post : list (list ready)) (before after : list ready)
    (s : stream) (acc : bytes) (w : Wrapper) :
  read_loop decode loads acc (pre ++ (before ++ (s, "") :: after) :: post)%list w =
  match read_loop decode loads acc (pre ++ [before])%list w with
  | (w', Waiting _) => (w', Returned JNull)
  | r => r
  end.
Proof.
  rewrite !read_loop_app.
  destruct (read_loop decode loads acc pre w) as [w1 [v|e|acc1]]; try reflexivity.
  simpl. rewrite for_keys_app.
  destruct (for_keys decode loads acc1 before w1) as [w2 [e|[acc2|]]]; reflexivity.
Qed.

End Loop.

(** ** End of the session *)

(** C9: an empty read from stderr ends the session exactly as one from
    stdout does.  The loop returns at the first empty read from either
    pipe: the keys still pending in that [select] result and every later
    read are abandoned, and the outcome ([None] returned, unless an
    exception had already left the loop) is the same for both pipes. *)
Theorem empty_read_from_either_stream_returns
    (decode : bytes -> option str) (loads : str -> option json)
    (pre post : list (list ready)) (before after : list ready)
    (s : stream) (acc : bytes) (w : Wrapper) :
  read_loop decode loads acc (pre ++ (before ++ (s, "") :: after) :: post)%list w =
  match read_loop decode loads acc (pre ++ [before])%list w with
  | (w', Waiting _) => (w', Returned JNull)
  | r => r
  end
  /\ read_loop decode loads acc (pre ++ (before ++ (Stderr, "") :: after) :: post)%list w =
     read_loop decode loads acc (pre ++ [(before ++ [(Stdout, "")])%list])%list w.
Proof.
  split.
  - apply read_loop_eof.
  - rewrite (read_loop_eof decode loads pre post before after Stderr).
    rewrite (read_loop_eof decode loads pre [] before [] Stdout).
    reflexivity.
Qed.

(** stderr closes while a result message is ready on stdout in the same
    [select] result: the message is never read. *)
Example stderr_closes_first :
  run "FixPlayerData" []
      [[(Stderr, ""); (Stdout, Samples.fixed_player_data)]; [(Stdout, "")]]
      Samples.default
  = (Samples.default,
     stdin_close (stdin_write Popen [Dumps (JDict [("type", JStr "FixPlayerData")])]),
     Returned JNull).
Proof. reflexivity. Qed.

(** C3 (as the code behaves): when stdout closes, [send_payload] returns
    normally with [None]; no exception is raised for the closure and
    nothing is printed or recorded for it, whether or not a result message
    had been decoded.  A worker that closes stdout at once gives a normal
    return with only the TRACE line of the payload logged. *)
Theorem stdout_closure_returns_none
    (decode : bytes -> option str) (loads : str -> option json)
    (payload_type : str) (kwargs : pydict)
    (pre post : list (list ready)) (before after : list ready) (w : Wrapper) :
  let closed := (pre ++ (before ++ (Stdout, "") :: after) :: post)%list in
  let full := send_payload decode loads payload_type kwargs closed w in
  let upto := send_payload decode loads payload_type kwargs (pre ++ [before])%list w in
  let payload := JDict (Py.dict_merge [("type", JStr payload_type)] kwargs) in
  snd full = match snd upto with Waiting _ => Returned JNull | o => o end
  /\ fst full = fst upto
  /\ send_payload decode loads payload_type kwargs (((Stdout, "") :: after) :: post) w =
     (fst (log [Dumps payload] (JInt TRACE) w),
      stdin_close (stdin_write Popen [Dumps payload]), Returned JNull).
Proof.
  cbv zeta. unfold send_payload.
  rewrite read_loop_eof.
  destruct (read_loop decode loads "" (pre ++ [before])%list _) as [w1 [v|e|acc1]];
    repeat split; reflexivity.
Qed.

(** C3, the claim as stated fails: a worker that closes stdout at once
    gives no error but a normal return of [None]. *)
Lemma immediate_closure_is_not_an_error :
  let o := snd (run "GetModStatus" [] [[(Stdout, "")]] Samples.default) in
  ~ failed o /\ o = Returned JNull.
Proof.
  vm_compute. split; [intros [e H]; discriminate | reflexivity].
Qed.

(** ** [parse_response] on a [ModStatus] *)

Lemma dict_get_del_other (k k' : str) (d : pydict) :
  k <> k' -> Py.dict_get k (Py.dict_del k' d) = Py.dict_get k d.
Proof.
  intros Hne. induction d as [|[k0 v0] d IH]; simpl; [reflexivity|].
  destruct (String.eqb_spec k' k0) as [->|Hk'].
  - destruct (String.eqb_spec k k0) as [->|Hk]; [contradiction | reflexivity].
  - simpl. now rewrite IH.
Qed.

Lemma dict_mem_false (k : str) (d : pydict) :
  Py.dict_mem k d = false -> Py.dict_get k d = None.
Proof. unfold Py.dict_mem. destruct (Py.dict_get k d); [discriminate | reflexivity]. Qed.

(** The statements after the [core_mods] block start by reading
    [response["core_mods"]]. *)
Lemma mod_status_tail_without_core_mods (response : pydict) (w : Wrapper) :
  Py.dict_get "core_mods" response = None ->
  mod_status_tail response w = (w, inl (KeyError "core_mods")).
Proof.
  intros H. unfold mod_status_tail, bind, lift, Py.getitem. rewrite H. reflexivity.
Qed.

(** C8 (as the code behaves): a [ModStatus] response without the key
    [core_mods] makes [parse_response] raise.  The block under
    [if 'core_mods' in response] is skipped, and when the statements
    before it complete, the read of
    [response['core_mods']['is_awaiting_diff']] after the block raises
    [KeyError('core_mods')]; an exception raised by an earlier statement
    leaves the function instead.  In no case does the call return. *)
Theorem mod_status_without_core_mods_raises (d : pydict) (w : Wrapper) :
  Py.dict_get "type" d = Some (JStr "ModStatus") ->
  Py.dict_mem "core_mods" d = false ->
  let response := Py.dict_del "type" d in
  let w0 := if INFO <=? log_level w then fst (print sys_stdout [] w) else w in
  mod_status_core_mods response = ret tt
  /\ match mod_status_head response w0 with
     | (w1, inr _) => parse_response (JDict d) w = (w1, inl (KeyError "core_mods"))
     | (w1, inl e) => parse_response (JDict d) w = (w1, inl e)
     end
  /\ exists w' e, parse_response (JDict d) w = (w', inl e).
Proof.
  intros Htype Hmem response w0.
  assert (Hget : Py.dict_get "core_mods" response = None).
  { unfold response. rewrite dict_get_del_other by discriminate.
    now apply dict_mem_false. }
  assert (Hguard : Py.dict_mem "core_mods" response = false).
  { unfold Py.dict_mem. now rewrite Hget. }
  assert (Hparse : parse_response (JDict d) w =
                   bind (mod_status_head response) (fun _ => mod_status_tail response) w0).
  { unfold parse_response, bind at 1, lift at 1, Py.getitem at 1.
    rewrite Htype. simpl. unfold bind at 1, get_log_level at 1.
    unfold bind at 1. subst w0.
    destruct (INFO <=? log_level w); reflexivity. }
  assert (Hcases :
    match mod_status_head response w0 with
    | (w1, inr _) => parse_response (JDict d) w = (w1, inl (KeyError "core_mods"))
    | (w1, inl e) => parse_response (JDict d) w = (w1, inl e)
    end).
  { rewrite Hparse.
    destruct (mod_status_head response w0) as [w1 [e|[]]] eqn:Hhead.
    - now apply bind_raise.
    - rewrite (bind_ok _ _ _ _ _ Hhead).
      now apply mod_status_tail_without_core_mods. }
  split; [| split].
  - unfold mod_status_core_mods. now rewrite Hguard.
  - exact Hcases.
  - destruct (mod_status_head response w0) as [w1 [e|[]]]; eauto.
Qed.

(** A [ModStatus] with [app_info] and [installed_mods] but no [core_mods]:
    [KeyError('core_mods')]. *)
Lemma mod_status_without_core_mods_raises_witness :
  let d := Samples.dict_of Samples.mod_status_no_core in
  Py.dict_get "type" d = Some (JStr "ModStatus")
  /\ Py.dict_mem "core_mods" d = false
  /\ exists w', parse_response (JDict d) Samples.default = (w', inl (KeyError "core_mods")).
Proof.
  cbv zeta. split; [reflexivity | split; [reflexivity|]].
  destruct (mod_status_without_core_mods_raises
              (Samples.dict_of Samples.mod_status_no_core) Samples.default
              eq_refl eq_refl) as (_ & H & _).
  match type of H with match ?x with _ => _ end =>
    let r := eval vm_compute in x in change x with r in H
  end.
  eexists. exact H.
Defined.

(** C8, the claim as stated fails: not every [ModStatus] without
    [core_mods] gets as far as the read of [response['core_mods']].  One
    whose [installed_mods] is a number raises [TypeError] at the loop over
    the installed mods, which is no [KeyError], and one without
    [installed_mods] raises [KeyError('installed_mods')] there. *)
Lemma mod_status_raises_before_core_mods :
  let line := Samples.object [("type", quoted "ModStatus"); ("installed_mods", "5")] in
  let d := [("type", JStr "ModStatus"); ("installed_mods", JInt 5)] in
  let d' := [("type", JStr "ModStatus")] in
  Json.loads line = Some (JDict d)
  /\ Py.dict_mem "core_mods" d = false
  /\ Py.dict_mem "core_mods" d' = false
  /\ snd (parse_response (JDict d) Samples.default) = inl TypeError
  /\ snd (parse_response (JDict d') Samples.default) = inl (KeyError "installed_mods")
  /\ (forall w' k, parse_response (JDict d) Samples.default <> (w', inl (KeyError k))).
Proof.
  cbv zeta. do 5 (split; [vm_compute; reflexivity|]).
  intros w' k H.
  assert (Hs : snd (parse_response
                      (JDict [("type", JStr "ModStatus"); ("installed_mods", JInt 5)])
                      Samples.default) = inl (KeyError k))
    by (rewrite H; reflexivity).
  vm_compute in Hs. discriminate.
Qed.

(** With the key present the same response is handled to the end. *)
Example mod_status_with_core_mods_returns :
  exists d w',
    Json.loads Samples.mod_status_full = Some (JDict d)
    /\ parse_response (JDict d) Samples.default = (w', inr tt).
Proof. do 2 eexists. split; vm_compute; reflexivity. Qed.

(** ** Logging and the diagnostic stream *)

(** A level above the log level: [log] returns at once. *)
Lemma log_above_level (t : text) (level : json) (z : Z) (w : Wrapper) :
  convert_level level = inr (JInt z) -> log_level w < z ->
  log t level w = (w, inr tt).
Proof.
  intros Hc Hlt. unfold log, bind, lift, get_log_level, ret. rewrite Hc.
  unfold Py.num_compare.
  assert (Hgt : (z ?= log_level w) = Gt) by (apply Z.compare_gt_iff; lia).
  rewrite Hgt. reflexivity.
Qed.

(** What [log(t, level=ERROR)] does: the prefix and the text go to
    [sys.stderr] when the log level is at least ERROR, nothing is printed
    otherwise. *)
Lemma log_error (t : str) (w : Wrapper) :
  log [Lit t] (JInt ERROR) w = (with_printed w (error_lines (log_level w) [t]), inr tt).
Proof.
  unfold error_lines. destruct (ERROR <=? log_level w) eqn:Hll.
  - apply Z.leb_le in Hll.
    unfold log, bind, lift, convert_level, get_log_level, ret, Py.num_compare.
    destruct (ERROR ?= log_level w) eqn:Hcmp;
      [ | | apply Z.compare_gt_iff in Hcmp; lia ];
      unfold with_printed, print, print_noend; simpl;
      rewrite <- app_assoc; reflexivity.
  - apply Z.leb_gt in Hll.
    rewrite (log_above_level _ _ ERROR) by (reflexivity || assumption).
    unfold with_printed. simpl. rewrite app_nil_r. destruct w; reflexivity.
Qed.

Section Diagnostic.

Variable decode : bytes -> option str.
Variable loads : str -> option json.

(** A stderr chunk that is text: it is logged at ERROR and the loop goes on
    with [combined_stdout] as it was. *)
Lemma on_ready_stderr (acc chunk : bytes) (t : str) (w : Wrapper) :
  is_empty chunk = false -> decode chunk = Some t ->
  on_ready decode loads acc (Stderr, chunk) w =
  (with_printed w (error_lines (log_level w) [t]), inr (Some acc)).
Proof.
  intros Hne Hd. unfold on_ready. rewrite Hne, Hd.
  unfold bind. rewrite log_error. reflexivity.
Qed.

End Diagnostic.

(** C10 (as the code behaves): when the count of [-q] exceeds the count
    of [-v] by more than 2 the log level [INFO + verbosity - quiteness] is
    below ERROR, and then every call of [log] at one of the severities (an
    int from ERROR up, or a name [LEVEL_CONVERTER] maps to one) returns
    without printing, the ERROR ones included; a stderr chunk of the
    worker that is text is dropped: nothing is printed for it and the loop
    goes on. *)
Theorem quiet_wrapper_logs_nothing (verbosity quiteness : nat) (w : Wrapper) :
  (verbosity + 2 < quiteness)%nat ->
  log_level w = init_log_level verbosity quiteness ->
  log_level w < ERROR
  /\ (forall (t : text) (level : json) (z : Z),
        convert_level level = inr (JInt z) -> ERROR <= z ->
        log t level w = (w, inr tt))
  /\ (forall decode loads (acc chunk : bytes) (t : str),
        is_empty chunk = false -> decode chunk = Some t ->
        on_ready decode loads acc (Stderr, chunk) w = (w, inr (Some acc))).
Proof.
  intros Hq Hll.
  assert (Hlt : log_level w < ERROR).
  { rewrite Hll. unfold init_log_level, INFO, ERROR. lia. }
  split; [exact Hlt | split].
  - intros t level z Hc Hz. apply (log_above_level t level z); [exact Hc | lia].
  - intros decode loads acc chunk t Hne Hd.
    unfold on_ready. rewrite Hne, Hd. unfold bind.
    rewrite (log_above_level _ _ ERROR) by (reflexivity || exact Hlt). reflexivity.
Qed.

(** With [-qqq]: an ERROR line, a line at the level named [Error] and a
    stderr chunk all leave the wrapper as it was. *)
Lemma quiet_wrapper_logs_nothing_witness :
  (0 + 2 < 3)%nat
  /\ log_level Samples.quiet = init_log_level 0 3
  /\ log_level Samples.quiet < ERROR
  /\ log [Lit "lost"] (JInt ERROR) Samples.quiet = (Samples.quiet, inr tt)
  /\ log [Lit "lost"] (JStr "Error") Samples.quiet = (Samples.quiet, inr tt)
  /\ on_ready Utf8.decode Json.loads "" (Stderr, "boom") Samples.quiet
     = (Samples.quiet, inr (Some "")).
Proof.
  assert (H0 : (0 + 2 < 3)%nat) by lia.
  assert (H1 : log_level Samples.quiet = init_log_level 0 3) by reflexivity.
  destruct (quiet_wrapper_logs_nothing 0 3 Samples.quiet H0 H1) as (Hlt & Hlog & Herr).
  split; [exact H0 | split; [exact H1 | split; [exact Hlt | split; [| split]]]].
  - apply (Hlog _ _ ERROR); [reflexivity | unfold ERROR; lia].
  - apply (Hlog _ _ ERROR); [reflexivity | unfold ERROR; lia].
  - apply Herr with (t := "boom"); reflexivity.
Defined.

(** C10, the claim as stated fails: not every call of [log] is silent
    under [-qqq].  The log level is then -1, and a call at the int level
    -1, which a [LogMsg] of the worker can carry, is not above it: the
    line is printed. *)
Lemma quiet_wrapper_prints_below_error :
  let line :=
    Samples.object [("type", quoted "LogMsg"); ("level", "-1"); ("message", quoted "x")] in
  (0 + 2 < 3)%nat
  /\ log_level Samples.quiet = init_log_level 0 3
  /\ log [Lit "x"] (JInt (-1)) Samples.quiet =
     (with_printed Samples.quiet [(sys_stdout, [Lit "x"; Lit NL])], inr tt)
  /\ run "GetModStatus" [] [[(Stdout, line)]; [(Stdout, "")]] Samples.quiet =
     (with_printed Samples.quiet [(sys_stdout, [Str (JStr "x"); Lit NL])],
      stdin_close (stdin_write Popen [Dumps (JDict [("type", JStr "GetModStatus")])]),
      Returned JNull).
Proof.
  cbv zeta. split; [lia | split; [reflexivity | split; vm_compute; reflexivity]].
Qed.

Lemma with_printed_app (w : Wrapper) (a b : list (file * text)) :
  with_printed (with_printed w a) b = with_printed w (a ++ b)%list.
Proof. unfold with_printed. simpl. now rewrite app_assoc. Qed.

Lemma error_lines_cons (ll : Z) (t : str) (texts : list str) :
  error_lines ll (t :: texts) = (error_lines ll [t] ++ error_lines ll texts)%list.
Proof. unfold error_lines. destruct (ERROR <=? ll); reflexivity. Qed.

Lemma with_printed_nil (w : Wrapper) : with_printed w [] = w.
Proof. unfold with_printed. rewrite app_nil_r. destruct w; reflexivity. Qed.

Lemma error_lines_nil (ll : Z) : error_lines ll [] = [].
Proof. unfold error_lines. destruct (ERROR <=? ll); reflexivity. Qed.

(** C6 (as the code behaves): stderr bytes never reach the JSON parser and
    never enter [combined_stdout], however they are chunked: the result of
    handling a stderr chunk is the same with any parser, and a run of
    stderr chunks that are text leaves [combined_stdout] as it was.  Each
    such chunk is passed as it is to [log] at ERROR, which prints it on
    [sys.stderr] after the ERROR prefix when the log level is at least
    ERROR and prints nothing below; the loop goes on. *)
Theorem stderr_chunks_logged_never_parsed
    (decode : bytes -> option str) (loads : str -> option json)
    (acc : bytes) (chunks : list bytes) (texts : list str) (w : Wrapper) :
  decoded_as decode chunks texts = true ->
  (forall loads' chunk,
     on_ready decode loads' acc (Stderr, chunk) w =
     on_ready decode loads acc (Stderr, chunk) w)
  /\ for_keys decode loads acc (map (pair Stderr) chunks) w =
     (with_printed w (error_lines (log_level w) texts), inr (Some acc)).
Proof.
  intros H. split; [reflexivity|].
  revert texts w H. induction chunks as [|c chunks IH]; intros [|t texts] w H;
    simpl in H; try discriminate.
  - simpl. rewrite error_lines_nil, with_printed_nil. reflexivity.
  - destruct (decode c) as [t'|] eqn:Hd; [|discriminate].
    apply andb_true_iff in H as [H Hrest]. apply andb_true_iff in H as [Ht Hne].
    apply String.eqb_eq in Ht. subst t'. apply negb_true_iff in Hne.
    cbn [map for_keys].
    rewrite (bind_ok _ _ _ _ _ (on_ready_stderr decode loads acc c t w Hne Hd)).
    rewrite (IH texts _ Hrest). simpl log_level.
    rewrite with_printed_app, <- error_lines_cons. reflexivity.
Qed.

(** Two stderr chunks with the default log level: two ERROR lines, the
    buffer untouched. *)
Lemma stderr_chunks_logged_never_parsed_witness :
  decoded_as Utf8.decode ["bo"; "om"] ["bo"; "om"] = true
  /\ for_keys Utf8.decode Json.loads "{" [(Stderr, "bo"); (Stderr, "om")] Samples.default =
     (with_printed Samples.default
        [(sys_stderr, [Lit ERROR_PREFIX]); (sys_stderr, [Lit "bo"; Lit NL]);
         (sys_stderr, [Lit ERROR_PREFIX]); (sys_stderr, [Lit "om"; Lit NL])],
      inr (Some "{")).
Proof.
  split; [reflexivity|].
  exact (proj2 (stderr_chunks_logged_never_parsed Utf8.decode Json.loads "{"
                  ["bo"; "om"] ["bo"; "om"] Samples.default eq_refl)).
Defined.

(** C6, the claim as stated fails: under [-qqq] a stderr chunk is printed
    nowhere, and a chunk that ends inside a character (the first byte of a
    two byte one) raises [UnicodeDecodeError] out of the loop. *)
Lemma stderr_chunk_not_always_surfaced :
  ~ surfaced "boom" Samples.quiet
  /\ ~ surfaced (String "195" "") Samples.default
  /\ on_ready Utf8.decode Json.loads "" (Stderr, "boom") Samples.quiet
     = (Samples.quiet, inr (Some ""))
  /\ on_ready Utf8.decode Json.loads "" (Stderr, String "195" "") Samples.default
     = (Samples.default, inl UnicodeDecodeError).
Proof.
  split; [| split; [| split; reflexivity]].
  - intros (w' & acc & Hrun & Hp). vm_compute in Hrun.
    injection Hrun as <- _. vm_compute in Hp. discriminate.
  - intros (w' & acc & Hrun & _). vm_compute in Hrun. discriminate.
Qed.

(** ** Content the parser rejects *)

Lemma decode_same (b : bytes) (s : str) : Utf8.decode b = Some s -> s = b.
Proof. unfold Utf8.decode. destruct (Utf8.chars b); congruence. Qed.

(** Text that starts with a closing brace is no JSON value, whatever
    follows the brace. *)
Lemma closing_brace_never_parses (suffix : bytes) (s : str) :
  Utf8.decode ("}" ++ suffix) = Some s -> Json.loads s = None.
Proof.
  intros H. apply decode_same in H. subst s. reflexivity.
Qed.

Lemma join_app (a b : list bytes) : join (a ++ b) = join a ++ join b.
Proof.
  induction a as [|l a IH]; simpl; [reflexivity|].
  now rewrite IH, str_app_assoc.
Qed.

Lemma decodable_along_app (decode : bytes -> option str) (l1 l2 : list bytes) (acc : bytes) :
  decodable_along decode acc (l1 ++ l2) = true ->
  decodable_along decode acc l1 = true
  /\ decodable_along decode (acc ++ join l1) l2 = true.
Proof.
  revert acc. induction l1 as [|l l1 IH]; intros acc H.
  - simpl. rewrite str_app_nil_r. split; [|exact H].
    destruct (decode acc) eqn:Hd; [reflexivity|].
    destruct l2; simpl in H; rewrite Hd in H; discriminate.
  - simpl in *. destruct (decode acc); [|discriminate].
    rewrite <- str_app_assoc. now apply IH.
Qed.

Section Rejected.

Variable decode : bytes -> option str.
Variable loads : str -> option json.

Lemma never_valid_app (acc more : bytes) :
  never_valid decode loads acc -> never_valid decode loads (acc ++ more).
Proof.
  intros H suffix s Hd. rewrite str_app_assoc in Hd. exact (H _ _ Hd).
Qed.

(** Lines added to such a buffer are kept, nothing is handled or raised. *)
Lemma feed_lines_never_valid (lines : list bytes) (acc : bytes) (w : Wrapper) :
  never_valid decode loads acc -> decodable_along decode acc lines = true ->
  feed_lines decode loads acc lines w = (w, inr (acc ++ join lines)).
Proof.
  revert acc. induction lines as [|l lines IH]; intros acc Hnv Hdec.
  - simpl. now rewrite str_app_nil_r.
  - simpl in Hdec. destruct (decode acc); [|discriminate].
    assert (Hl : feed_line decode loads acc l w = (w, inr (acc ++ l))).
    { unfold feed_line.
      destruct (decode (acc ++ l)) as [txt|] eqn:Hd.
      - rewrite (Hnv l txt Hd). reflexivity.
      - destruct lines; simpl in Hdec; rewrite Hd in Hdec; discriminate. }
    cbn [feed_lines join]. rewrite (bind_ok _ _ _ _ _ Hl).
    rewrite (IH (acc ++ l) (never_valid_app _ _ Hnv) Hdec).
    now rewrite str_app_assoc.
Qed.

Lemma read_loop_never_valid (chunks : list bytes) (acc : bytes) (w : Wrapper) :
  never_valid decode loads acc ->
  decodable_along decode acc (flat_map splitlines chunks) = true ->
  forallb (fun c => negb (is_empty c)) chunks = true ->
  read_loop decode loads acc (map (fun c => [(Stdout, c)]) chunks) w =
  (w, Waiting (acc ++ join (flat_map splitlines chunks))).
Proof.
  revert acc. induction chunks as [|c chunks IH]; intros acc Hnv Hdec Hne.
  - simpl. now rewrite str_app_nil_r.
  - simpl in Hne. apply andb_true_iff in Hne as [Hc Hne]. apply negb_true_iff in Hc.
    cbn [flat_map] in Hdec. apply decodable_along_app in Hdec as [Hd1 Hd2].
    cbn [map read_loop for_keys on_ready]. rewrite Hc.
    unfold bind. rewrite (feed_lines_never_valid _ _ _ Hnv Hd1). unfold ret.
    rewrite (IH _ (never_valid_app _ _ Hnv) Hd2 Hne).
    cbn [flat_map]. now rewrite join_app, str_app_assoc.
Qed.

End Rejected.

(** C2 (as the code behaves): content in [combined_stdout] that the parser
    rejects with [JSONDecodeError] whatever bytes follow it, so that no
    further bytes can turn it into a message, is never reported.
    [JSONDecodeError] is passed over: as long as the buffer can be
    decoded, every later line is added to it and the parse tried again,
    nothing is printed, recorded or raised, and the session ends only when
    a read returns no byte, with a normal return of [None]. *)
Theorem never_valid_content_is_never_reported
    (decode : bytes -> option str) (loads : str -> option json)
    (acc : bytes) (chunks : list bytes) (w : Wrapper) :
  never_valid decode loads acc ->
  decodable_along decode acc (flat_map splitlines chunks) = true ->
  forallb (fun c => negb (is_empty c)) chunks = true ->
  let reads := map (fun c => [(Stdout, c)]) chunks in
  read_loop decode loads acc reads w =
    (w, Waiting (acc ++ join (flat_map splitlines chunks)))
  /\ read_loop decode loads acc (reads ++ [[(Stdout, "")]])%list w = (w, Returned JNull).
Proof.
  intros Hnv Hdec Hne reads. subst reads.
  pose proof (read_loop_never_valid decode loads chunks acc w Hnv Hdec Hne) as H.
  split; [exact H|].
  rewrite read_loop_app, H. reflexivity.
Qed.

(** A closing brace in the buffer, then two well-formed messages: both are
    swallowed. *)
Lemma never_valid_content_is_never_reported_witness :
  let chunks := [(Samples.log_hi ++ NL)%string; Samples.fixed_player_data] in
  never_valid Utf8.decode Json.loads "}"
  /\ decodable_along Utf8.decode "}" (flat_map splitlines chunks) = true
  /\ forallb (fun c => negb (is_empty c)) chunks = true
  /\ read_loop Utf8.decode Json.loads "}"
       (map (fun c => [(Stdout, c)]) chunks ++ [[(Stdout, "")]])%list Samples.default
     = (Samples.default, Returned JNull).
Proof.
  cbv zeta.
  assert (Hnv : never_valid Utf8.decode Json.loads "}")
    by exact closing_brace_never_parses.
  split; [exact Hnv | split; [reflexivity | split; [reflexivity|]]].
  exact (proj2 (never_valid_content_is_never_reported Utf8.decode Json.loads "}"
                  [(Samples.log_hi ++ NL)%string; Samples.fixed_player_data]
                  Samples.default Hnv eq_refl eq_refl)).
Defined.

(** C2, the claim as stated fails: after a lone closing brace on stdout,
    which no further bytes can make valid, the session does not fail: the
    two messages that follow are lost without a word and the call returns
    [None] when stdout closes. *)
Lemma malformed_output_is_not_reported :
  let r := run "GetModStatus" []
             [[(Stdout, "}")]; [(Stdout, (Samples.log_hi ++ NL)%string)];
              [(Stdout, Samples.fixed_player_data)]; [(Stdout, "")]]
             Samples.default in
  never_valid Utf8.decode Json.loads "}"
  /\ ~ failed (snd r)
  /\ r = (Samples.default, stdin_close (stdin_write Popen [Dumps (JDict [("type", JStr "GetModStatus")])]),
          Returned JNull).
Proof.
  cbv zeta. split; [exact closing_brace_never_parses|].
  split; [vm_compute; intros [e H]; discriminate | vm_compute; reflexivity].
Qed.

(** ** Chunks and lines *)

Lemma take_drop (n : nat) (s : bytes) : take n s ++ drop n s = s.
Proof.
  revert s. induction n as [|n IH]; intros [|c s]; simpl; try reflexivity.
  now rewrite IH.
Qed.

Lemma no_linebreak_app (a b : bytes) :
  no_linebreak (a ++ b) = no_linebreak a && no_linebreak b.
Proof.
  induction a as [|c a IH]; simpl; [reflexivity|].
  rewrite IH. now rewrite andb_assoc.
Qed.

Lemma take_nonempty (n : nat) (s : bytes) :
  (0 < n)%nat -> (0 < String.length s)%nat -> is_empty (take n s) = false.
Proof. destruct n, s; simpl; intros; try lia; reflexivity. Qed.

Lemma drop_nonempty (n : nat) (s : bytes) :
  (n < String.length s)%nat -> is_empty (drop n s) = false.
Proof.
  revert s. induction n as [|n IH]; intros [|c s]; simpl; intros H; try lia.
  apply IH. lia.
Qed.

Section Chunks.

Variable decode : bytes -> option str.
Variable loads : str -> option json.

Lemma feed_lines_app (l1 l2 : list bytes) (acc : bytes) (w : Wrapper) :
  feed_lines decode loads acc (l1 ++ l2) w =
  bind (feed_lines decode loads acc l1) (fun acc' => feed_lines decode loads acc' l2) w.
Proof.
  revert acc w. induction l1 as [|l l1 IH]; intros acc w.
  - reflexivity.
  - cbn [app feed_lines]. rewrite bind_assoc.
    apply bind_ext. intros acc1 w1. apply IH.
Qed.

(** A stdout chunk that holds bytes: its lines are fed in order. *)
Lemma read_loop_stdout (chunk : bytes) (selects : list (list ready)) (acc : bytes)
    (w : Wrapper) :
  is_empty chunk = false ->
  read_loop decode loads acc ([(Stdout, chunk)] :: selects) w =
  match feed_lines decode loads acc (splitlines chunk) w with
  | (w', inr acc') => read_loop decode loads acc' selects w'
  | (w', inl e) => (w', Raised e)
  end.
Proof.
  intros Hne. cbn [read_loop for_keys on_ready]. rewrite Hne. unfold bind, ret.
  destruct (feed_lines decode loads acc (splitlines chunk) w) as [w1 [e|acc1]];
    reflexivity.
Qed.

(** A line the parser rejects stays in the buffer. *)
Lemma feed_line_rejected (acc line : bytes) (w : Wrapper) :
  rejected decode loads (acc ++ line) = true ->
  feed_line decode loads acc line w = (w, inr (acc ++ line)).
Proof.
  unfold rejected, feed_line. intros H.
  destruct (decode (acc ++ line)) as [s|]; [|discriminate].
  destruct (loads s); [discriminate | reflexivity].
Qed.

Lemma splitlines_join_lf (msgs : list bytes) :
  forallb no_linebreak msgs = true ->
  splitlines (join (map (fun m => m ++ NL) msgs)) = msgs.
Proof.
  induction msgs as [|m msgs IH]; intros H; [reflexivity|].
  simpl in H. apply andb_true_iff in H as [Hm H].
  cbn [map join].
  replace ((m ++ NL) ++ join (map (fun m => m ++ NL) msgs))
    with (m ++ String LF (join (map (fun m => m ++ NL) msgs)))
    by (rewrite str_app_assoc; reflexivity).
  rewrite (splitlines_lf _ _ Hm). now rewrite (IH H).
Qed.

(** Messages that arrive one per chunk, each with its line feed. *)
Lemma read_loop_one_per_chunk (msgs : list bytes) (acc : bytes) (w : Wrapper) :
  forallb no_linebreak msgs = true ->
  read_loop decode loads acc (map (fun m => [(Stdout, m ++ NL)]) msgs) w =
  match feed_lines decode loads acc msgs w with
  | (w', inr acc') => (w', Waiting acc')
  | (w', inl e) => (w', Raised e)
  end.
Proof.
  revert acc w. induction msgs as [|m msgs IH]; intros acc w H; [reflexivity|].
  simpl in H. apply andb_true_iff in H as [Hm H].
  cbn [map]. rewrite read_loop_stdout by (destruct m; reflexivity).
  replace (splitlines (m ++ NL)) with [m].
  2:{ unfold NL. rewrite (splitlines_lf _ _ Hm). reflexivity. }
  cbn [feed_lines]. unfold bind, ret.
  destruct (feed_line decode loads acc m w) as [w1 [e|acc1]]; [reflexivity|].
  rewrite (IH _ _ H). reflexivity.
Qed.

End Chunks.

(** C4 (as the code behaves): the stream is cut into lines at LF, CR and
    CR LF, and the buffer is parsed after each line.  A message without a
    line end that arrives in two chunks, the first of which the parser
    rejects, is handled exactly as if it had arrived in one chunk; and a
    chunk that holds several messages, each followed by a line feed, is
    handled exactly as if each had arrived in a chunk of its own. *)
Theorem chunking_within_line_framing
    (decode : bytes -> option str) (loads : str -> option json)
    (msg : bytes) (i : nat) (msgs : list bytes) (acc : bytes) (w : Wrapper) :
  no_linebreak msg = true ->
  (0 < i < String.length msg)%nat ->
  rejected decode loads (take i msg) = true ->
  forallb no_linebreak msgs = true ->
  msgs <> [] ->
  read_loop decode loads "" [[(Stdout, take i msg)]; [(Stdout, drop i msg)]] w =
  read_loop decode loads "" [[(Stdout, msg)]] w
  /\ read_loop decode loads acc [[(Stdout, join (map (fun m => m ++ NL) msgs))]] w =
     read_loop decode loads acc (map (fun m => [(Stdout, m ++ NL)]) msgs) w.
Proof.
  intros Hnl Hi Hrej Hmsgs Hne. split.
  - assert (Hsplit : no_linebreak (take i msg) = true /\ no_linebreak (drop i msg) = true).
    { apply andb_true_iff. rewrite <- no_linebreak_app, take_drop. exact Hnl. }
    destruct Hsplit as [Ht Hd].
    assert (Htne : is_empty (take i msg) = false) by (apply take_nonempty; lia).
    assert (Hdne : is_empty (drop i msg) = false) by (apply drop_nonempty; lia).
    assert (Hmne : is_empty msg = false) by (destruct msg; [simpl in Hi; lia | reflexivity]).
    rewrite !read_loop_stdout by assumption.
    rewrite !splitlines_single by assumption.
    cbn [feed_lines]. unfold bind at 1.
    rewrite (feed_line_rejected decode loads "" (take i msg) w Hrej).
    cbn [append]. unfold ret at 1.
    rewrite read_loop_stdout by assumption. rewrite splitlines_single by assumption.
    cbn [feed_lines]. unfold bind.
    unfold feed_line. rewrite take_drop. reflexivity.
  - rewrite (read_loop_one_per_chunk decode loads msgs acc w Hmsgs).
    rewrite read_loop_stdout.
    + rewrite (splitlines_join_lf msgs Hmsgs).
      destruct (feed_lines decode loads acc msgs w) as [w1 [e|acc1]]; reflexivity.
    + destruct msgs as [|m msgs]; [contradiction|]. destruct m; reflexivity.
Qed.

(** A result message cut after its seventh byte, and two messages with
    their line feeds in one chunk. *)
Lemma chunking_within_line_framing_witness :
  let msg := Samples.fixed_player_data in
  let msgs := [Samples.log_hi; Samples.fixed_player_data] in
  let w := Samples.default in
  no_linebreak msg = true
  /\ (0 < 7 < String.length msg)%nat
  /\ rejected Utf8.decode Json.loads (take 7 msg) = true
  /\ forallb no_linebreak msgs = true
  /\ msgs <> []
  /\ read_loop Utf8.decode Json.loads "" [[(Stdout, take 7 msg)]; [(Stdout, drop 7 msg)]] w =
     read_loop Utf8.decode Json.loads "" [[(Stdout, msg)]] w
  /\ read_loop Utf8.decode Json.loads "" [[(Stdout, join (map (fun m => m ++ NL) msgs))]] w =
     read_loop Utf8.decode Json.loads "" (map (fun m => [(Stdout, m ++ NL)]) msgs) w.
Proof.
  cbv zeta.
  assert (H1 : no_linebreak Samples.fixed_player_data = true) by reflexivity.
  assert (H2 : (0 < 7 < String.length Samples.fixed_player_data)%nat)
    by (vm_compute; lia).
  assert (H3 : rejected Utf8.decode Json.loads (take 7 Samples.fixed_player_data) = true)
    by reflexivity.
  assert (H4 : forallb no_linebreak [Samples.log_hi; Samples.fixed_player_data] = true)
    by reflexivity.
  assert (H5 : [Samples.log_hi; Samples.fixed_player_data] <> []) by discriminate.
  split; [exact H1 | split; [exact H2 | split; [exact H3 | split; [exact H4 |
    split; [exact H5|]]]]].
  exact (chunking_within_line_framing Utf8.decode Json.loads Samples.fixed_player_data 7
           [Samples.log_hi; Samples.fixed_player_data] "" Samples.default
           H1 H2 H3 H4 H5).
Defined.

(** C4, the claim as stated fails: the same bytes, two messages end to end
    without a line end between them, give both messages when the chunks
    end where the messages do, and neither message when they come in one
    chunk: parsed as a whole they are rejected and stay in the buffer. *)
Lemma chunking_changes_what_is_decoded :
  let w := Samples.default in
  let two := read_loop Utf8.decode Json.loads ""
               [[(Stdout, Samples.log_hi)]; [(Stdout, Samples.log_bye)]] w in
  let one := read_loop Utf8.decode Json.loads ""
               [[(Stdout, Samples.log_hi ++ Samples.log_bye)]] w in
  two <> one
  /\ two = (with_printed w
              [(sys_stdout, [Lit INFO_PREFIX]); (sys_stdout, [Str (JStr "hi"); Lit NL]);
               (sys_stdout, [Lit INFO_PREFIX]); (sys_stdout, [Str (JStr "bye"); Lit NL])],
            Waiting "")
  /\ one = (w, Waiting (Samples.log_hi ++ Samples.log_bye)).
Proof.
  cbv zeta. split; [vm_compute; discriminate | split; vm_compute; reflexivity].
Qed.

(** ** What a handled response leaves in the wrapper *)

Lemma keeps_ret {A} (a : A) : keeps (ret a).
Proof. intros w. split; reflexivity. Qed.

Lemma keeps_raise {A} (e : exn) : keeps (@raise A e).
Proof. intros w. split; reflexivity. Qed.

Lemma keeps_lift {A} (r : exn + A) : keeps (lift r).
Proof. destruct r; [apply keeps_raise | apply keeps_ret]. Qed.

Lemma keeps_get_log_level : keeps get_log_level.
Proof. intros w. split; reflexivity. Qed.

Lemma keeps_print_noend (f : file) (t : text) : keeps (print_noend f t).
Proof. intros w. split; reflexivity. Qed.

Lemma keeps_print (f : file) (t : text) : keeps (print f t).
Proof. apply keeps_print_noend. Qed.

Lemma keeps_bind {A B} (c : M A) (k : A -> M B) :
  keeps c -> (forall a, keeps (k a)) -> keeps (bind c k).
Proof.
  intros Hc Hk w. unfold bind. specialize (Hc w).
  destruct (c w) as [w1 [e|a]]; simpl in *; [exact Hc|].
  destruct (Hk a w1) as [Ha Hl]. destruct Hc as [Hc1 Hc2].
  split; congruence.
Qed.

Create HintDb keeps.

#[local] Hint Resolve keeps_ret keeps_raise keeps_lift keeps_get_log_level
  keeps_print_noend keeps_print : keeps.

(** Goes through a computation made of binds, branches and the steps the
    hints know. *)
Ltac keeps_steps :=
  repeat first
    [ solve [auto with keeps]
    | apply keeps_bind; [| intros ?]
    | match goal with
      | |- keeps (if ?b then _ else _) => destruct b
      | |- keeps (match ?x with _ => _ end) => destruct x
      | |- keeps (let '(_, _) := ?x in _) => destruct x
      end ].

Lemma keeps_log (t : text) (level : json) : keeps (log t level).
Proof. unfold log. keeps_steps. Qed.

#[local] Hint Resolve keeps_log : keeps.

Lemma keeps_for_each (body : json -> M unit) (l : list json) :
  (forall x, keeps (body x)) -> keeps (for_each body l).
Proof.
  intros Hb. induction l as [|x l IH]; simpl; [apply keeps_ret|].
  apply keeps_bind; [apply Hb | intros _; exact IH].
Qed.

Lemma keeps_for_in (v : json) (body : json -> M unit) :
  (forall x, keeps (body x)) -> keeps (for_in v body).
Proof.
  intros Hb. unfold for_in. apply keeps_bind; [apply keeps_lift|].
  intros l. now apply keeps_for_each.
Qed.

Lemma keeps_log_mod (mod_ : json) : keeps (log_mod mod_).
Proof. unfold log_mod, log_info. keeps_steps. Qed.

#[local] Hint Resolve keeps_log_mod : keeps.

Lemma keeps_log_installed_mods (response : json) : keeps (log_installed_mods response).
Proof.
  unfold log_installed_mods, log_info.
  apply keeps_bind; [auto with keeps | intros _].
  apply keeps_bind; [auto with keeps | intros v].
  apply keeps_for_in. auto with keeps.
Qed.

#[local] Hint Resolve keeps_log_installed_mods : keeps.

Lemma dict_get_set_same (k : str) (v : json) (d : pydict) :
  Py.dict_get k (Py.dict_set k v d) = Some v.
Proof.
  induction d as [|[k0 v0] d IH]; simpl.
  - now rewrite String.eqb_refl.
  - destruct (String.eqb k k0) eqn:E; simpl; rewrite ?E, ?String.eqb_refl; auto.
Qed.

(** A handler that starts with [self.name = response] and then only logs. *)
Lemma setattr_then_keeps (name : str) (response : pydict) (rest : M unit) (w : Wrapper) :
  keeps rest ->
  Py.dict_get name (attrs (fst (bind (setattr name (JDict response)) (fun _ => rest) w)))
  = Some (JDict response).
Proof.
  intros Hk. unfold bind, setattr.
  rewrite (proj1 (Hk _)). simpl. apply dict_get_set_same.
Qed.

(** A response of one of the six kinds that are kept is in its attribute
    once [parse_response] is over, without its [type]. *)
Lemma parse_response_keeps_payload (d : pydict) (ty name : str) (w : Wrapper) :
  Py.dict_get "type" d = Some (JStr ty) ->
  attribute_of ty = Some name ->
  Py.dict_get name (attrs (fst (parse_response (JDict d) w)))
  = Some (JDict (Py.dict_del "type" d)).
Proof.
  intros Hty Hattr.
  set (response := Py.dict_del "type" d).
  assert (Hblank : forall h : M unit,
            (forall w0, Py.dict_get name (attrs (fst (h w0))) = Some (JDict response)) ->
            Py.dict_get name
              (attrs (fst (bind get_log_level
                             (fun ll => bind (if INFO <=? ll then print sys_stdout [] else ret tt)
                                             (fun _ => h)) w)))
            = Some (JDict response)).
  { intros h Hh. unfold bind, get_log_level.
    destruct (INFO <=? log_level w); simpl; apply Hh. }
  unfold parse_response, bind at 1, lift at 1, Py.getitem at 1. rewrite Hty.
  fold response. unfold attribute_of in Hattr. unfold Py.eq_str.
  assert (Hlog : String.eqb ty "LogMsg" = false).
  { destruct (String.eqb_spec ty "LogMsg") as [->|]; [discriminate Hattr | reflexivity]. }
  cbn [ret]. rewrite Hlog.
  apply Hblank. intros w0.
  destruct (String.eqb ty "ModStatus");
    [injection Hattr as <-; unfold handle_ModStatus, mod_status_head;
     rewrite !bind_assoc; apply setattr_then_keeps |].
  2: destruct (String.eqb ty "Mods");
    [injection Hattr as <-; apply setattr_then_keeps |].
  3: destruct (String.eqb ty "ModSyncResult");
    [injection Hattr as <-; apply setattr_then_keeps |].
  4: destruct (String.eqb ty "Patched");
    [injection Hattr as <-; apply setattr_then_keeps |].
  5: destruct (String.eqb ty "ImportResult");
    [injection Hattr as <-; apply setattr_then_keeps |].
  6: destruct (String.eqb ty "FixedPlayerData");
    [injection Hattr as <-; apply setattr_then_keeps | discriminate Hattr].
  all: unfold mod_status_app_info, mod_status_core_mods, mod_status_tail, log_info.
  all: keeps_steps.
  all: apply keeps_for_each; intros ?; auto with keeps.
Qed.

(** ** The outcome of a session *)

Section Outcome.

Variable decode : bytes -> option str.
Variable loads : str -> option json.

(** Past a key whose read is empty the loop over the keys does not go on. *)
Lemma for_keys_with_eof (keys : list ready) (acc : bytes) (w : Wrapper) :
  existsb is_eof keys = true ->
  forall acc', snd (for_keys decode loads acc keys w) <> inr (Some acc').
Proof.
  revert acc w. induction keys as [|[s chunk] keys IH]; intros acc w H acc'.
  - discriminate.
  - simpl in H. cbn [for_keys]. unfold bind.
    destruct (is_empty chunk) eqn:Hc.
    + unfold on_ready. rewrite Hc. simpl. discriminate.
    + unfold is_eof in H at 1. simpl in H. rewrite Hc in H. simpl in H.
      destruct (on_ready decode loads acc (s, chunk) w) as [w1 [e|[acc1|]]];
        simpl; try discriminate.
      now apply IH.
Qed.

(** The three ways the loop can stand; a returned value is always [None]. *)
Lemma read_loop_outcome (selects : list (list ready)) (acc : bytes) (w : Wrapper) :
  match snd (read_loop decode loads acc selects w) with
  | Returned v => v = JNull
  | Raised _ => True
  | Waiting _ => existsb is_eof (keys_of selects) = false
  end.
Proof.
  rewrite read_loop_flat. cbn [read_loop].
  destruct (for_keys decode loads acc (keys_of selects) w) as [w1 [e|[acc1|]]] eqn:Hk;
    simpl; auto.
  destruct (existsb is_eof (keys_of selects)) eqn:He; [|reflexivity].
  exfalso. apply (for_keys_with_eof _ acc w He acc1). now rewrite Hk.
Qed.

(** The accumulator through one line: an exception when the bytes are not
    text, the line kept when the parser rejects the text, the buffer
    emptied when a value was parsed and handled. *)
Lemma feed_line_cases (acc line : bytes) (w : Wrapper) :
  feed_line decode loads acc line w =
  match decode (acc ++ line) with
  | None => (w, inl UnicodeDecodeError)
  | Some s =>
      match loads s with
      | None => (w, inr (acc ++ line))
      | Some v =>
          match parse_response v w with
          | (w', inr _) => (w', inr "")
          | (w', inl e) => (w', inl e)
          end
      end
  end.
Proof.
  unfold feed_line. destruct (decode (acc ++ line)) as [s|]; [|reflexivity].
  destruct (loads s) as [v|]; [|reflexivity].
  unfold bind. destruct (parse_response v w) as [w1 [e|[]]]; reflexivity.
Qed.

End Outcome.

(** ** The worker when the call ends *)



(** C1 (as the code behaves): a call of [send_payload] whose reads include
    an empty one ends in exactly one way: it returns [None], at the first
    empty read, or an exception leaves it; it never returns a payload.  A
    decoded result message does not end the read loop: [parse_response]
    keeps it (without its [type]) in the attribute of the wrapper for its
    kind, the buffer is emptied, and the loop goes on with the next key. *)
Theorem session_returns_none_and_keeps_results
    (decode : bytes -> option str) (loads : str -> option json)
    (payload_type : str) (kwargs : pydict) (selects : list (list ready))
    (acc chunk : bytes) (s : str) (d : pydict) (ty name : str)
    (keys : list ready) (rest : list (list ready)) (w w1 : Wrapper) :
  existsb is_eof (keys_of selects) = true ->
  is_empty chunk = false ->
  no_linebreak chunk = true ->
  decode (acc ++ chunk) = Some s ->
  loads s = Some (JDict d) ->
  Py.dict_get "type" d = Some (JStr ty) ->
  attribute_of ty = Some name ->
  parse_response (JDict d) w = (w1, inr tt) ->
  (let o := snd (send_payload decode loads payload_type kwargs selects w) in
   o = Returned JNull \/ failed o)
  /\ read_loop decode loads acc (((Stdout, chunk) :: keys) :: rest) w =
     read_loop decode loads "" (keys :: rest) w1
  /\ Py.dict_get name (attrs w1) = Some (JDict (Py.dict_del "type" d)).
Proof.
  intros Heof Hne Hnl Hd Hl Hty Hattr Hp. split; [| split].
  - cbv zeta. unfold send_payload.
    set (w0 := fst (log _ _ w)).
    pose proof (read_loop_outcome decode loads selects "" w0) as H.
    destruct (read_loop decode loads "" selects w0) as [w2 [v|e|acc2]]; simpl in *.
    + left. now subst v.
    + right. now exists e.
    + congruence.
  - cbn [read_loop for_keys on_ready]. rewrite Hne.
    rewrite (splitlines_single _ Hnl Hne). cbn [feed_lines].
    unfold bind at 1 2 3. rewrite feed_line_cases, Hd, Hl, Hp. reflexivity.
  - pose proof (parse_response_keeps_payload d ty name w Hty Hattr) as H.
    rewrite Hp in H. exact H.
Qed.

(** A [FixedPlayerData] message, then a log message in the same [select]
    result, then the end of stdout. *)
Lemma session_returns_none_and_keeps_results_witness :
  let selects :=
    [[(Stdout, Samples.fixed_player_data); (Stdout, Samples.log_hi)]; [(Stdout, "")]] in
  let d := Samples.dict_of Samples.fixed_player_data in
  let w := Samples.default in
  let w1 := fst (parse_response (JDict d) w) in
  existsb is_eof (keys_of selects) = true
  /\ parse_response (JDict d) w = (w1, inr tt)
  /\ snd (run "FixPlayerData" [] selects w) = Returned JNull
  /\ read_loop Utf8.decode Json.loads ""
       [[(Stdout, Samples.fixed_player_data); (Stdout, Samples.log_hi)]; [(Stdout, "")]] w =
     read_loop Utf8.decode Json.loads "" [[(Stdout, Samples.log_hi)]; [(Stdout, "")]] w1
  /\ Py.dict_get "fixed_player_data" (attrs w1) = Some (JDict [("existed", JBool true)]).
Proof.
  cbv zeta.
  pose proof (session_returns_none_and_keeps_results Utf8.decode Json.loads
                "FixPlayerData" []
                [[(Stdout, Samples.fixed_player_data); (Stdout, Samples.log_hi)];
                 [(Stdout, "")]]
                "" Samples.fixed_player_data Samples.fixed_player_data
                (Samples.dict_of Samples.fixed_player_data)
                "FixedPlayerData" "fixed_player_data"
                [(Stdout, Samples.log_hi)] [[(Stdout, "")]]
                Samples.default
                (fst (parse_response (JDict (Samples.dict_of Samples.fixed_player_data))
                        Samples.default))
                eq_refl eq_refl eq_refl eq_refl eq_refl eq_refl eq_refl eq_refl)
    as (Hout & Hloop & Hattr).
  split; [reflexivity | split; [reflexivity | split; [reflexivity | split]]].
  - exact Hloop.
  - exact Hattr.
Defined.

(** C1, the claim as stated fails.  On the scenario as the specification
    writes it (messages with a [kind] field) the first message raises
    [KeyError('type')] in [parse_response], so no payload is returned.
    With the field names of the code (a [LogMsg], then a result message),
    read in two chunks cut anywhere, the call returns [None] and not the
    payload; and without the empty read the loop is still waiting after
    the result message: it has not ended. *)
Lemma scenario_does_not_return_payload :
  let w := Samples.default in
  snd (run "Ping" []
         [[(Stdout, Samples.spec_log ++ NL)]; [(Stdout, Samples.spec_pong)]; [(Stdout, "")]] w)
    <> Returned Samples.pong_payload
  /\ snd (run "Ping" []
         [[(Stdout, Samples.spec_log ++ NL)]; [(Stdout, Samples.spec_pong)]; [(Stdout, "")]] w)
    = Raised (KeyError "type")
  /\ forallb
       (fun selects =>
          match snd (run "FixPlayerData" [] selects w) with
          | Returned JNull => true
          | _ => false
          end)
       (Samples.two_reads (Samples.log_hi ++ NL ++ Samples.fixed_player_data)) = true
  /\ snd (run "FixPlayerData" []
            [[(Stdout, Samples.log_hi ++ NL)]; [(Stdout, Samples.fixed_player_data)]] w)
     = Waiting "".
Proof.
  cbv zeta. split; [vm_compute; discriminate | repeat split; vm_compute; reflexivity].
Qed.

(** The scenario with the field names of the code, cut anywhere into two
    reads: the log line is printed once, the result is kept in
    [fixed_player_data], and [None] is returned when stdout closes. *)
Example scenario_with_code_field_names :
  forallb
    (fun selects =>
       let '(w', _, o) := run "FixPlayerData" [] selects Samples.default in
       match o, Py.dict_get "fixed_player_data" (attrs w'), printed w' with
       | Returned JNull, Some (JDict [("existed", JBool true)]),
         (sys_stdout, [Lit _]) :: (sys_stdout, [Str (JStr "hi"); Lit _]) :: _ => true
       | _, _, _ => false
       end)
    (Samples.two_reads (Samples.log_hi ++ NL ++ Samples.fixed_player_data)) = true.
Proof. vm_compute. reflexivity. Qed.

(** ** The buffer and characters of several bytes *)

(** C7: [combined_stdout] starts empty, each line of a stdout chunk is
    added to it, it is emptied when its content has been parsed and
    handled, and it is kept when the parser rejects the content.  But
    content that is incomplete because the chunk ends inside a character
    of several bytes is not kept for the next chunk: [decode('utf8')]
    raises [UnicodeDecodeError], which the [except JSONDecodeError] does
    not catch, and the session ends with it.  Here a log message is cut
    between the two bytes of a character; read in one chunk the same bytes
    are a message that is handled. *)
Theorem chunk_cut_inside_character_raises :
  let w := Samples.default in
  read_loop Utf8.decode Json.loads ""
    [[(Stdout, Samples.accent_head ++ Samples.accent_tail)]] w =
    (with_printed w
       [(sys_stdout, [Lit INFO_PREFIX]);
        (sys_stdout, [Str (JStr ("caf" ++ String "195" (String "169" ""))); Lit NL])],
     Waiting "")
  /\ feed_line Utf8.decode Json.loads "" Samples.accent_head w =
     (w, inl UnicodeDecodeError)
  /\ read_loop Utf8.decode Json.loads ""
       [[(Stdout, Samples.accent_head)]; [(Stdout, Samples.accent_tail)]] w =
     (w, Raised UnicodeDecodeError).
Proof. cbv zeta. repeat split; vm_compute; reflexivity. Qed.

(** * Further properties of the code *)

(** ** [Wrapper.log] *)

(** What [log] does at an int level, [print] taken to succeed. *)
Lemma log_int (t : text) (z : Z) (w : Wrapper) :
  log t (JInt z) w =
  (if log_level w <? z then w else with_printed w (log_events t z), inr tt).
Proof.
  unfold log, bind, lift, convert_level, get_log_level, ret, Py.num_compare.
  destruct (log_level w <? z) eqn:Hlt.
  - apply Z.ltb_lt in Hlt.
    assert (Hc : (z ?= log_level w) = Gt) by (apply Z.compare_gt_iff; lia).
    rewrite Hc. reflexivity.
  - apply Z.ltb_ge in Hlt.
    assert (Hbody :
      (let level_eq z0 := match Py.num_compare (JInt z) z0 with
                          | inr c => level_is c | inl _ => false end in
       if level_eq TRACE then print_noend sys_stdout [Lit TRACE_PREFIX] ;; print sys_stdout t
       else if level_eq DEBUG then print_noend sys_stdout [Lit DEBUG_PREFIX] ;; print sys_stdout t
       else if level_eq INFO then print_noend sys_stdout [Lit INFO_PREFIX] ;; print sys_stdout t
       else if level_eq WARN then print_noend sys_stdout [Lit WARN_PREFIX] ;; print sys_stdout t
       else if level_eq ERROR then print_noend sys_stderr [Lit ERROR_PREFIX] ;; print sys_stderr t
       else print sys_stdout t) w
      = (with_printed w (log_events t z), inr tt)).
    { cbv zeta. unfold Py.num_compare, level_is, log_events, level_prefix, level_file.
      rewrite !Z.eqb_compare.
      destruct (z ?= TRACE) eqn:E4;
        [apply Z.compare_eq in E4; subst z; unfold with_printed, bind, print, print_noend;
         simpl; rewrite <- app_assoc; reflexivity | |];
      (destruct (z ?= DEBUG) eqn:E3;
        [apply Z.compare_eq in E3; subst z; unfold with_printed, bind, print, print_noend;
         simpl; rewrite <- app_assoc; reflexivity | |]);
      (destruct (z ?= INFO) eqn:E2;
        [apply Z.compare_eq in E2; subst z; unfold with_printed, bind, print, print_noend;
         simpl; rewrite <- app_assoc; reflexivity | |]);
      (destruct (z ?= WARN) eqn:E1;
        [apply Z.compare_eq in E1; subst z; unfold with_printed, bind, print, print_noend;
         simpl; rewrite <- app_assoc; reflexivity | |]);
      (destruct (z ?= ERROR) eqn:E0;
        [apply Z.compare_eq in E0; subst z; unfold with_printed, bind, print, print_noend;
         simpl; rewrite <- app_assoc; reflexivity | |]);
      reflexivity. }
    destruct (z ?= log_level w) eqn:Hc;
      [ exact Hbody | exact Hbody | apply Z.compare_gt_iff in Hc; lia ].
Qed.

(** X1: what [log] does at an int level, for a line that can be written
    (nothing is printed, or it goes to [sys.stderr], or [sys.stdout] can
    encode the text).  A level above the log level prints nothing.
    Otherwise the text is printed, after the prefix of the level when it
    is one of the five; the line goes to [sys.stderr] at ERROR and to
    [sys.stdout] at every other level, and an int that is none of the five
    levels is printed bare.  The call does not raise. *)
Theorem log_at_int_level (t : text) (z : Z) (w : Wrapper) :
  writable t z w = true ->
  log t (JInt z) w =
  (if log_level w <? z then w else with_printed w (log_events t z), inr tt).
Proof. intros _. apply log_int. Qed.

(** A WARN line with an accented letter under the default level, and a
    line with a lone surrogate at a level that is filtered out. *)
Lemma log_at_int_level_witness :
  writable [Lit "caf"; Str (JStr (Utf8.encode 233))] WARN Samples.default = true
  /\ log [Lit "caf"; Str (JStr (Utf8.encode 233))] (JInt WARN) Samples.default =
     (with_printed Samples.default
        [(sys_stdout, [Lit WARN_PREFIX]);
         (sys_stdout, [Lit "caf"; Str (JStr (Utf8.encode 233)); Lit NL])],
      inr tt)
  /\ encodable [Str (JStr (Utf8.encode 55296))] = false
  /\ writable [Str (JStr (Utf8.encode 55296))] DEBUG Samples.default = true
  /\ log [Str (JStr (Utf8.encode 55296))] (JInt DEBUG) Samples.default =
     (Samples.default, inr tt).
Proof.
  split; [reflexivity | split; [| split; [reflexivity | split; [reflexivity|]]]].
  - exact (log_at_int_level [Lit "caf"; Str (JStr (Utf8.encode 233))] WARN
             Samples.default eq_refl).
  - exact (log_at_int_level [Str (JStr (Utf8.encode 55296))] DEBUG
             Samples.default eq_refl).
Defined.

Lemma lower_ascii_idempotent (c : ascii) :
  Py.lower_ascii (Py.lower_ascii c) = Py.lower_ascii c.
Proof. destruct c as [[] [] [] [] [] [] [] []]; reflexivity. Qed.

Lemma lower_idempotent (s : str) : Py.lower (Py.lower s) = Py.lower s.
Proof.
  induction s as [|c s IH]; simpl; [reflexivity|].
  now rewrite lower_ascii_idempotent, IH.
Qed.

(** X2: a level given by an ASCII name.  The name is looked up in lower
    case, so the letter case of the name does not matter; a name of one of
    the five levels gives exactly what the int level gives, and any other
    name raises [KeyError] of the lowered name with nothing printed. *)
Theorem log_at_named_level (t : text) (name : str) (w : Wrapper) :
  ascii_only name = true ->
  log t (JStr name) w = log t (JStr (Py.lower name)) w
  /\ log t (JStr name) w =
     match level_of_name (Py.lower name) LEVEL_CONVERTER with
     | Some z => log t (JInt z) w
     | None => (w, inl (KeyError (Py.lower name)))
     end.
Proof.
  intros _.
  assert (H : forall n, log t (JStr n) w =
                        match level_of_name (Py.lower n) LEVEL_CONVERTER with
                        | Some z => log t (JInt z) w
                        | None => (w, inl (KeyError (Py.lower n)))
                        end).
  { intros n. unfold log at 1, bind at 1, lift at 1, convert_level.
    destruct (level_of_name (Py.lower n) LEVEL_CONVERTER); reflexivity. }
  split; [| apply H].
  rewrite (H name), (H (Py.lower name)), lower_idempotent. reflexivity.
Qed.

(** [WaRn] is WARN, and [Loud] is no level. *)
Lemma log_at_named_level_witness :
  ascii_only "WaRn" = true
  /\ log [Lit "x"] (JStr "WaRn") Samples.default = log [Lit "x"] (JInt WARN) Samples.default
  /\ ascii_only "Loud" = true
  /\ log [Lit "x"] (JStr "Loud") Samples.default = (Samples.default, inl (KeyError "loud")).
Proof.
  split; [reflexivity | split; [| split; [reflexivity|]]].
  - exact (proj2 (log_at_named_level [Lit "x"] "WaRn" Samples.default eq_refl)).
  - exact (proj2 (log_at_named_level [Lit "x"] "Loud" Samples.default eq_refl)).
Defined.

(** ** Values on stdout that are no message *)

(** X3: a line of stdout that is JSON but not an object with a [type]
    (a number, a list, a string, an object without that key) ends the
    session: [response['type']] raises [TypeError] or [KeyError('type')],
    which leaves [send_payload]; nothing is printed for it and the keys
    and reads that follow are not looked at. *)
Theorem value_without_type_ends_session
    (decode : bytes -> option str) (loads : str -> option json)
    (acc chunk : bytes) (s : str) (v : json) (e : exn)
    (keys : list ready) (rest : list (list ready)) (w : Wrapper) :
  is_empty chunk = false ->
  no_linebreak chunk = true ->
  decode (acc ++ chunk) = Some s ->
  loads s = Some v ->
  Py.getitem v "type" = inl e ->
  read_loop decode loads acc (((Stdout, chunk) :: keys) :: rest) w = (w, Raised e)
  /\ (e = TypeError \/ e = KeyError "type").
Proof.
  intros Hne Hnl Hd Hl Hg. split.
  - cbn [read_loop for_keys on_ready]. rewrite Hne.
    rewrite (splitlines_single _ Hnl Hne). cbn [feed_lines].
    unfold bind at 1 2 3. rewrite feed_line_cases, Hd, Hl.
    unfold parse_response, bind, lift. rewrite Hg. reflexivity.
  - unfold Py.getitem in Hg. destruct v; try (left; congruence).
    destruct (Py.dict_get "type" d); [discriminate | right; congruence].
Qed.

(** The number 42 alone on a line, and an empty object. *)
Lemma value_without_type_ends_session_witness :
  is_empty "42" = false /\ no_linebreak "42" = true
  /\ Utf8.decode "42" = Some "42" /\ Json.loads "42" = Some (JInt 42)
  /\ Py.getitem (JInt 42) "type" = inl TypeError
  /\ read_loop Utf8.decode Json.loads "" [[(Stdout, "42"); (Stdout, Samples.log_hi)]]
       Samples.default = (Samples.default, Raised TypeError)
  /\ read_loop Utf8.decode Json.loads "" [[(Stdout, "{}")]] Samples.default
     = (Samples.default, Raised (KeyError "type")).
Proof.
  do 5 (split; [reflexivity|]).
  split.
  - exact (proj1 (value_without_type_ends_session Utf8.decode Json.loads
                    "" "42" "42" (JInt 42) TypeError [(Stdout, Samples.log_hi)] []
                    Samples.default eq_refl eq_refl eq_refl eq_refl eq_refl)).
  - exact (proj1 (value_without_type_ends_session Utf8.decode Json.loads
                    "" "{}" "{}" (JDict []) (KeyError "type") [] []
                    Samples.default eq_refl eq_refl eq_refl eq_refl eq_refl)).
Defined.

(** ** What a session leaves of the wrapper *)

Lemma keeps_level_of_keeps {A} (c : M A) : keeps c -> keeps_level c.
Proof. intros H w. apply H. Qed.

Lemma keeps_level_setattr (name : str) (v : json) : keeps_level (setattr name v).
Proof. intros w. reflexivity. Qed.

Lemma keeps_level_bind {A B} (c : M A) (k : A -> M B) :
  keeps_level c -> (forall a, keeps_level (k a)) -> keeps_level (bind c k).
Proof.
  intros Hc Hk w. unfold bind. specialize (Hc w).
  destruct (c w) as [w1 [e|a]]; simpl in *; [exact Hc|].
  rewrite (Hk a w1). exact Hc.
Qed.

Lemma touches_only_of_keeps {A} (name : str) (c : M A) : keeps c -> touches_only name c.
Proof. intros H w k _. now rewrite (proj1 (H w)). Qed.

Lemma dict_get_set_other (k name : str) (v : json) (d : pydict) :
  k <> name -> Py.dict_get k (Py.dict_set name v d) = Py.dict_get k d.
Proof.
  intros Hne. induction d as [|[k0 v0] d IH]; simpl.
  - destruct (String.eqb_spec k name); [contradiction | reflexivity].
  - destruct (String.eqb_spec name k0) as [->|Hn]; simpl.
    + destruct (String.eqb_spec k k0); [contradiction | reflexivity].
    + now rewrite IH.
Qed.

Lemma touches_only_setattr (name : str) (v : json) : touches_only name (setattr name v).
Proof. intros w k Hk. simpl. now apply dict_get_set_other. Qed.

Lemma touches_only_bind {A B} (name : str) (c : M A) (k : A -> M B) :
  touches_only name c -> (forall a, touches_only name (k a)) ->
  touches_only name (bind c k).
Proof.
  intros Hc Hk w k0 Hne. unfold bind. specialize (Hc w k0 Hne).
  destruct (c w) as [w1 [e|a]]; simpl in *; [exact Hc|].
  rewrite (Hk a w1 k0 Hne). exact Hc.
Qed.

Lemma keeps_app_info (r : pydict) : keeps (mod_status_app_info r).
Proof. unfold mod_status_app_info, log_info. keeps_steps. Qed.

Lemma keeps_core_mods (r : pydict) : keeps (mod_status_core_mods r).
Proof.
  unfold mod_status_core_mods. keeps_steps.
  all: apply keeps_for_each; intros ?; auto with keeps.
Qed.

Lemma keeps_tail (r : pydict) : keeps (mod_status_tail r).
Proof. unfold mod_status_tail. keeps_steps. Qed.

Lemma keeps_unknown (ty : json) (r : pydict) : keeps (handle_unknown ty r).
Proof. unfold handle_unknown. keeps_steps. Qed.

#[local] Hint Resolve keeps_app_info keeps_core_mods keeps_tail keeps_unknown : keeps.

(** A handler that sets its attribute first and then only prints. *)
Ltac touches_handler :=
  apply touches_only_bind;
  [ apply touches_only_setattr
  | intros _; apply touches_only_of_keeps; keeps_steps;
    try (apply keeps_for_each; intros ?; auto with keeps) ].

Lemma touches_handle_ModStatus (r : pydict) : touches_only "mod_status" (handle_ModStatus r).
Proof.
  unfold handle_ModStatus.
  apply touches_only_bind; [| intros _; apply touches_only_of_keeps; auto with keeps].
  unfold mod_status_head, log_info. touches_handler.
Qed.

Lemma touches_handle_Mods (r : pydict) : touches_only "mods" (handle_Mods r).
Proof. unfold handle_Mods, log_info. touches_handler. Qed.

Lemma touches_handle_ModSyncResult (r : pydict) :
  touches_only "mod_sync_result" (handle_ModSyncResult r).
Proof. unfold handle_ModSyncResult, log_info. touches_handler. Qed.

Lemma touches_handle_Patched (r : pydict) : touches_only "patched" (handle_Patched r).
Proof. unfold handle_Patched, log_info. touches_handler. Qed.

Lemma touches_handle_ImportResult (r : pydict) :
  touches_only "import_result" (handle_ImportResult r).
Proof. unfold handle_ImportResult, log_info. touches_handler. Qed.

Lemma touches_handle_FixedPlayerData (r : pydict) :
  touches_only "fixed_player_data" (handle_FixedPlayerData r).
Proof. unfold handle_FixedPlayerData, log_info. touches_handler. Qed.

Lemma touches_handle_DowngradedManifest (r : pydict) :
  touches_only "downgraded_manifest" (handle_DowngradedManifest r).
Proof.
  unfold handle_DowngradedManifest, log_info.
  apply touches_only_bind; [apply touches_only_of_keeps; auto with keeps | intros _].
  apply touches_only_bind; [apply touches_only_of_keeps; auto with keeps | intros v].
  apply touches_only_setattr.
Qed.

(** [parse_response] on a dict that has a [type]. *)
Lemma parse_response_typed (d : pydict) (ty : json) (w : Wrapper) :
  Py.dict_get "type" d = Some ty ->
  parse_response (JDict d) w =
  (let response := Py.dict_del "type" d in
   if Py.eq_str ty "LogMsg" then
     message <- lift (Py.getitem (JDict response) "message") ;;
     level <- lift (Py.getitem (JDict response) "level") ;;
     log [Str message] level
   else
     ll <- get_log_level ;;
     (if INFO <=? ll then print sys_stdout [] else ret tt) ;;
     if Py.eq_str ty "ModStatus" then handle_ModStatus response
     else if Py.eq_str ty "Mods" then handle_Mods response
     else if Py.eq_str ty "ModSyncResult" then handle_ModSyncResult response
     else if Py.eq_str ty "Patched" then handle_Patched response
     else if Py.eq_str ty "ImportResult" then handle_ImportResult response
     else if Py.eq_str ty "FixedPlayerData" then handle_FixedPlayerData response
     else if Py.eq_str ty "DowngradedManifest" then handle_DowngradedManifest response
     else handle_unknown ty response) w.
Proof.
  intros H. unfold parse_response, bind at 1, lift at 1, Py.getitem at 1.
  rewrite H. reflexivity.
Qed.

(** The attribute a response may change is the one of its type. *)
Lemma parse_response_touches (d : pydict) (ty : json) :
  Py.dict_get "type" d = Some ty ->
  match written_attribute ty with
  | Some name => touches_only name (parse_response (JDict d))
  | None => keeps (parse_response (JDict d))
  end.
Proof.
  intros Hty.
  assert (Hpre : forall name (h : M unit), touches_only name h ->
            touches_only name
              (ll <- get_log_level ;;
               (if INFO <=? ll then print sys_stdout [] else ret tt) ;; h)).
  { intros name h Hh.
    apply touches_only_bind; [apply touches_only_of_keeps; auto with keeps | intros ll].
    apply touches_only_bind; [apply touches_only_of_keeps; keeps_steps | intros _].
    exact Hh. }
  assert (Hfrom : forall name (c : M unit),
            touches_only name c ->
            (forall w, parse_response (JDict d) w = c w) ->
            touches_only name (parse_response (JDict d))).
  { intros name c Hc Heq w k Hk. rewrite Heq. now apply Hc. }
  assert (Hkeep : forall (c : M unit),
            keeps c -> (forall w, parse_response (JDict d) w = c w) ->
            keeps (parse_response (JDict d))).
  { intros c Hc Heq w. rewrite Heq. apply Hc. }
  pose proof (fun w => parse_response_typed d ty w Hty) as Heq. cbv zeta in Heq.
  set (r := Py.dict_del "type" d) in *.
  destruct ty as [| b | z | f | s | l | d0];
    try (simpl; simpl in Heq; eapply Hkeep; [| exact Heq];
         keeps_steps).
  unfold written_attribute, attribute_of. unfold Py.eq_str in Heq.
  destruct (String.eqb_spec s "LogMsg") as [->|H0].
  { simpl. eapply Hkeep; [| exact Heq]. keeps_steps. }
  destruct (String.eqb_spec s "ModStatus") as [->|H1].
  { simpl. eapply Hfrom; [| exact Heq]. apply Hpre, touches_handle_ModStatus. }
  destruct (String.eqb_spec s "Mods") as [->|H2].
  { simpl. eapply Hfrom; [| exact Heq]. apply Hpre, touches_handle_Mods. }
  destruct (String.eqb_spec s "ModSyncResult") as [->|H3].
  { simpl. eapply Hfrom; [| exact Heq]. apply Hpre, touches_handle_ModSyncResult. }
  destruct (String.eqb_spec s "Patched") as [->|H4].
  { simpl. eapply Hfrom; [| exact Heq]. apply Hpre, touches_handle_Patched. }
  destruct (String.eqb_spec s "ImportResult") as [->|H5].
  { simpl. eapply Hfrom; [| exact Heq]. apply Hpre, touches_handle_ImportResult. }
  destruct (String.eqb_spec s "FixedPlayerData") as [->|H6].
  { simpl. eapply Hfrom; [| exact Heq]. apply Hpre, touches_handle_FixedPlayerData. }
  destruct (String.eqb_spec s "DowngradedManifest") as [->|H7].
  { simpl. eapply Hfrom; [| exact Heq]. apply Hpre, touches_handle_DowngradedManifest. }
  eapply Hkeep; [| exact Heq]. keeps_steps.
Qed.

(** X4: handling a response changes no attribute of the wrapper but the
    one of its type ([mod_status], [mods], [mod_sync_result], [patched],
    [import_result], [fixed_player_data], [downgraded_manifest]); a
    [LogMsg] or a response of an unknown type changes none.  So a result
    kept from an earlier message is still there after any message of
    another kind, whether the later message is handled to the end or
    raises. *)
Theorem response_changes_only_its_attribute
    (d : pydict) (ty : json) (k : str) (w : Wrapper) :
  Py.dict_get "type" d = Some ty ->
  written_attribute ty <> Some k ->
  Py.dict_get k (attrs (fst (parse_response (JDict d) w))) = Py.dict_get k (attrs w).
Proof.
  intros Hty Hk. pose proof (parse_response_touches d ty Hty) as H.
  destruct (written_attribute ty) as [name|].
  - apply H. congruence.
  - now rewrite (proj1 (H w)).
Qed.

(** A [FixedPlayerData] handled after a [ModStatus]: [mod_status] stays. *)
Lemma response_changes_only_its_attribute_witness :
  let d := Samples.dict_of Samples.fixed_player_data in
  Py.dict_get "type" d = Some (JStr "FixedPlayerData")
  /\ written_attribute (JStr "FixedPlayerData") <> Some "mod_status"
  /\ Py.dict_get "mod_status" (attrs Cases.with_mod_status) <> None
  /\ Py.dict_get "mod_status" (attrs (fst (parse_response (JDict d) Cases.with_mod_status)))
     = Py.dict_get "mod_status" (attrs Cases.with_mod_status).
Proof.
  cbv zeta.
  assert (H1 : Py.dict_get "type" (Samples.dict_of Samples.fixed_player_data)
               = Some (JStr "FixedPlayerData")) by reflexivity.
  assert (H2 : written_attribute (JStr "FixedPlayerData") <> Some "mod_status")
    by (vm_compute; discriminate).
  split; [exact H1 | split; [exact H2 | split; [vm_compute; discriminate|]]].
  exact (response_changes_only_its_attribute _ _ _ Cases.with_mod_status H1 H2).
Defined.

(** X5: a response of a type the wrapper has no branch for does not end
    the session: [parse_response] returns normally, sets no attribute, and
    prints the blank line (log level at least INFO), the line
    [Response type ... has not been implemented!] on [sys.stderr] (at
    least ERROR) and the DEBUG line with the response (at least DEBUG). *)
Theorem unknown_type_is_reported (d : pydict) (ty : json) (w : Wrapper) :
  Py.dict_get "type" d = Some ty ->
  known_type ty = false ->
  parse_response (JDict d) w =
  (with_printed w (unknown_type_events (log_level w) ty (Py.dict_del "type" d)), inr tt).
Proof.
  intros Hty Hk. rewrite (parse_response_typed d ty w Hty). cbv zeta.
  unfold known_type in Hk.
  repeat (apply orb_false_iff in Hk; destruct Hk as [Hk ?]).
  repeat match goal with H : Py.eq_str ty _ = false |- _ => rewrite H; clear H end.
  unfold handle_unknown, unknown_type_events.
  unfold bind at 1, get_log_level at 1. unfold bind at 1.
  set (r := Py.dict_del "type" d).
  assert (Hblank :
    (if INFO <=? log_level w then print sys_stdout [] else ret tt) w =
    (with_printed w (if INFO <=? log_level w then [(sys_stdout, [Lit NL])] else []), inr tt)).
  { destruct (INFO <=? log_level w); [reflexivity|].
    unfold ret. now rewrite with_printed_nil. }
  rewrite Hblank. unfold bind. rewrite log_int. cbn [log_level with_printed].
  rewrite (Z.ltb_antisym ERROR).
  destruct (ERROR <=? log_level w); cbn [negb];
    rewrite log_int; cbn [log_level with_printed];
    rewrite (Z.ltb_antisym DEBUG);
    destruct (DEBUG <=? log_level w); cbn [negb];
    rewrite ?with_printed_app, ?app_nil_r; reflexivity.
Qed.

(** A [Progress] message at the default log level: the blank line and the
    ERROR line, no exception. *)
Lemma unknown_type_is_reported_witness :
  Py.dict_get "type" Cases.progress = Some (JStr "Progress")
  /\ known_type (JStr "Progress") = false
  /\ parse_response (JDict Cases.progress) Samples.default =
     (with_printed Samples.default
        [(sys_stdout, [Lit NL]);
         (sys_stderr, [Lit ERROR_PREFIX]);
         (sys_stderr, [Lit "Response type "; Str (JStr "Progress");
                       Lit " has not been implemented!"; Lit NL])],
      inr tt).
Proof.
  split; [reflexivity | split; [reflexivity|]].
  exact (unknown_type_is_reported Cases.progress (JStr "Progress") Samples.default
           eq_refl eq_refl).
Defined.

(** ** The log level through a session *)

Ltac level_steps :=
  repeat first
    [ solve [apply keeps_level_of_keeps; auto with keeps]
    | apply keeps_level_setattr
    | apply keeps_level_bind; [| intros ?]
    | match goal with
      | |- keeps_level (if ?b then _ else _) => destruct b
      | |- keeps_level (match ?x with _ => _ end) => destruct x
      | |- keeps_level (let '(_, _) := ?x in _) => destruct x
      end ].

Lemma keeps_level_for_each (body : json -> M unit) (l : list json) :
  (forall x, keeps_level (body x)) -> keeps_level (for_each body l).
Proof.
  intros Hb. induction l as [|x l IH]; simpl.
  - apply keeps_level_of_keeps, keeps_ret.
  - apply keeps_level_bind; [apply Hb | intros _; exact IH].
Qed.

Lemma keeps_level_parse_response (response : json) : keeps_level (parse_response response).
Proof.
  unfold parse_response.
  apply keeps_level_bind; [apply keeps_level_of_keeps; auto with keeps | intros ty].
  destruct response; try solve [apply keeps_level_of_keeps; auto with keeps].
  unfold handle_ModStatus, mod_status_head, handle_Mods, handle_ModSyncResult,
    handle_Patched, handle_ImportResult, handle_FixedPlayerData,
    handle_DowngradedManifest, log_info.
  level_steps.
  all: apply keeps_level_for_each; intros ?; apply keeps_level_of_keeps; auto with keeps.
Qed.

Section Level.

Variable decode : bytes -> option str.
Variable loads : str -> option json.

Lemma keeps_level_feed_lines (lines : list bytes) (acc : bytes) :
  keeps_level (feed_lines decode loads acc lines).
Proof.
  revert acc. induction lines as [|l lines IH]; intros acc; simpl.
  - apply keeps_level_of_keeps, keeps_ret.
  - apply keeps_level_bind; [| intros acc'; apply IH].
    unfold feed_line. destruct (decode (acc ++ l)) as [s|];
      [| apply keeps_level_of_keeps, keeps_raise].
    destruct (loads s) as [v|]; [| apply keeps_level_of_keeps, keeps_ret].
    apply keeps_level_bind; [apply keeps_level_parse_response |].
    intros _. apply keeps_level_of_keeps, keeps_ret.
Qed.

Lemma keeps_level_for_keys (keys : list ready) (acc : bytes) :
  keeps_level (for_keys decode loads acc keys).
Proof.
  revert acc. induction keys as [|[s chunk] keys IH]; intros acc; simpl.
  - apply keeps_level_of_keeps, keeps_ret.
  - apply keeps_level_bind.
    + unfold on_ready. destruct (is_empty chunk);
        [apply keeps_level_of_keeps, keeps_ret|].
      destruct s.
      * apply keeps_level_bind; [apply keeps_level_feed_lines|].
        intros ?. apply keeps_level_of_keeps, keeps_ret.
      * destruct (decode chunk); apply keeps_level_of_keeps; keeps_steps.
    + intros [acc'|]; [apply IH | apply keeps_level_of_keeps, keeps_ret].
Qed.

Lemma read_loop_keeps_level (selects : list (list ready)) (acc : bytes) (w : Wrapper) :
  log_level (fst (read_loop decode loads acc selects w)) = log_level w.
Proof.
  revert acc w. induction selects as [|keys selects IH]; intros acc w; simpl.
  - reflexivity.
  - pose proof (keeps_level_for_keys keys acc w) as H.
    destruct (for_keys decode loads acc keys w) as [w1 [e|[acc1|]]]; simpl in *;
      try exact H.
    rewrite IH. exact H.
Qed.

End Level.

(** X6: a session never changes the log level of the wrapper: whatever the
    worker writes on its two pipes and however the call ends, the level
    set from [-v] and [-q] is the one in force afterwards. *)
Theorem session_keeps_log_level
    (decode : bytes -> option str) (loads : str -> option json)
    (payload_type : str) (kwargs : pydict) (selects : list (list ready)) (w : Wrapper) :
  log_level (fst (fst (send_payload decode loads payload_type kwargs selects w)))
  = log_level w.
Proof.
  unfold send_payload.
  set (w0 := fst (log _ _ w)).
  assert (H0 : log_level w0 = log_level w) by (subst w0; apply keeps_log).
  pose proof (read_loop_keeps_level decode loads selects "" w0) as H.
  destruct (read_loop decode loads "" selects w0) as [w1 o]. simpl in *. congruence.
Qed.

(** ** The payload *)

Lemma dict_get_fold_set (kvs : pydict) (d : pydict) (k : str) :
  NoDup (map fst kvs) ->
  Py.dict_get k (fold_left (fun d kv => Py.dict_set (fst kv) (snd kv) d) kvs d) =
  match Py.dict_get k kvs with
  | Some v => Some v
  | None => Py.dict_get k d
  end.
Proof.
  revert d. induction kvs as [|[k0 v0] kvs IH]; intros d Hnd; simpl.
  - reflexivity.
  - inversion Hnd as [|? ? Hnotin Hnd']; subst.
    rewrite (IH _ Hnd').
    destruct (String.eqb_spec k k0) as [->|Hne].
    + assert (Hnone : Py.dict_get k0 kvs = None).
      { clear -Hnotin. induction kvs as [|[k1 v1] kvs IH]; simpl; [reflexivity|].
        simpl in Hnotin. destruct (String.eqb_spec k0 k1) as [->|];
          [exfalso; apply Hnotin; now left | apply IH; tauto]. }
      rewrite Hnone. apply dict_get_set_same.
    + destruct (Py.dict_get k kvs); [reflexivity|].
      now apply dict_get_set_other.
Qed.

(** X7: the payload a session sends.  Whatever the worker then does,
    exactly one thing has been written to its stdin, the serialized
    payload, and stdin is closed.  The payload holds every keyword
    argument with its value and, under [type], the payload type, unless a
    keyword argument named [type] is given, which then takes its place. *)
Theorem payload_written_once
    (decode : bytes -> option str) (loads : str -> option json)
    (payload_type : str) (kwargs : pydict) (selects : list (list ready)) (w : Wrapper) :
  NoDup (map fst kwargs) ->
  let p := snd (fst (send_payload decode loads payload_type kwargs selects w)) in
  let payload := Py.dict_merge [("type", JStr payload_type)] kwargs in
  stdin_written p = [Dumps (JDict payload)]
  /\ stdin_closed p = true
  /\ forall k, Py.dict_get k payload =
               match Py.dict_get k kwargs with
               | Some v => Some v
               | None => if String.eqb k "type" then Some (JStr payload_type) else None
               end.
Proof.
  intros Hnd. cbv zeta. unfold send_payload.
  destruct (read_loop decode loads "" selects _) as [w1 o].
  split; [reflexivity | split; [reflexivity|]].
  intros k. unfold Py.dict_merge. rewrite (dict_get_fold_set _ _ _ Hnd). reflexivity.
Qed.

(** [QuickFix] with its two options. *)
Lemma payload_written_once_witness :
  let kwargs := [("override_core_mod_url", JNull); ("wipe_existing_mods", JBool true)] in
  NoDup (map fst kwargs)
  /\ stdin_written (snd (fst (run "QuickFix" kwargs [[(Stdout, "")]] Samples.default)))
     = [Dumps (JDict [("type", JStr "QuickFix"); ("override_core_mod_url", JNull);
                      ("wipe_existing_mods", JBool true)])].
Proof.
  cbv zeta.
  assert (Hnd : NoDup (map fst [("override_core_mod_url", JNull);
                               ("wipe_existing_mods", JBool true)])).
  { simpl. repeat constructor; simpl; intuition discriminate. }
  split; [exact Hnd|].
  exact (proj1 (payload_written_once Utf8.decode Json.loads "QuickFix" _
                  [[(Stdout, "")]] Samples.default Hnd)).
Defined.

(** ** Line ends *)

Lemma splitlines_only_linebreaks (n : nat) (s : bytes) :
  (String.length s <= n)%nat -> only_linebreaks s = true ->
  Forall (fun l => l = "") (splitlines_from "" s).
Proof.
  revert s. induction n as [|n IH]; intros s Hlen Hs.
  - destruct s; [constructor | simpl in Hlen; lia].
  - destruct s as [|c rest]; [constructor|].
    simpl in Hs, Hlen. apply andb_true_iff in Hs as [Hc Hrest].
    simpl. destruct (Ascii.eqb c LF) eqn:Hlf.
    + constructor; [reflexivity | apply IH; [lia | exact Hrest]].
    + simpl in Hc. rewrite Hc.
      destruct rest as [|c2 rest2]; [repeat constructor|].
      simpl in Hrest, Hlen. apply andb_true_iff in Hrest as [Hc2 Hrest2].
      destruct (Ascii.eqb c2 LF) eqn:Hlf2.
      * constructor; [reflexivity | apply IH; [lia | exact Hrest2]].
      * constructor; [reflexivity|]. apply IH; [simpl; lia|].
        cbn [only_linebreaks]. apply andb_true_iff.
        split; [rewrite Hlf2; exact Hc2 | exact Hrest2].
Qed.

Section BlankLines.

Variable decode : bytes -> option str.
Variable loads : str -> option json.

(** Empty lines leave a buffer that the parser rejects as it is. *)
Lemma feed_empty_lines (lines : list bytes) (acc : bytes) (w : Wrapper) :
  rejected decode loads acc = true ->
  Forall (fun l => l = "") lines ->
  feed_lines decode loads acc lines w = (w, inr acc).
Proof.
  intros Hrej Hall. induction Hall as [|l lines Hl _ IH]; [reflexivity|].
  subst l. cbn [feed_lines].
  assert (H : feed_line decode loads acc "" w = (w, inr acc)).
  { rewrite feed_line_rejected; rewrite str_app_nil_r; [reflexivity | exact Hrej]. }
  rewrite (bind_ok _ _ _ _ _ H). exact IH.
Qed.

End BlankLines.

(** X8: a stdout chunk made of line ends only (a keep-alive new line, the
    LF of a CR LF that was cut from its CR) changes nothing when the
    buffer is empty or holds content the parser has rejected: the buffer
    is parsed again for each empty line, rejected again and kept, nothing
    is handled or printed, and the loop goes on. *)
Theorem blank_chunk_changes_nothing
    (decode : bytes -> option str) (loads : str -> option json)
    (acc chunk : bytes) (rest : list (list ready)) (w : Wrapper) :
  rejected decode loads acc = true ->
  is_empty chunk = false ->
  only_linebreaks chunk = true ->
  read_loop decode loads acc ([(Stdout, chunk)] :: rest) w =
  read_loop decode loads acc rest w.
Proof.
  intros Hrej Hne Honly. rewrite read_loop_stdout by exact Hne.
  unfold splitlines.
  rewrite (feed_empty_lines decode loads _ acc w Hrej
             (splitlines_only_linebreaks _ chunk (le_n _) Honly)).
  reflexivity.
Qed.

(** An empty buffer, a chunk CR LF LF, then a message. *)
Lemma blank_chunk_changes_nothing_witness :
  let chunk := String CR (String LF (String LF "")) in
  rejected Utf8.decode Json.loads "" = true
  /\ is_empty chunk = false
  /\ only_linebreaks chunk = true
  /\ read_loop Utf8.decode Json.loads ""
       [[(Stdout, chunk)]; [(Stdout, Samples.log_hi)]] Samples.default =
     read_loop Utf8.decode Json.loads "" [[(Stdout, Samples.log_hi)]] Samples.default.
Proof.
  cbv zeta. do 3 (split; [reflexivity|]).
  exact (blank_chunk_changes_nothing Utf8.decode Json.loads ""
           (String CR (String LF (String LF "")))
           [[(Stdout, Samples.log_hi)]] Samples.default eq_refl eq_refl eq_refl).
Defined.

Lemma splitlines_from_crlf (m line rest : bytes) :
  no_linebreak m = true ->
  splitlines_from line (m ++ String CR (String LF rest)) =
  (line ++ m) :: splitlines_from "" rest.
Proof.
  revert line. induction m as [|c m IH]; intros line H.
  - simpl. now rewrite str_app_nil_r.
  - apply no_linebreak_cons in H as (Hlf & Hcr & Hm).
    simpl. rewrite Hlf, Hcr, (IH _ Hm), snoc_app. reflexivity.
Qed.

Lemma splitlines_from_cr (m line rest : bytes) :
  no_linebreak m = true ->
  match rest with String c _ => Ascii.eqb c LF = false | EmptyString => True end ->
  splitlines_from line (m ++ String CR rest) = (line ++ m) :: splitlines_from "" rest.
Proof.
  revert line. induction m as [|c m IH]; intros line H Hrest.
  - simpl. rewrite str_app_nil_r. destruct rest as [|c2 rest2]; [reflexivity|].
    now rewrite Hrest.
  - apply no_linebreak_cons in H as (Hlf & Hcr & Hm).
    simpl. rewrite Hlf, Hcr, (IH _ Hm Hrest), snoc_app. reflexivity.
Qed.

Lemma splitlines_join_crlf (msgs : list bytes) :
  forallb no_linebreak msgs = true ->
  splitlines (join (map (fun m => m ++ CRLF) msgs)) = msgs.
Proof.
  induction msgs as [|m msgs IH]; intros H; [reflexivity|].
  simpl in H. apply andb_true_iff in H as [Hm H].
  cbn [map join].
  replace ((m ++ CRLF) ++ join (map (fun m => m ++ CRLF) msgs))
    with (m ++ String CR (String LF (join (map (fun m => m ++ CRLF) msgs))))
    by (rewrite str_app_assoc; reflexivity).
  unfold splitlines. rewrite (splitlines_from_crlf _ _ _ Hm).
  fold (splitlines (join (map (fun m => m ++ CRLF) msgs))). now rewrite (IH H).
Qed.

Lemma splitlines_join_cr (msgs : list bytes) :
  forallb no_linebreak msgs = true ->
  splitlines (join (map (fun m => m ++ CR_only) msgs)) = msgs.
Proof.
  induction msgs as [|m msgs IH]; intros H; [reflexivity|].
  simpl in H. apply andb_true_iff in H as [Hm H].
  cbn [map join].
  replace ((m ++ CR_only) ++ join (map (fun m => m ++ CR_only) msgs))
    with (m ++ String CR (join (map (fun m => m ++ CR_only) msgs)))
    by (rewrite str_app_assoc; reflexivity).
  unfold splitlines. rewrite (splitlines_from_cr _ _ _ Hm).
  - fold (splitlines (join (map (fun m => m ++ CR_only) msgs))). now rewrite (IH H).
  - destruct msgs as [|m2 msgs]; [exact I|].
    cbn [map join]. simpl in H. apply andb_true_iff in H as [Hm2 _].
    destruct m2 as [|c m2]; [reflexivity|].
    apply no_linebreak_cons in Hm2 as (Hlf & _). exact Hlf.
Qed.

(** X9: the kind of line end does not matter.  A chunk of messages each
    ended by CR LF, or each by a lone CR, is handled exactly as the same
    messages each ended by LF. *)
Theorem line_end_kind_does_not_matter
    (decode : bytes -> option str) (loads : str -> option json)
    (msgs : list bytes) (acc : bytes) (w : Wrapper) :
  forallb no_linebreak msgs = true ->
  msgs <> [] ->
  let lf := read_loop decode loads acc [[(Stdout, join (map (fun m => m ++ NL) msgs))]] w in
  read_loop decode loads acc [[(Stdout, join (map (fun m => m ++ CRLF) msgs))]] w = lf
  /\ read_loop decode loads acc [[(Stdout, join (map (fun m => m ++ CR_only) msgs))]] w = lf.
Proof.
  intros Hnl Hne. cbv zeta.
  assert (Hnonempty : forall term, is_empty term = false ->
            is_empty (join (map (fun m => m ++ term) msgs)) = false).
  { intros term Ht. destruct msgs as [|m msgs]; [contradiction|].
    cbn [map join]. destruct m; [destruct term; [discriminate | reflexivity] | reflexivity]. }
  rewrite !read_loop_stdout by (apply Hnonempty; reflexivity).
  rewrite (splitlines_join_lf msgs Hnl), (splitlines_join_crlf msgs Hnl),
    (splitlines_join_cr msgs Hnl).
  split; reflexivity.
Qed.

(** Two messages ended by CR LF, by CR and by LF. *)
Lemma line_end_kind_does_not_matter_witness :
  let msgs := [Samples.log_hi; Samples.fixed_player_data] in
  let w := Samples.default in
  forallb no_linebreak msgs = true
  /\ msgs <> []
  /\ read_loop Utf8.decode Json.loads "" [[(Stdout, join (map (fun m => m ++ CRLF) msgs))]] w
     = read_loop Utf8.decode Json.loads "" [[(Stdout, join (map (fun m => m ++ NL) msgs))]] w
  /\ read_loop Utf8.decode Json.loads "" [[(Stdout, join (map (fun m => m ++ CR_only) msgs))]] w
     = read_loop Utf8.decode Json.loads "" [[(Stdout, join (map (fun m => m ++ NL) msgs))]] w.
Proof.
  cbv zeta.
  assert (H1 : forallb no_linebreak [Samples.log_hi; Samples.fixed_player_data] = true)
    by reflexivity.
  assert (H2 : [Samples.log_hi; Samples.fixed_player_data] <> []) by discriminate.
  split; [exact H1 | split; [exact H2|]].
  exact (line_end_kind_does_not_matter Utf8.decode Json.loads _ "" Samples.default H1 H2).
Defined.

(** ** What stderr cannot change *)

Lemma same_object_refl (w : Wrapper) : same_object w w.
Proof. split; reflexivity. Qed.

Lemma same_object_trans (w1 w2 w3 : Wrapper) :
  same_object w1 w2 -> same_object w2 w3 -> same_object w1 w3.
Proof. intros [H1 H2] [H3 H4]. split; congruence. Qed.

Lemma same_object_printed (w : Wrapper) (events : list (file * text)) :
  same_object (with_printed w events) w.
Proof. split; reflexivity. Qed.

Lemma blind_ret {A} (a : A) : blind (ret a).
Proof. intros w1 w2 H. split; [exact H | reflexivity]. Qed.

Lemma blind_raise {A} (e : exn) : blind (@raise A e).
Proof. intros w1 w2 H. split; [exact H | reflexivity]. Qed.

Lemma blind_lift {A} (r : exn + A) : blind (lift r).
Proof. destruct r; [apply blind_raise | apply blind_ret]. Qed.

Lemma blind_get_log_level : blind get_log_level.
Proof. intros w1 w2 H. split; [exact H | simpl; f_equal; apply H]. Qed.

Lemma blind_print_noend (f : file) (t : text) : blind (print_noend f t).
Proof. intros w1 w2 H. split; [exact H | reflexivity]. Qed.

Lemma blind_print (f : file) (t : text) : blind (print f t).
Proof. apply blind_print_noend. Qed.

Lemma blind_setattr (name : str) (v : json) : blind (setattr name v).
Proof.
  intros w1 w2 [Hl Ha]. split; [| reflexivity].
  split; simpl; [exact Hl | now rewrite Ha].
Qed.

Lemma blind_bind {A B} (c : M A) (k : A -> M B) :
  blind c -> (forall a, blind (k a)) -> blind (bind c k).
Proof.
  intros Hc Hk w1 w2 H. unfold bind. destruct (Hc w1 w2 H) as [Hs Hr].
  destruct (c w1) as [w1' [e1|a1]], (c w2) as [w2' [e2|a2]]; simpl in *;
    try discriminate.
  - split; [exact Hs | congruence].
  - injection Hr as <-. now apply Hk.
Qed.

Create HintDb blind.

#[local] Hint Resolve blind_ret blind_raise blind_lift blind_get_log_level
  blind_print_noend blind_print blind_setattr : blind.

Ltac blind_steps :=
  repeat first
    [ solve [auto with blind]
    | apply blind_bind; [| intros ?]
    | match goal with
      | |- blind (if ?b then _ else _) => destruct b
      | |- blind (match ?x with _ => _ end) => destruct x
      | |- blind (let '(_, _) := ?x in _) => destruct x
      end ].

Lemma blind_log (t : text) (level : json) : blind (log t level).
Proof. unfold log. blind_steps. Qed.

#[local] Hint Resolve blind_log : blind.

Lemma blind_for_each (body : json -> M unit) (l : list json) :
  (forall x, blind (body x)) -> blind (for_each body l).
Proof.
  intros Hb. induction l as [|x l IH]; simpl; [apply blind_ret|].
  apply blind_bind; [apply Hb | intros _; exact IH].
Qed.

Lemma blind_log_mod (mod_ : json) : blind (log_mod mod_).
Proof. unfold log_mod, log_info. blind_steps. Qed.

#[local] Hint Resolve blind_log_mod : blind.

Lemma blind_parse_response (response : json) : blind (parse_response response).
Proof.
  unfold parse_response.
  apply blind_bind; [auto with blind | intros ty].
  destruct response; try solve [auto with blind].
  unfold handle_ModStatus, mod_status_head, mod_status_tail, mod_status_app_info,
    mod_status_core_mods, handle_Mods, handle_ModSyncResult, handle_Patched,
    handle_ImportResult, handle_FixedPlayerData, handle_DowngradedManifest,
    handle_unknown, log_installed_mods, for_in, log_info.
  blind_steps.
  all: apply blind_for_each; intros ?; auto with blind.
Qed.

Section Diagnostics.

Variable decode : bytes -> option str.
Variable loads : str -> option json.

Lemma blind_feed_lines (lines : list bytes) (acc : bytes) :
  blind (feed_lines decode loads acc lines).
Proof.
  revert acc. induction lines as [|l lines IH]; intros acc; simpl.
  - apply blind_ret.
  - apply blind_bind; [| intros acc'; apply IH].
    unfold feed_line. destruct (decode (acc ++ l)) as [s|]; [| apply blind_raise].
    destruct (loads s) as [v|]; [| apply blind_ret].
    apply blind_bind; [apply blind_parse_response | intros _; apply blind_ret].
Qed.

(** A key that is not a stderr chunk is handled without a look at what
    has been printed. *)
Lemma blind_on_ready (acc : bytes) (key : ready) :
  is_diagnostic key = false -> blind (on_ready decode loads acc key).
Proof.
  destruct key as [[|] chunk]; unfold on_ready, is_diagnostic; intros H.
  - destruct (is_empty chunk); [apply blind_ret|].
    apply blind_bind; [apply blind_feed_lines | intros ?; apply blind_ret].
  - apply negb_false_iff in H. rewrite H. apply blind_ret.
Qed.

Lemma for_keys_without_diagnostics (keys : list ready) (acc : bytes) (w1 w2 : Wrapper) :
  diagnostics_decode decode keys = true ->
  same_object w1 w2 ->
  same_object (fst (for_keys decode loads acc keys w1))
              (fst (for_keys decode loads acc (without_diagnostics keys) w2))
  /\ snd (for_keys decode loads acc keys w1)
     = snd (for_keys decode loads acc (without_diagnostics keys) w2).
Proof.
  revert acc w1 w2. induction keys as [|key keys IH]; intros acc w1 w2 Hd Hs.
  - split; [exact Hs | reflexivity].
  - simpl in Hd. apply andb_true_iff in Hd as [Hk Hd].
    unfold without_diagnostics. cbn [filter].
    destruct (is_diagnostic key) eqn:Hdiag; cbn [negb].
    + destruct key as [[|] chunk]; [discriminate|].
      unfold is_diagnostic in Hdiag. apply negb_true_iff in Hdiag.
      simpl in Hk. destruct (decode chunk) as [t|] eqn:Hdec; [|discriminate].
      cbn [for_keys].
      rewrite (bind_ok _ _ _ _ _ (on_ready_stderr decode loads acc chunk t w1 Hdiag Hdec)).
      apply IH; [exact Hd|].
      apply (same_object_trans _ w1); [apply same_object_printed | exact Hs].
    + cbn [for_keys]. unfold bind.
      destruct (blind_on_ready acc key Hdiag w1 w2 Hs) as [Hs' Hr].
      destruct (on_ready decode loads acc key w1) as [w1' [e1|[a1|]]],
               (on_ready decode loads acc key w2) as [w2' [e2|[a2|]]];
        simpl in *; try discriminate; try (split; [exact Hs' | exact Hr]).
      injection Hr as <-. apply IH; assumption.
Qed.

Lemma read_loop_without_diagnostics (selects : list (list ready)) (acc : bytes)
    (w1 w2 : Wrapper) :
  forallb (diagnostics_decode decode) selects = true ->
  same_object w1 w2 ->
  same_object (fst (read_loop decode loads acc selects w1))
              (fst (read_loop decode loads acc (map without_diagnostics selects) w2))
  /\ snd (read_loop decode loads acc selects w1)
     = snd (read_loop decode loads acc (map without_diagnostics selects) w2).
Proof.
  revert acc w1 w2. induction selects as [|keys selects IH]; intros acc w1 w2 Hd Hs.
  - split; [exact Hs | reflexivity].
  - simpl in Hd. apply andb_true_iff in Hd as [Hk Hd]. cbn [map read_loop].
    destruct (for_keys_without_diagnostics keys acc w1 w2 Hk Hs) as [Hs' Hr].
    destruct (for_keys decode loads acc keys w1) as [w1' [e1|[a1|]]],
             (for_keys decode loads acc (without_diagnostics keys) w2) as [w2' [e2|[a2|]]];
      simpl in *; try discriminate.
    + injection Hr as <-. split; [exact Hs' | reflexivity].
    + injection Hr as <-. apply IH; assumption.
    + split; [exact Hs' | reflexivity].
Qed.

End Diagnostics.

(** X10: what the worker writes on stderr cannot change what a session
    does with stdout.  When every stderr chunk is text, the session with
    the stderr chunks and the session without them end the same way (the
    same return, the same exception, or waiting with the same buffer) and
    leave the same attributes and log level in the wrapper, wherever the
    stderr chunks fall between the stdout ones; they differ only in the
    lines printed. *)
Theorem stderr_does_not_change_the_session
    (decode : bytes -> option str) (loads : str -> option json)
    (selects : list (list ready)) (acc : bytes) (w : Wrapper) :
  forallb (diagnostics_decode decode) selects = true ->
  let noisy := read_loop decode loads acc selects w in
  let silent := read_loop decode loads acc (map without_diagnostics selects) w in
  snd noisy = snd silent /\ same_object (fst noisy) (fst silent).
Proof.
  intros H. cbv zeta.
  destruct (read_loop_without_diagnostics decode loads selects acc w w H
              (same_object_refl w)) as [Hs Hr].
  split; assumption.
Qed.

(** A result message in two chunks with a stderr chunk in between. *)
Lemma stderr_does_not_change_the_session_witness :
  let selects :=
    [[(Stdout, take 9 Samples.fixed_player_data); (Stderr, "warning: slow")];
     [(Stderr, "still here"); (Stdout, drop 9 Samples.fixed_player_data)]] in
  let noisy := read_loop Utf8.decode Json.loads "" selects Samples.default in
  let silent := read_loop Utf8.decode Json.loads ""
                  [[(Stdout, take 9 Samples.fixed_player_data)];
                   [(Stdout, drop 9 Samples.fixed_player_data)]] Samples.default in
  forallb (diagnostics_decode Utf8.decode) selects = true
  /\ snd noisy = Waiting ""
  /\ snd noisy = snd silent /\ same_object (fst noisy) (fst silent).
Proof.
  cbv zeta. split; [reflexivity | split; [reflexivity|]].
  exact (stderr_does_not_change_the_session Utf8.decode Json.loads
           [[(Stdout, take 9 Samples.fixed_player_data); (Stderr, "warning: slow")];
            [(Stderr, "still here"); (Stdout, drop 9 Samples.fixed_player_data)]]
           "" Samples.default eq_refl).
Defined.

(** ** The order of versions *)

Section Lexicographic.

Variable A : Type.
Variable cmp : A -> A -> comparison.
Hypothesis cmp_eq : forall x y, cmp x y = Eq -> x = y.
Hypothesis cmp_antisym : forall x y, cmp y x = CompOpp (cmp x y).
Hypothesis cmp_trans : forall x y z, cmp x y = Lt -> cmp y z = Lt -> cmp x z = Lt.

Lemma list_compare_eq (a b : list A) : list_compare cmp a b = Eq -> a = b.
Proof.
  revert b. induction a as [|x a IH]; intros [|y b] H; simpl in H;
    try discriminate; [reflexivity|].
  destruct (cmp x y) eqn:E; try discriminate.
  apply cmp_eq in E. subst y. f_equal. now apply IH.
Qed.

Lemma list_compare_antisym (a b : list A) :
  list_compare cmp b a = CompOpp (list_compare cmp a b).
Proof.
  revert b. induction a as [|x a IH]; intros [|y b]; simpl; try reflexivity.
  rewrite (cmp_antisym x y). destruct (cmp x y); simpl; auto.
Qed.

Lemma list_compare_trans (a b c : list A) :
  list_compare cmp a b = Lt -> list_compare cmp b c = Lt -> list_compare cmp a c = Lt.
Proof.
  revert b c. induction a as [|x a IH]; intros [|y b] [|z c] H1 H2; simpl in *;
    try discriminate; try reflexivity.
  destruct (cmp x y) eqn:E1; try discriminate.
  - apply cmp_eq in E1. subst y.
    destruct (cmp x z); try discriminate; [now apply (IH b c) | reflexivity].
  - destruct (cmp y z) eqn:E2; try discriminate.
    + apply cmp_eq in E2. subst z. now rewrite E1.
    + now rewrite (cmp_trans _ _ _ E1 E2).
Qed.

End Lexicographic.

Lemma ascii_compare_trans (x y z : ascii) :
  Ascii.compare x y = Lt -> Ascii.compare y z = Lt -> Ascii.compare x z = Lt.
Proof.
  unfold Ascii.compare. rewrite !N.compare_lt_iff. apply N.lt_trans.
Qed.

Lemma string_compare_trans (a b c : string) :
  String.compare a b = Lt -> String.compare b c = Lt -> String.compare a c = Lt.
Proof.
  revert b c. induction a as [|x a IH]; intros [|y b] [|z c] H1 H2; simpl in *;
    try discriminate; try reflexivity.
  destruct (Ascii.compare x y) eqn:E1; try discriminate.
  - apply Ascii.compare_eq_iff in E1. subst y.
    destruct (Ascii.compare x z); try discriminate; [now apply (IH b c) | reflexivity].
  - destruct (Ascii.compare y z) eqn:E2; try discriminate.
    + apply Ascii.compare_eq_iff in E2. subst z. now rewrite E1.
    + now rewrite (ascii_compare_trans _ _ _ E1 E2).
Qed.

Lemma string_compare_antisym (x y : string) :
  String.compare y x = CompOpp (String.compare x y).
Proof. apply String.compare_antisym. Qed.

Lemma key_lt_trans (u v x : str) :
  key_lt u v = true -> key_lt v x = true -> key_lt u x = true.
Proof.
  unfold key_lt. intros H1 H2.
  destruct (list_compare String.compare (version_key u) (version_key v)) eqn:E1;
    try discriminate.
  destruct (list_compare String.compare (version_key v) (version_key x)) eqn:E2;
    try discriminate.
  now rewrite (list_compare_trans _ String.compare String.compare_eq_iff
                 string_compare_trans _ _ _ E1 E2).
Qed.

Lemma key_lt_asym (u v : str) : key_lt u v = true -> key_lt v u = false.
Proof.
  unfold key_lt. intros H.
  rewrite (list_compare_antisym _ String.compare string_compare_antisym).
  destruct (list_compare String.compare (version_key u) (version_key v));
    try discriminate; reflexivity.
Qed.

Lemma key_lt_irrefl (u : str) : key_lt u u = false.
Proof.
  destruct (key_lt u u) eqn:E; [| reflexivity].
  pose proof (key_lt_asym _ _ E). congruence.
Qed.

(** ** The sort of the supported versions *)

Lemma insert_version_perm (x : str) (l : list str) :
  Permutation (x :: l) (insert_version x l).
Proof.
  induction l as [|y l IH]; simpl; [reflexivity|].
  destruct (key_lt x y); [reflexivity|].
  rewrite perm_swap. now constructor.
Qed.

Lemma insert_version_sorted (x : str) (l : list str) :
  StronglySorted key_le l -> StronglySorted key_le (insert_version x l).
Proof.
  induction l as [|y l IH]; intros Hs; simpl.
  - repeat constructor.
  - inversion Hs as [|? ? Hl Hy]; subst.
    destruct (key_lt x y) eqn:Hxy.
    + constructor; [exact Hs|]. constructor; [now apply key_lt_asym|].
      rewrite Forall_forall in *. intros z Hz. specialize (Hy z Hz).
      unfold key_le in *. destruct (key_lt z x) eqn:Hzx; [| reflexivity].
      rewrite (key_lt_trans _ _ _ Hzx Hxy) in Hy. discriminate.
    + constructor; [now apply IH|].
      apply (Permutation_Forall (insert_version_perm x l)).
      constructor; assumption.
Qed.

Lemma sort_from_perm (l sorted : list str) :
  Permutation (l ++ sorted)
              (fold_left (fun sorted x => insert_version x sorted) l sorted).
Proof.
  revert sorted. induction l as [|x l IH]; intros sorted; simpl; [reflexivity|].
  rewrite <- IH. rewrite <- (insert_version_perm x sorted).
  apply Permutation_middle.
Qed.

Lemma sort_from_sorted (l sorted : list str) :
  StronglySorted key_le sorted ->
  StronglySorted key_le (fold_left (fun sorted x => insert_version x sorted) l sorted).
Proof.
  revert sorted. induction l as [|x l IH]; intros sorted H; simpl; [exact H|].
  apply IH. now apply insert_version_sorted.
Qed.

Lemma sort_versions_perm (l : list str) : Permutation l (sort_versions l).
Proof.
  unfold sort_versions. rewrite <- sort_from_perm. now rewrite app_nil_r.
Qed.

Lemma sort_versions_sorted (l : list str) : StronglySorted key_le (sort_versions l).
Proof. apply sort_from_sorted. constructor. Qed.

Lemma last_cons (l : list str) (x d : str) : last (x :: l) d = last l x.
Proof.
  revert x d. induction l as [|y l IH]; intros x d; [reflexivity|].
  change (last (x :: y :: l) d) with (last (y :: l) d).
  now rewrite (IH y d), (IH y x).
Qed.

Lemma last_in (l : list str) (d : str) : In (last l d) (d :: l).
Proof.
  revert d. induction l as [|x l IH]; intros d; [now left|].
  right. rewrite last_cons. apply IH.
Qed.

Lemma last_is_greatest (rest : list str) (v u : str) :
  StronglySorted key_le (v :: rest) -> In u (v :: rest) -> key_lt (last rest v) u = false.
Proof.
  revert v. induction rest as [|v' rest IH]; intros v Hs Hin.
  - destruct Hin as [<-|[]]. apply key_lt_irrefl.
  - inversion Hs as [|? ? Hl Hv]; subst.
    rewrite last_cons.
    destruct Hin as [<-|Hin]; [| now apply IH].
    rewrite Forall_forall in Hv. apply Hv. apply last_in.
Qed.

Lemma strings_of_map (l : list str) : strings_of (map JStr l) = Some l.
Proof. induction l as [|s l IH]; simpl; [reflexivity | now rewrite IH]. Qed.

Lemma strings_of_some (l : list json) (versions : list str) :
  strings_of l = Some versions -> l = map JStr versions.
Proof.
  revert versions. induction l as [|v l IH]; intros versions H; simpl in H.
  - now injection H as <-.
  - destruct v; try discriminate.
    destruct (strings_of l) as [vs|]; [|discriminate].
    injection H as <-. simpl. now rewrite (IH vs).
Qed.

(** ** The commands *)

Lemma dict_set_same (k : str) (v : json) (d : pydict) :
  Py.dict_get k d = Some v -> Py.dict_set k v d = d.
Proof.
  induction d as [|[k0 v0] d IH]; simpl; [discriminate|].
  destruct (String.eqb_spec k k0) as [->|Hne]; intros H.
  - now injection H as ->.
  - now rewrite (IH H).
Qed.

Lemma dict_mem_true (k : str) (d : pydict) (v : json) :
  Py.dict_get k d = Some v -> Py.dict_mem k d = true.
Proof. unfold Py.dict_mem. now intros ->. Qed.

Section CommandFacts.

Variable decode : bytes -> option str.
Variable loads : str -> option json.

(** The sort in place and the last item, when [self.mod_status] has a list
    of strings as [supported_versions]. *)
Lemma sort_supported_versions_spec (wd : world) (ms cm : pydict) (l : list json)
    (versions : list str) :
  Py.dict_get "mod_status" (attrs (self wd)) = Some (JDict ms) ->
  Py.dict_get "core_mods" ms = Some (JDict cm) ->
  Py.dict_get "supported_versions" cm = Some (JList l) ->
  strings_of l = Some versions ->
  sort_supported_versions wd =
  (with_supported_versions wd ms cm (sort_versions versions),
   match sort_versions versions with
   | [] => Failed IndexError
   | v :: rest => Done (JStr (last rest v))
   end).
Proof.
  intros Hms Hcm Hsv Hstr.
  unfold sort_supported_versions, cmd_bind at 1, self_getattr. rewrite Hms.
  unfold cmd_bind at 1, cmd_lift at 1, Py.getitem at 1. rewrite Hcm. cbn [cmd_ret].
  unfold cmd_bind at 1, cmd_lift at 1, Py.getitem at 1. rewrite Hsv. cbn [cmd_ret].
  rewrite Hstr. unfold cmd_bind, self_setattr, with_supported_versions.
  destruct (sort_versions versions); reflexivity.
Qed.

(** [auto_game_version] when [mod_status] is there and the version asked
    for is [auto]. *)
Lemma auto_game_version_auto (args : namespace) (wd : world) (ms cm : pydict)
    (l : list json) (versions : list str) :
  Py.dict_get "mod_status" (attrs (self wd)) = Some (JDict ms) ->
  Py.dict_get "core_mods" ms = Some (JDict cm) ->
  Py.dict_get "supported_versions" cm = Some (JList l) ->
  strings_of l = Some versions ->
  Py.dict_get "game_version" args = Some (JStr "auto") ->
  auto_game_version decode loads args wd =
  (with_supported_versions wd ms cm (sort_versions versions),
   match sort_versions versions with
   | [] => Failed IndexError
   | v :: rest => Done (Py.dict_set "game_version" (JStr (last rest v)) args)
   end).
Proof.
  intros Hms Hcm Hsv Hstr Hgv.
  unfold auto_game_version, cmd_bind at 1, self_hasattr.
  rewrite (dict_mem_true _ _ _ Hms).
  unfold cmd_bind at 1, cmd_ret at 1.
  unfold cmd_bind at 1, getattr at 1. rewrite Hgv. cbn [cmd_ret Py.eq_str].
  cbn [String.eqb Ascii.eqb Bool.eqb].
  unfold cmd_bind. rewrite (sort_supported_versions_spec wd ms cm l versions) by assumption.
  destruct (sort_versions versions); reflexivity.
Qed.

End CommandFacts.

(** X11: [auto_game_version] with the version [auto].  The list
    [supported_versions] inside [self.mod_status] is sorted in place by
    the key (the version cut at dots and underscores, the pieces compared
    as strings), and the version chosen is its last item: one of the
    supported versions, with no supported version above it in that order.
    The list kept in the wrapper afterwards is the sorted one, the same
    versions in another order; no worker is started. *)
Theorem auto_game_version_takes_greatest
    (decode : bytes -> option str) (loads : str -> option json)
    (args : namespace) (wd : world) (ms cm : pydict) (l : list json)
    (versions : list str) :
  Py.dict_get "mod_status" (attrs (self wd)) = Some (JDict ms) ->
  Py.dict_get "core_mods" ms = Some (JDict cm) ->
  Py.dict_get "supported_versions" cm = Some (JList l) ->
  strings_of l = Some versions ->
  versions <> [] ->
  Py.dict_get "game_version" args = Some (JStr "auto") ->
  exists latest,
    auto_game_version decode loads args wd =
      (with_supported_versions wd ms cm (sort_versions versions),
       Done (Py.dict_set "game_version" (JStr latest) args))
    /\ In latest versions
    /\ (forall v, In v versions -> key_lt latest v = false)
    /\ Permutation versions (sort_versions versions)
    /\ StronglySorted key_le (sort_versions versions).
Proof.
  intros Hms Hcm Hsv Hstr Hne Hgv.
  rewrite (auto_game_version_auto decode loads args wd ms cm l versions) by assumption.
  pose proof (sort_versions_perm versions) as Hperm.
  pose proof (sort_versions_sorted versions) as Hsorted.
  destruct (sort_versions versions) as [|v rest] eqn:Hsort.
  - apply Permutation_sym, Permutation_nil in Hperm. contradiction.
  - exists (last rest v). split; [reflexivity|]. split; [| split; [| split]].
    + apply (Permutation_in _ (Permutation_sym Hperm)). apply last_in.
    + intros u Hu. apply last_is_greatest; [exact Hsorted|].
      apply (Permutation_in _ Hperm Hu).
    + exact Hperm.
    + exact Hsorted.
Qed.

(** Three supported versions in the wrapper. *)
Lemma auto_game_version_takes_greatest_witness :
  let wd := Worlds.after_mod_status in
  let args := GetDowngradeManifest_namespace 0 0 None in
  let versions := ["1.37.0_9064817954"; "1.9.0"; "1.28.0_4124311467"] in
  exists ms cm,
    Py.dict_get "mod_status" (attrs (self wd)) = Some (JDict ms)
    /\ Py.dict_get "core_mods" ms = Some (JDict cm)
    /\ Py.dict_get "supported_versions" cm = Some (JList (map JStr versions))
    /\ strings_of (map JStr versions) = Some versions
    /\ versions <> []
    /\ Py.dict_get "game_version" args = Some (JStr "auto")
    /\ exists latest,
         auto_game_version Utf8.decode Json.loads args wd =
           (with_supported_versions wd ms cm (sort_versions versions),
            Done (Py.dict_set "game_version" (JStr latest) args))
         /\ In latest versions
         /\ (forall v, In v versions -> key_lt latest v = false).
Proof.
  cbv zeta. do 2 eexists.
  split; [vm_compute; reflexivity|].
  split; [reflexivity|]. split; [reflexivity|]. split; [reflexivity|].
  split; [discriminate|]. split; [reflexivity|].
  match goal with
  | |- exists latest, auto_game_version _ _ ?args ?wd =
                        (with_supported_versions _ ?ms ?cm _, _) /\ _ =>
      destruct (auto_game_version_takes_greatest Utf8.decode Json.loads args wd ms cm
                  (map JStr ["1.37.0_9064817954"; "1.9.0"; "1.28.0_4124311467"])
                  ["1.37.0_9064817954"; "1.9.0"; "1.28.0_4124311467"]
                  eq_refl eq_refl eq_refl eq_refl ltac:(discriminate) eq_refl)
        as (latest & Hrun & Hin & Hmax & _)
  end.
  exists latest. split; [exact Hrun | split; [exact Hin | exact Hmax]].
Defined.

(** The pieces are compared as strings: of [1.37.0], [1.9.0] and [1.28.0]
    it is [1.9.0] that is chosen, [9] being above [37] and [28]. *)
Example auto_game_version_compares_strings :
  snd (auto_game_version Utf8.decode Json.loads (GetDowngradeManifest_namespace 0 0 None)
         Worlds.after_mod_status)
  = Done (Py.dict_set "game_version" (JStr "1.9.0")
            (GetDowngradeManifest_namespace 0 0 None)).
Proof. vm_compute. reflexivity. Qed.

Lemma setattr_same (name : str) (v : json) (w : Wrapper) :
  Py.dict_get name (attrs w) = Some v -> fst (setattr name v w) = w.
Proof.
  intros H. unfold setattr. simpl. rewrite (dict_set_same _ _ _ H). now destruct w.
Qed.

(** Putting back a list of versions that is already the one kept changes
    nothing. *)
Lemma with_supported_versions_same (wd : world) (ms cm : pydict) (versions : list str) :
  Py.dict_get "mod_status" (attrs (self wd)) = Some (JDict ms) ->
  Py.dict_get "core_mods" ms = Some (JDict cm) ->
  Py.dict_get "supported_versions" cm = Some (JList (map JStr versions)) ->
  with_supported_versions wd ms cm versions = wd.
Proof.
  intros Hms Hcm Hsv. unfold with_supported_versions.
  rewrite (dict_set_same _ _ _ Hsv), (dict_set_same _ _ _ Hcm), (setattr_same _ _ _ Hms).
  now destruct wd.
Qed.

(** X12: [auto_game_version] with the version [auto] when the core mods
    support no version: sorting the empty list changes nothing and
    [supported_versions[-1]] raises [IndexError]; the wrapper is left as
    it was and no worker is started. *)
Theorem auto_game_version_without_versions
    (decode : bytes -> option str) (loads : str -> option json)
    (args : namespace) (wd : world) (ms cm : pydict) :
  Py.dict_get "mod_status" (attrs (self wd)) = Some (JDict ms) ->
  Py.dict_get "core_mods" ms = Some (JDict cm) ->
  Py.dict_get "supported_versions" cm = Some (JList []) ->
  Py.dict_get "game_version" args = Some (JStr "auto") ->
  auto_game_version decode loads args wd = (wd, Failed IndexError).
Proof.
  intros Hms Hcm Hsv Hgv.
  rewrite (auto_game_version_auto decode loads args wd ms cm [] []) by
    (assumption || reflexivity).
  change (sort_versions []) with (@nil str).
  now rewrite (with_supported_versions_same wd ms cm []).
Qed.

(** A [ModStatus] kept in the wrapper whose core mods support nothing. *)
Lemma auto_game_version_without_versions_witness :
  let wd := {| self := Cases.with_mod_status; workers := []; spawned := [] |} in
  let args := GetDowngradeManifest_namespace 0 0 None in
  exists ms cm,
    Py.dict_get "mod_status" (attrs (self wd)) = Some (JDict ms)
    /\ Py.dict_get "core_mods" ms = Some (JDict cm)
    /\ Py.dict_get "supported_versions" cm = Some (JList [])
    /\ Py.dict_get "game_version" args = Some (JStr "auto")
    /\ auto_game_version Utf8.decode Json.loads args wd = (wd, Failed IndexError).
Proof.
  cbv zeta. do 2 eexists.
  split; [vm_compute; reflexivity|].
  split; [reflexivity|]. split; [reflexivity|]. split; [reflexivity|].
  match goal with
  | |- auto_game_version _ _ ?args ?wd = _ =>
      exact (auto_game_version_without_versions Utf8.decode Json.loads args wd _ _
               eq_refl eq_refl eq_refl eq_refl)
  end.
Defined.

(** X13: the sub-command [GetDowngradeManifest] on a wrapper that has no
    [mod_status] yet, as [main] runs it on a new wrapper.
    [auto_game_version] calls [get_mod_status] with the arguments of the
    sub-command, which have no [override_core_mod_url]: the call raises
    [AttributeError] before any worker is started, whatever version is
    asked for. *)
Theorem GetDowngradeManifest_on_new_wrapper_raises
    (decode : bytes -> option str) (loads : str -> option json)
    (verbosity quiteness : nat) (g : option str) (wd : world) :
  Py.dict_mem "mod_status" (attrs (self wd)) = false ->
  get_downgraded_manifest decode loads
    (GetDowngradeManifest_namespace verbosity quiteness g) wd
  = (wd, Failed (AttributeError "override_core_mod_url")).
Proof.
  intros H. unfold get_downgraded_manifest, cmd_bind at 1.
  unfold auto_game_version, cmd_bind at 1, self_hasattr. rewrite H.
  reflexivity.
Qed.

(** The new wrapper of [main], with a worker that would answer. *)
Lemma GetDowngradeManifest_on_new_wrapper_raises_witness :
  let wd := Worlds.fresh 0 0 (workers Worlds.manifest_to_come) in
  Py.dict_mem "mod_status" (attrs (self wd)) = false
  /\ get_downgraded_manifest Utf8.decode Json.loads
       (GetDowngradeManifest_namespace 0 0 (Some "1.37.0_9064817954")) wd
     = (wd, Failed (AttributeError "override_core_mod_url")).
Proof.
  cbv zeta. split; [reflexivity|].
  exact (GetDowngradeManifest_on_new_wrapper_raises Utf8.decode Json.loads 0 0
           (Some "1.37.0_9064817954")
           (Worlds.fresh 0 0 (workers Worlds.manifest_to_come)) eq_refl).
Defined.

(** X14: [get_downgraded_manifest] when [mod_status] is there and a
    version is named.  One worker is started, with the payload
    [GetDowngradedManifest] and that version; when its session returns,
    [manifest_mod] becomes whatever [downgraded_manifest] then holds: the
    manifest of this session when the worker sent one, the manifest left
    by an earlier session when it did not, and [AttributeError] is raised
    only when there has never been one. *)
Theorem get_downgraded_manifest_takes_what_is_kept
    (decode : bytes -> option str) (loads : str -> option json)
    (args : namespace) (g v : json) (wd : world) (w' : Wrapper) (p : process) :
  Py.dict_mem "mod_status" (attrs (self wd)) = true ->
  Py.dict_get "game_version" args = Some g ->
  Py.eq_str g "auto" = false ->
  send_payload decode loads "GetDowngradedManifest" [("version", g)]
    (hd [] (workers wd)) (self wd) = (w', p, Returned v) ->
  get_downgraded_manifest decode loads args wd =
  match Py.dict_get "downgraded_manifest" (attrs w') with
  | Some manifest =>
      ({| self := fst (setattr "manifest_mod" manifest w');
          workers := tl (workers wd); spawned := (spawned wd ++ [p])%list |}, Done args)
  | None =>
      ({| self := w'; workers := tl (workers wd); spawned := (spawned wd ++ [p])%list |},
       Failed (AttributeError "downgraded_manifest"))
  end.
Proof.
  intros Hms Hgv Hauto Hsession.
  unfold get_downgraded_manifest, cmd_bind at 1.
  unfold auto_game_version, cmd_bind at 1, self_hasattr. rewrite Hms.
  unfold cmd_bind at 1, cmd_ret at 1.
  unfold cmd_bind at 1, getattr at 1. rewrite Hgv. cbn [cmd_ret]. rewrite Hauto.
  cbn [cmd_ret]. unfold cmd_bind at 1, getattr at 1. rewrite Hgv. cbn [cmd_ret].
  unfold cmd_bind at 1, session. rewrite Hsession.
  unfold cmd_bind at 1, self_getattr. cbn [self].
  destruct (Py.dict_get "downgraded_manifest" (attrs w')); reflexivity.
Qed.

(** A worker that sends the manifest, and one that closes at once while
    no manifest has ever been received. *)
Lemma get_downgraded_manifest_takes_what_is_kept_witness :
  let args := GetDowngradeManifest_namespace 0 0 (Some "1.37.0_9064817954") in
  Py.dict_mem "mod_status" (attrs (self Worlds.manifest_to_come)) = true
  /\ Py.dict_get "game_version" args = Some (JStr "1.37.0_9064817954")
  /\ Py.eq_str (JStr "1.37.0_9064817954") "auto" = false
  /\ Py.dict_get "manifest_mod"
       (attrs (self (fst (get_downgraded_manifest Utf8.decode Json.loads args
                            Worlds.manifest_to_come))))
     = Some (JStr "<manifest/>")
  /\ snd (get_downgraded_manifest Utf8.decode Json.loads args Worlds.silent_worker_to_come)
     = Failed (AttributeError "downgraded_manifest").
Proof.
  cbv zeta. do 3 (split; [reflexivity|]).
  split.
  - rewrite (get_downgraded_manifest_takes_what_is_kept Utf8.decode Json.loads
               (GetDowngradeManifest_namespace 0 0 (Some "1.37.0_9064817954"))
               (JStr "1.37.0_9064817954") JNull Worlds.manifest_to_come
               (fst (fst (run "GetDowngradedManifest"
                            [("version", JStr "1.37.0_9064817954")]
                            (hd [] (workers Worlds.manifest_to_come))
                            (self Worlds.manifest_to_come))))
               (snd (fst (run "GetDowngradedManifest"
                            [("version", JStr "1.37.0_9064817954")]
                            (hd [] (workers Worlds.manifest_to_come))
                            (self Worlds.manifest_to_come))))
               eq_refl eq_refl eq_refl eq_refl).
    vm_compute. reflexivity.
  - rewrite (get_downgraded_manifest_takes_what_is_kept Utf8.decode Json.loads
               (GetDowngradeManifest_namespace 0 0 (Some "1.37.0_9064817954"))
               (JStr "1.37.0_9064817954") JNull Worlds.silent_worker_to_come
               (fst (fst (run "GetDowngradedManifest"
                            [("version", JStr "1.37.0_9064817954")]
                            (hd [] (workers Worlds.silent_worker_to_come))
                            (self Worlds.silent_worker_to_come))))
               (snd (fst (run "GetDowngradedManifest"
                            [("version", JStr "1.37.0_9064817954")]
                            (hd [] (workers Worlds.silent_worker_to_come))
                            (self Worlds.silent_worker_to_come))))
               eq_refl eq_refl eq_refl eq_refl).
    vm_compute. reflexivity.
Defined.

(** A manifest left by an earlier session is taken when the worker of
    this one closes without sending any. *)
Example get_downgraded_manifest_takes_stale_manifest :
  let earlier :=
    {| self := fst (parse_response (JDict (Samples.dict_of Worlds.downgraded_manifest))
                      (self Worlds.after_mod_status));
       workers := [[[(Stdout, "")]]]; spawned := [] |} in
  let '(wd, r) := get_downgraded_manifest Utf8.decode Json.loads
                    (GetDowngradeManifest_namespace 0 0 (Some "1.28.0_4124311467")) earlier in
  r = Done (GetDowngradeManifest_namespace 0 0 (Some "1.28.0_4124311467"))
  /\ Py.dict_get "manifest_mod" (attrs (self wd)) = Some (JStr "<manifest/>").
Proof. vm_compute. split; reflexivity. Qed.

Lemma fold_set_lookup (b : bool) (l : list str) (d : pydict) (m : str) :
  Py.dict_get m (fold_left (fun d x => Py.dict_set x (JBool b) d) l d) =
  if existsb (String.eqb m) l then Some (JBool b) else Py.dict_get m d.
Proof.
  revert d. induction l as [|x l IH]; intros d; simpl; [reflexivity|].
  rewrite IH. destruct (existsb (String.eqb m) l); [now rewrite orb_true_r|].
  rewrite orb_false_r. destruct (String.eqb_spec m x) as [->|Hne].
  - apply dict_get_set_same.
  - now apply dict_get_set_other.
Qed.

(** X15: the statuses [set_mod_statuses] sends.  A mod given with [-d] is
    sent as [false], also when it is given with [-e] as well; a mod given
    with [-e] only is sent as [true]; no other mod is in the payload.  The
    payload is [SetModsEnabled] with these statuses. *)
Theorem disabling_wins_over_enabling
    (decode : bytes -> option str) (loads : str -> option json)
    (enable disable : option (list str)) (m : str) (wd : world) :
  Py.dict_get m (statuses_of enable disable) =
    (if existsb (String.eqb m) (given disable) then Some (JBool false)
     else if existsb (String.eqb m) (given enable) then Some (JBool true)
     else None)
  /\ exists p,
       spawned (fst (set_mod_statuses decode loads enable disable wd))
       = (spawned wd ++ [p])%list
       /\ stdin_written p =
          [Dumps (JDict [("type", JStr "SetModsEnabled");
                         ("statuses", JDict (statuses_of enable disable))])].
Proof.
  split.
  - unfold statuses_of, given.
    destruct disable as [d|], enable as [e|]; rewrite ?fold_set_lookup; simpl;
      rewrite ?fold_set_lookup; reflexivity.
  - unfold set_mod_statuses, session.
    destruct (send_payload decode loads "SetModsEnabled" _ _ _) as [[w p] o] eqn:Hs.
    exists p. split; [reflexivity|].
    unfold send_payload in Hs.
    destruct (read_loop decode loads "" _ _) as [w1 o1].
    injection Hs as _ <- _. reflexivity.
Qed.

(** ** Calling [auto_game_version] again *)

Lemma insert_version_last (x : str) (l : list str) :
  Forall (fun y => key_le y x) l -> insert_version x l = (l ++ [x])%list.
Proof.
  induction 1 as [|y l Hy _ IH]; simpl; [reflexivity|].
  unfold key_le in Hy. now rewrite Hy, IH.
Qed.

Lemma strongly_sorted_app_left (a b : list str) :
  StronglySorted key_le (a ++ b) -> StronglySorted key_le a.
Proof.
  induction a as [|x a IH]; simpl; intros H; [constructor|].
  inversion H as [|? ? Hs Hf]; subst. constructor; [now apply IH|].
  apply Forall_app in Hf. tauto.
Qed.

Lemma strongly_sorted_before (a : list str) (x : str) (b : list str) :
  StronglySorted key_le (a ++ x :: b) -> Forall (fun y => key_le y x) a.
Proof.
  induction a as [|y a IH]; simpl; intros H; [constructor|].
  inversion H as [|? ? Hs Hf]; subst. constructor; [| now apply IH].
  rewrite Forall_forall in Hf. apply Hf. apply in_or_app. right. now left.
Qed.

Lemma sort_from_sorted_id (l sorted : list str) :
  StronglySorted key_le (sorted ++ l) ->
  fold_left (fun sorted x => insert_version x sorted) l sorted = (sorted ++ l)%list.
Proof.
  revert sorted. induction l as [|x l IH]; intros sorted H; simpl.
  - now rewrite app_nil_r.
  - rewrite (insert_version_last x sorted (strongly_sorted_before _ _ _ H)).
    rewrite IH; rewrite <- app_assoc; [reflexivity | exact H].
Qed.

(** Sorting a sorted list leaves it as it is. *)
Lemma sort_versions_idempotent (l : list str) :
  sort_versions (sort_versions l) = sort_versions l.
Proof.
  unfold sort_versions at 1. apply sort_from_sorted_id. apply sort_versions_sorted.
Qed.

Lemma sort_supported_versions_done (wd wd1 : world) (latest : json) :
  sort_supported_versions wd = (wd1, Done latest) ->
  exists ms cm l versions v rest,
    Py.dict_get "mod_status" (attrs (self wd)) = Some (JDict ms)
    /\ Py.dict_get "core_mods" ms = Some (JDict cm)
    /\ Py.dict_get "supported_versions" cm = Some (JList l)
    /\ strings_of l = Some versions
    /\ sort_versions versions = v :: rest
    /\ wd1 = with_supported_versions wd ms cm (v :: rest)
    /\ latest = JStr (last rest v).
Proof.
  unfold sort_supported_versions, cmd_bind at 1, self_getattr.
  destruct (Py.dict_get "mod_status" (attrs (self wd))) as [mod_status|] eqn:Hms;
    [| discriminate].
  unfold cmd_bind at 1, cmd_lift at 1, Py.getitem at 1.
  destruct mod_status as [| | | | | | ms]; try discriminate.
  destruct (Py.dict_get "core_mods" ms) as [core_mods|] eqn:Hcm; [| discriminate].
  cbn [cmd_ret]. unfold cmd_bind at 1, cmd_lift at 1, Py.getitem at 1.
  destruct core_mods as [| | | | | | cm]; try discriminate.
  destruct (Py.dict_get "supported_versions" cm) as [sv|] eqn:Hsv; [| discriminate].
  cbn [cmd_ret]. destruct sv as [| | | | | l |]; try discriminate.
  destruct (strings_of l) as [versions|] eqn:Hstr; [| discriminate].
  unfold cmd_bind, self_setattr.
  destruct (sort_versions versions) as [|v rest] eqn:Hsort; [discriminate|].
  intros H. injection H as <- <-.
  exists ms, cm, l, versions, v, rest. repeat split; assumption || reflexivity.
Qed.

(** X16: calling [auto_game_version] again changes nothing.  When a call
    has completed and the wrapper has a [mod_status], a second call with
    the arguments the first one left starts no worker, leaves the wrapper
    and the arguments as they are, and completes: the version is the one
    already chosen and the list already sorted. *)
Theorem auto_game_version_again
    (decode : bytes -> option str) (loads : str -> option json)
    (args args1 : namespace) (wd wd1 : world) :
  auto_game_version decode loads args wd = (wd1, Done args1) ->
  Py.dict_mem "mod_status" (attrs (self wd1)) = true ->
  auto_game_version decode loads args1 wd1 = (wd1, Done args1).
Proof.
  intros Hrun Hhas.
  assert (Hsecond : forall a, auto_game_version decode loads a wd1 =
            cmd_bind (getattr a "game_version")
              (fun game_version =>
                 if Py.eq_str game_version "auto"
                 then cmd_bind sort_supported_versions
                        (fun latest => cmd_ret (Py.dict_set "game_version" latest a))
                 else cmd_ret a) wd1).
  { intros a. unfold auto_game_version, cmd_bind at 1, self_hasattr. rewrite Hhas.
    reflexivity. }
  unfold auto_game_version, cmd_bind at 1, self_hasattr in Hrun.
  unfold cmd_bind at 1 in Hrun.
  destruct ((if Py.dict_mem "mod_status" (attrs (self wd))
             then cmd_ret tt else get_mod_status decode loads args) wd)
    as [wd0 [[]|e|]] eqn:Hfirst; try discriminate.
  unfold cmd_bind at 1, getattr at 1 in Hrun.
  destruct (Py.dict_get "game_version" args) as [g|] eqn:Hgv; [| discriminate].
  cbn [cmd_ret] in Hrun.
  destruct (Py.eq_str g "auto") eqn:Hauto.
  - unfold cmd_bind in Hrun.
    destruct (sort_supported_versions wd0) as [wd' [latest|e|]] eqn:Hsort;
      try discriminate.
    injection Hrun as -> <-.
    apply sort_supported_versions_done in Hsort
      as (ms & cm & l & versions & v & rest & Hms & Hcm & Hsv & Hstr & Hsorted & -> & ->).
    rewrite Hsecond. unfold cmd_bind at 1, getattr. rewrite dict_get_set_same.
    cbn [cmd_ret].
    destruct (Py.eq_str (JStr (last rest v)) "auto").
    + set (cm' := Py.dict_set "supported_versions" (JList (map JStr (v :: rest))) cm).
      set (ms' := Py.dict_set "core_mods" (JDict cm') ms).
      assert (Hms' : Py.dict_get "mod_status"
                       (attrs (self (with_supported_versions wd0 ms cm (v :: rest))))
                     = Some (JDict ms')) by apply dict_get_set_same.
      assert (Hcm' : Py.dict_get "core_mods" ms' = Some (JDict cm'))
        by apply dict_get_set_same.
      assert (Hsv' : Py.dict_get "supported_versions" cm'
                     = Some (JList (map JStr (v :: rest)))) by apply dict_get_set_same.
      unfold cmd_bind.
      rewrite (sort_supported_versions_spec _ ms' cm' _ (v :: rest) Hms' Hcm' Hsv'
                 (strings_of_map _)).
      rewrite <- Hsorted, sort_versions_idempotent, Hsorted.
      rewrite (with_supported_versions_same _ ms' cm' (v :: rest) Hms' Hcm' Hsv').
      unfold cmd_ret. rewrite (dict_set_same "game_version"); [reflexivity|].
      apply dict_get_set_same.
    + reflexivity.
  - injection Hrun as -> <-.
    rewrite Hsecond. unfold cmd_bind, getattr. rewrite Hgv. cbn [cmd_ret].
    now rewrite Hauto.
Qed.

(** The version [auto] on the wrapper with three supported versions: the
    first call sorts and chooses, the second changes nothing. *)
Lemma auto_game_version_again_witness :
  let first := auto_game_version Utf8.decode Json.loads
                 (GetDowngradeManifest_namespace 0 0 None) Worlds.after_mod_status in
  let args1 := Py.dict_set "game_version" (JStr "1.9.0")
                 (GetDowngradeManifest_namespace 0 0 None) in
  first = (fst first, Done args1)
  /\ Py.dict_mem "mod_status" (attrs (self (fst first))) = true
  /\ auto_game_version Utf8.decode Json.loads args1 (fst first) = (fst first, Done args1).
Proof.
  cbv zeta.
  assert (H1 : auto_game_version Utf8.decode Json.loads
                 (GetDowngradeManifest_namespace 0 0 None) Worlds.after_mod_status
               = (fst (auto_game_version Utf8.decode Json.loads
                         (GetDowngradeManifest_namespace 0 0 None) Worlds.after_mod_status),
                  Done (Py.dict_set "game_version" (JStr "1.9.0")
                          (GetDowngradeManifest_namespace 0 0 None))))
    by (vm_compute; reflexivity).
  assert (H2 : Py.dict_mem "mod_status"
                 (attrs (self (fst (auto_game_version Utf8.decode Json.loads
                                      (GetDowngradeManifest_namespace 0 0 None)
                                      Worlds.after_mod_status)))) = true)
    by (vm_compute; reflexivity).
  split; [exact H1 | split; [exact H2|]].
  exact (auto_game_version_again Utf8.decode Json.loads _ _ _ _ H1 H2).
Defined.

(** ** The buffer between two reads *)

Lemma splitlines_from_no_linebreaks (n : nat) (s line : bytes) :
  (String.length s <= n)%nat -> no_linebreak line = true ->
  Forall (fun l => no_linebreak l = true) (splitlines_from line s).
Proof.
  revert s line. induction n as [|n IH]; intros s line Hlen Hline.
  - destruct s; [| simpl in Hlen; lia]. simpl.
    destruct (is_empty line); repeat constructor; assumption.
  - destruct s as [|c rest].
    + simpl. destruct (is_empty line); repeat constructor; assumption.
    + simpl in Hlen. simpl. destruct (Ascii.eqb c LF) eqn:Hlf.
      * constructor; [exact Hline | apply IH; [lia | reflexivity]].
      * destruct (Ascii.eqb c CR) eqn:Hcr.
        -- destruct rest as [|c2 rest2]; [repeat constructor; exact Hline|].
           simpl in Hlen.
           destruct (Ascii.eqb c2 LF);
             (constructor; [exact Hline | apply IH; [simpl; lia | reflexivity]]).
        -- apply IH; [lia|]. unfold snoc. rewrite no_linebreak_app, Hline. simpl.
           now rewrite Hlf, Hcr.
Qed.

Section Pending.

Variable decode : bytes -> option str.
Variable loads : str -> option json.

Lemma feed_line_pending (acc line : bytes) (w : Wrapper) :
  no_linebreak acc = true -> no_linebreak line = true ->
  match snd (feed_line decode loads acc line w) with
  | inr acc' => pending decode loads acc'
  | inl _ => True
  end.
Proof.
  intros Hacc Hline. rewrite feed_line_cases.
  destruct (decode (acc ++ line)) as [s|] eqn:Hd; [| exact I].
  destruct (loads s) as [v|] eqn:Hl.
  - destruct (parse_response v w) as [w1 [e|[]]]; simpl; [exact I|].
    split; [reflexivity | now left].
  - simpl. split; [rewrite no_linebreak_app, Hacc, Hline; reflexivity|].
    right. unfold rejected. now rewrite Hd, Hl.
Qed.

Lemma feed_lines_pending (lines : list bytes) (acc : bytes) (w : Wrapper) :
  pending decode loads acc ->
  Forall (fun l => no_linebreak l = true) lines ->
  match snd (feed_lines decode loads acc lines w) with
  | inr acc' => pending decode loads acc'
  | inl _ => True
  end.
Proof.
  intros Hacc Hall. revert acc w Hacc.
  induction Hall as [|l lines Hl _ IH]; intros acc w Hacc; [exact Hacc|].
  cbn [feed_lines]. unfold bind.
  pose proof (feed_line_pending acc l w (proj1 Hacc) Hl) as H.
  destruct (feed_line decode loads acc l w) as [w1 [e|acc1]]; simpl in *; [exact I|].
  now apply IH.
Qed.

Lemma for_keys_pending (keys : list ready) (acc : bytes) (w : Wrapper) :
  pending decode loads acc ->
  match snd (for_keys decode loads acc keys w) with
  | inr (Some acc') => pending decode loads acc'
  | _ => True
  end.
Proof.
  revert acc w. induction keys as [|[s chunk] keys IH]; intros acc w Hacc; [exact Hacc|].
  cbn [for_keys]. unfold bind.
  assert (H : match snd (on_ready decode loads acc (s, chunk) w) with
              | inr (Some acc') => pending decode loads acc'
              | _ => True
              end).
  { unfold on_ready. destruct (is_empty chunk); [exact I|]. destruct s.
    - unfold bind.
      pose proof (feed_lines_pending (splitlines chunk) acc w Hacc
                    (splitlines_from_no_linebreaks _ chunk "" (le_n _) eq_refl)) as H.
      destruct (feed_lines decode loads acc (splitlines chunk) w) as [w1 [e|acc1]];
        simpl in *; [exact I | exact H].
    - destruct (decode chunk) as [t|]; [| exact I].
      unfold bind. destruct (log [Lit t] (JInt ERROR) w) as [w1 [e|[]]]; simpl;
        [exact I | exact Hacc]. }
  destruct (on_ready decode loads acc (s, chunk) w) as [w1 [e|[acc1|]]]; simpl in *;
    try exact I.
  now apply IH.
Qed.

End Pending.

(** X17: what [combined_stdout] holds whenever the loop waits for the
    next read: it has no line end in it, and it is either empty or text
    that the parser has rejected as a whole; it never holds a message that
    could have been handled. *)
Theorem buffer_between_reads
    (decode : bytes -> option str) (loads : str -> option json)
    (selects : list (list ready)) (acc : bytes) (w : Wrapper) :
  pending decode loads acc ->
  match snd (read_loop decode loads acc selects w) with
  | Waiting acc' => pending decode loads acc'
  | _ => True
  end.
Proof.
  revert acc w. induction selects as [|keys selects IH]; intros acc w Hacc; [exact Hacc|].
  cbn [read_loop].
  pose proof (for_keys_pending decode loads keys acc w Hacc) as H.
  destruct (for_keys decode loads acc keys w) as [w1 [e|[acc1|]]]; simpl in *;
    try exact I.
  now apply IH.
Qed.

(** From the empty buffer of a new session, after a message and a half. *)
Lemma buffer_between_reads_witness :
  let selects := [[(Stdout, Samples.log_hi ++ NL ++ take 9 Samples.fixed_player_data)]] in
  pending Utf8.decode Json.loads ""
  /\ snd (read_loop Utf8.decode Json.loads "" selects Samples.default)
     = Waiting (take 9 Samples.fixed_player_data)
  /\ pending Utf8.decode Json.loads (take 9 Samples.fixed_player_data).
Proof.
  cbv zeta.
  assert (H0 : pending Utf8.decode Json.loads "") by (split; [reflexivity | now left]).
  split; [exact H0 | split; [reflexivity|]].
  pose proof (buffer_between_reads Utf8.decode Json.loads
                [[(Stdout, Samples.log_hi ++ NL ++ take 9 Samples.fixed_player_data)]]
                "" Samples.default H0) as H.
  exact H.
Defined.

(** ** Chunks and lines, in general *)

(** X18: a session depends on the stdout chunks only through the lines
    they are cut into: reading chunks that hold bytes is feeding their
    lines, in order, to the buffer, so two ways of chunking that give the
    same lines give the same session. *)
Theorem session_depends_on_lines
    (decode : bytes -> option str) (loads : str -> option json)
    (chunks chunks' : list bytes) (acc : bytes) (w : Wrapper) :
  forallb (fun c => negb (is_empty c)) chunks = true ->
  forallb (fun c => negb (is_empty c)) chunks' = true ->
  flat_map splitlines chunks' = flat_map splitlines chunks ->
  read_loop decode loads acc (map (fun c => [(Stdout, c)]) chunks) w =
    match feed_lines decode loads acc (flat_map splitlines chunks) w with
    | (w', inr acc') => (w', Waiting acc')
    | (w', inl e) => (w', Raised e)
    end
  /\ read_loop decode loads acc (map (fun c => [(Stdout, c)]) chunks') w =
     read_loop decode loads acc (map (fun c => [(Stdout, c)]) chunks) w.
Proof.
  assert (H : forall cs acc0 w0,
            forallb (fun c => negb (is_empty c)) cs = true ->
            read_loop decode loads acc0 (map (fun c => [(Stdout, c)]) cs) w0 =
            match feed_lines decode loads acc0 (flat_map splitlines cs) w0 with
            | (w', inr acc') => (w', Waiting acc')
            | (w', inl e) => (w', Raised e)
            end).
  { induction cs as [|c cs IH]; intros acc0 w0 Hne; [reflexivity|].
    simpl in Hne. apply andb_true_iff in Hne as [Hc Hne]. apply negb_true_iff in Hc.
    cbn [map flat_map]. rewrite read_loop_stdout by exact Hc.
    rewrite feed_lines_app. unfold bind.
    destruct (feed_lines decode loads acc0 (splitlines c) w0) as [w1 [e|acc1]];
      [reflexivity|].
    now apply IH. }
  intros Hne Hne' Hlines. split; [now apply H|].
  etransitivity; [apply (H chunks' acc w Hne')|].
  rewrite Hlines. symmetry. apply (H chunks acc w Hne).
Qed.

(** A message and the start of the next in one chunk, and the same bytes
    cut after the line end. *)
Lemma session_depends_on_lines_witness :
  let chunks := [Samples.log_hi ++ NL ++ take 9 Samples.fixed_player_data] in
  let chunks' := [Samples.log_hi ++ NL; take 9 Samples.fixed_player_data] in
  let w := Samples.default in
  forallb (fun c => negb (is_empty c)) chunks = true
  /\ forallb (fun c => negb (is_empty c)) chunks' = true
  /\ flat_map splitlines chunks' = flat_map splitlines chunks
  /\ read_loop Utf8.decode Json.loads "" (map (fun c => [(Stdout, c)]) chunks') w
     = read_loop Utf8.decode Json.loads "" (map (fun c => [(Stdout, c)]) chunks) w.
Proof.
  cbv zeta. do 3 (split; [reflexivity|]).
  exact (proj2 (session_depends_on_lines Utf8.decode Json.loads
                  [Samples.log_hi ++ NL ++ take 9 Samples.fixed_player_data]
                  [Samples.log_hi ++ NL; take 9 Samples.fixed_player_data]
                  "" Samples.default eq_refl eq_refl eq_refl)).
Defined.

(** ** A [DowngradedManifest] response *)

(** The blank line before a response that is no log message. *)
Lemma blank_line_spec (w : Wrapper) :
  (if INFO <=? log_level w then print sys_stdout [] else ret tt) w =
  (with_printed w (if INFO <=? log_level w then [(sys_stdout, [Lit NL])] else []), inr tt).
Proof.
  destruct (INFO <=? log_level w); [reflexivity|].
  unfold ret. now rewrite with_printed_nil.
Qed.

(** X19: a [DowngradedManifest] response.  With a [manifest_xml] the call
    returns and [downgraded_manifest] is that value, whatever it is; without
    one the call raises [KeyError('manifest_xml')] and no attribute of the
    wrapper is changed, so a manifest kept from an earlier response stays. *)
Theorem downgraded_manifest_response (d : pydict) (w : Wrapper) :
  Py.dict_get "type" d = Some (JStr "DowngradedManifest") ->
  let r := parse_response (JDict d) w in
  match Py.dict_get "manifest_xml" (Py.dict_del "type" d) with
  | Some manifest =>
      snd r = inr tt /\ Py.dict_get "downgraded_manifest" (attrs (fst r)) = Some manifest
  | None => snd r = inl (KeyError "manifest_xml") /\ attrs (fst r) = attrs w
  end.
Proof.
  intros Hty.
  assert (Heq : exists w1, attrs w1 = attrs w /\
            parse_response (JDict d) w =
            match Py.dict_get "manifest_xml" (Py.dict_del "type" d) with
            | Some manifest => (fst (setattr "downgraded_manifest" manifest w1), inr tt)
            | None => (w1, inl (KeyError "manifest_xml"))
            end).
  { rewrite (parse_response_typed d _ w Hty). cbv zeta.
    cbn [Py.eq_str String.eqb Ascii.eqb Bool.eqb].
    unfold bind at 1, get_log_level at 1. unfold bind at 1.
    rewrite blank_line_spec.
    unfold handle_DowngradedManifest, log_info. unfold bind at 1.
    rewrite log_int. unfold bind, lift, Py.getitem.
    eexists. split; [| destruct (Py.dict_get "manifest_xml" (Py.dict_del "type" d));
                       reflexivity].
    destruct (_ <? INFO); reflexivity. }
  destruct Heq as (w1 & Ha & Heq). cbv zeta. rewrite Heq.
  destruct (Py.dict_get "manifest_xml" (Py.dict_del "type" d)) as [manifest|]; simpl.
  - split; [reflexivity | apply dict_get_set_same].
  - split; [reflexivity | exact Ha].
Qed.

(** A manifest, and a response without one after it. *)
Lemma downgraded_manifest_response_witness :
  let d := Samples.dict_of Worlds.downgraded_manifest in
  let w1 := fst (parse_response (JDict d) Samples.default) in
  let bare := [("type", JStr "DowngradedManifest")] in
  Py.dict_get "type" d = Some (JStr "DowngradedManifest")
  /\ Py.dict_get "downgraded_manifest" (attrs w1) = Some (JStr "<manifest/>")
  /\ Py.dict_get "type" bare = Some (JStr "DowngradedManifest")
  /\ snd (parse_response (JDict bare) w1) = inl (KeyError "manifest_xml")
  /\ attrs (fst (parse_response (JDict bare) w1)) = attrs w1.
Proof.
  cbv zeta. split; [reflexivity|].
  split.
  - exact (proj2 (downgraded_manifest_response
                    (Samples.dict_of Worlds.downgraded_manifest) Samples.default eq_refl)).
  - split; [reflexivity|].
    exact (downgraded_manifest_response [("type", JStr "DowngradedManifest")]
             (fst (parse_response (JDict (Samples.dict_of Worlds.downgraded_manifest))
                     Samples.default)) eq_refl).
Defined.

(** ** The options and the levels *)

